(** * School registration form: conversational form-filling bridge

    A shallow embedding of the code of the school registration client
    (src/components/ChatBot.tsx, src/components/SchoolForm.tsx,
    src/services/api.ts, src/types.ts) and the properties its written
    specification states about it.

    JavaScript objects are finite maps from property names to values
    ([gmap string string]: every field of [SchoolData] is declared a string),
    a missing property reads as [undefined] ([None]); React state and refs are
    fields of explicit state records; functions that can raise return in the
    [res] error type. *)

From Stdlib Require Import Strings.Ascii Strings.String Strings.Byte List ZArith QArith Lia.
From stdpp Require Import gmap strings list pretty.

Open Scope string_scope.
Open Scope list_scope.

Set Warnings "-clear-no-such-hyp,-register-all".

(** ** JavaScript results: a value or a thrown exception *)

(** A JavaScript object is a finite map from property names to values. *)
Abbreviation obj := (gmap string string).

(** A thrown [Error] or [DOMException]: its [name] and its [message]. *)
Record exn : Type := Exn { exn_name : string; exn_message : string }.

Definition TypeError (message : string) : exn := Exn "TypeError" message.

Inductive res (A : Type) : Type :=
| Ok (a : A)
| Throw (e : exn).
Arguments Ok {A} a.
Arguments Throw {A} e.

#[global] Instance res_ret : MRet res := fun A a => Ok a.

(** Sequencing: a thrown exception skips the rest ([x ← r; k]). *)
#[global] Instance res_bind : MBind res := fun A B k r =>
  match r with
  | Ok a => k a
  | Throw e => Throw e
  end.

(** [try { body } catch (e) { handler }] *)
Definition try_catch {A} (body : res A) (handler : exn -> res A) : res A :=
  match body with
  | Ok a => Ok a
  | Throw e => handler e
  end.

(** [haystack.includes(needle)] on strings. *)
Fixpoint includes (haystack needle : string) : bool :=
  String.prefix needle haystack ||
  match haystack with
  | EmptyString => false
  | String _ rest => includes rest needle
  end.

(** The double-quote character, for text that quotes a value. *)
Definition dquote : string := String (ascii_of_nat 34) EmptyString.

(** JavaScript truthiness of a property read from an object of strings:
    [undefined] and the empty string are falsy. *)
Definition truthy (v : option string) : bool :=
  match v with
  | Some s => negb (String.eqb s "")
  | None => false
  end.

(** ** types.ts *)

Module Types.

(** The fields of [interface SchoolData], in declaration order. *)
Definition SchoolDataKeys : list string :=
  [ "schoolName"; "udiseCode"; "block"; "district"; "level";
    "principalName"; "societyTrustName"; "phone"; "email";
    "schoolPicture"; "principalPicture";
    "registrationCertificatePrimary"; "registrationCertificateUpper" ].

Definition SchoolDataKeySet : gset string := list_to_set SchoolDataKeys.

(** An object has type [SchoolData] when it has exactly these fields. *)
Definition is_SchoolData (d : obj) : Prop := dom d = SchoolDataKeySet.

(** An object has type [Partial<SchoolData>] when it has only such fields. *)
Definition is_PartialSchoolData (d : obj) : Prop := dom d ⊆ SchoolDataKeySet.

End Types.

(** ** SharedFormState: the interview order (ChatBot.tsx) *)

Module FieldOrder.

Record field : Type := Field { key : string; label : string }.

Definition INTERVIEW_ORDER : list field :=
  [ Field "schoolName" "School Name";
    Field "udiseCode" "UDISE Code";
    Field "block" "Block (e.g., Khowai, Teliamura)";
    Field "district" "District";
    Field "level" "Level (Primary, Upper Primary)";
    Field "principalName" "Principal Name";
    Field "societyTrustName" "Name of Society or Trust";
    Field "phone" "Phone Number";
    Field "email" "Email Address" ].

(** The [for (const field of INTERVIEW_ORDER)] loop: it returns at the first
    field whose value is falsy, and falls through ([None]) when there is
    none. *)
Fixpoint first_missing (data : obj) (fields : list field) : option string :=
  match fields with
  | [] => None
  | f :: rest =>
      if negb (truthy (data !! key f)) then Some (label f)
      else first_missing data rest
  end.

Definition READY : string := "All fields are filled. Ready to submit?".

Definition getNextMissingField (data : option obj) : string :=
  match data with
  | None => label (hd (Field "" "") INTERVIEW_ORDER)
  | Some data =>
      match first_missing data INTERVIEW_ORDER with
      | Some l => l
      | None =>
          if negb (truthy (data !! "schoolPicture"))
          then "School Picture (Please upload via UI)"
          else if negb (truthy (data !! "principalPicture"))
          then "Principal Picture (Please upload via UI)"
          else if negb (truthy (data !! "registrationCertificatePrimary"))
          then "Primary Registration PDF (Please upload via UI)"
          else if bool_decide (data !! "level" = Some "Upper Primary (1-8)")
                  && negb (truthy (data !! "registrationCertificateUpper"))
          then "Upper Primary Registration PDF (Please upload via UI)"
          else READY
      end
  end.

(** *** The rule in the specification's words *)

(** The value of a field is empty: the empty string, or no value. *)
Definition is_empty (data : obj) (f : field) : Prop :=
  data !! key f = None \/ data !! key f = Some "".

(** The attachment fields in their fixed order; the upper-primary
    certificate counts only for the level "Upper Primary (1-8)". *)
Definition attachment_fields (data : obj) : list field :=
  [ Field "schoolPicture" "School Picture (Please upload via UI)";
    Field "principalPicture" "Principal Picture (Please upload via UI)";
    Field "registrationCertificatePrimary" "Primary Registration PDF (Please upload via UI)" ]
  ++ (if decide (data !! "level" = Some "Upper Primary (1-8)")
      then [Field "registrationCertificateUpper" "Upper Primary Registration PDF (Please upload via UI)"]
      else []).

(** The textual fields, then the attachments. *)
Definition checked_fields (data : obj) : list field :=
  INTERVIEW_ORDER ++ attachment_fields data.

(** [f] is the first field of [fields] whose value is empty. *)
Definition first_empty (data : obj) (fields : list field) (f : field) : Prop :=
  exists before after,
    fields = before ++ f :: after /\
    Forall (fun g => ~ is_empty data g) before /\
    is_empty data f.

End FieldOrder.

(** ** FormController (SchoolForm.tsx) *)

Module SchoolForm.

Definition INITIAL_DATA : obj :=
  list_to_map
    [ ("schoolName", ""); ("udiseCode", ""); ("block", ""); ("district", "");
      ("level", ""); ("principalName", ""); ("societyTrustName", "");
      ("phone", ""); ("email", ""); ("schoolPicture", "");
      ("principalPicture", ""); ("registrationCertificatePrimary", "");
      ("registrationCertificateUpper", "") ].

(** The React state of the form component.  [submitCalls] counts the calls
    of [handleSubmit], an [async] function: it cannot raise into its caller,
    and its body (validation and the network call) runs later. *)
Record FormState : Type := mkFormState {
  formData : obj;
  errors : obj;
  submitCalls : nat;
}.

Definition initialFormState : FormState := mkFormState INITIAL_DATA ∅ 0.

(** [handleChange]: [setFormData(prev => ...)], then the field's error is
    dropped. *)
Definition handleChange (name value : string) (st : FormState) : FormState :=
  let prev := formData st in
  let newData := <[name := value]> prev in
  let newData :=
    if bool_decide (name = "level") && bool_decide (value = "Primary (1-5)")
    then <["registrationCertificateUpper" := ""]> newData
    else newData in
  mkFormState newData
    (if truthy (errors st !! name) then delete name (errors st) else errors st)
    (submitCalls st).

Definition handleFileChange (name base64 : string) (st : FormState) : FormState :=
  mkFormState (<[name := base64]> (formData st))
    (if truthy (errors st !! name) then delete name (errors st) else errors st)
    (submitCalls st).

(** The state updater of [handleVoiceUpdate]: [{ ...prev, ...updates }], the
    later spread winning, then the level rule. *)
Definition mergeUpdates (prev updates : obj) : obj :=
  let newData := updates ∪ prev in
  if truthy (updates !! "level")
     && bool_decide (updates !! "level" = Some "Primary (1-5)")
  then <["registrationCertificateUpper" := ""]> newData
  else newData.

(** [handleVoiceUpdate].  The argument arrives from the model through
    [fc.args as any]; where it is [undefined], [Object.keys(updates)] raises
    a [TypeError]. *)
Definition handleVoiceUpdate (updates : option obj) (st : FormState) : res FormState :=
  match updates with
  | None => Throw (TypeError "Cannot convert undefined or null to object")
  | Some updates =>
      Ok (mkFormState (mergeUpdates (formData st) updates)
                      (errors st ∖ updates)
                      (submitCalls st))
  end.

(** [() => handleSubmit()], as passed to the chat component. *)
Definition onSubmitForm (st : FormState) : res FormState :=
  Ok (mkFormState (formData st) (errors st) (S (submitCalls st))).

End SchoolForm.

(** ** AudioCodec: the base64 transport encoding of PCM bytes
    (ChatBot.tsx, [decode] and [encode]) *)

Module AudioCodec.

(** *** The platform functions [btoa] and [atob]

    [btoa] and [atob] are functions of the browser, not of this repository.
    They are modelled after their definition (WHATWG Infra, "forgiving-base64
    encode" and "forgiving-base64 decode"; RFC 4648 alphabet).  A binary
    string is a [string] whose characters are the code units 0..255. *)

(** Six bits, most significant first. *)
Inductive sextet : Type :=
| S6 (b5 b4 b3 b2 b1 b0 : bool).

Definition sextet_index (s : sextet) : nat :=
  let '(S6 b5 b4 b3 b2 b1 b0) := s in
  let w (b : bool) (n : nat) := if b then n else 0 in
  w b5 32 + w b4 16 + w b3 8 + w b2 4 + w b1 2 + w b0 1.

Definition sextet_of_index (n : nat) : sextet :=
  S6 (Nat.testbit n 5) (Nat.testbit n 4) (Nat.testbit n 3)
     (Nat.testbit n 2) (Nat.testbit n 1) (Nat.testbit n 0).

Definition alphabet : list ascii :=
  list_ascii_of_string
    "ABCDEFGHIJKLMNOPQRSTUVWXYZabcdefghijklmnopqrstuvwxyz0123456789+/".

Definition char_of_sextet (s : sextet) : ascii :=
  nth (sextet_index s) alphabet "A"%char.

(** Position of a character in a list of characters. *)
Fixpoint position (c : ascii) (l : list ascii) : option nat :=
  match l with
  | [] => None
  | x :: l' => if Ascii.eqb x c then Some 0 else S <$> position c l'
  end.

Definition sextet_of_char (c : ascii) : option sextet :=
  sextet_of_index <$> position c alphabet.

(** Three bytes are four sextets: the 24 bits regrouped.  [Ascii] lists the
    bits of a character least significant first. *)
Definition enc3 (a b c : ascii) : sextet * sextet * sextet * sextet :=
  let '(Ascii a0 a1 a2 a3 a4 a5 a6 a7) := a in
  let '(Ascii b0 b1 b2 b3 b4 b5 b6 b7) := b in
  let '(Ascii c0 c1 c2 c3 c4 c5 c6 c7) := c in
  (S6 a7 a6 a5 a4 a3 a2, S6 a1 a0 b7 b6 b5 b4,
   S6 b3 b2 b1 b0 c7 c6, S6 c5 c4 c3 c2 c1 c0).

Definition dec4 (s1 s2 s3 s4 : sextet) : ascii * ascii * ascii :=
  let '(S6 a7 a6 a5 a4 a3 a2) := s1 in
  let '(S6 a1 a0 b7 b6 b5 b4) := s2 in
  let '(S6 b3 b2 b1 b0 c7 c6) := s3 in
  let '(S6 c5 c4 c3 c2 c1 c0) := s4 in
  (Ascii a0 a1 a2 a3 a4 a5 a6 a7, Ascii b0 b1 b2 b3 b4 b5 b6 b7,
   Ascii c0 c1 c2 c3 c4 c5 c6 c7).

(** The sextets of a byte sequence; a final group of one or two bytes is
    padded with zero bits and gives two or three sextets. *)
Fixpoint enc_groups (l : list ascii) : list sextet :=
  match l with
  | [] => []
  | [a] => let '(s1, s2, _, _) := enc3 a zero zero in [s1; s2]
  | [a; b] => let '(s1, s2, s3, _) := enc3 a b zero in [s1; s2; s3]
  | a :: b :: c :: rest =>
      let '(s1, s2, s3, s4) := enc3 a b c in
      s1 :: s2 :: s3 :: s4 :: enc_groups rest
  end.

(** The [=] signs that complete the last group of four characters. *)
Fixpoint padding (l : list ascii) : list ascii :=
  match l with
  | [] => []
  | [_] => ["="; "="]%char
  | [_; _] => ["="%char]
  | _ :: _ :: _ :: rest => padding rest
  end.

Definition btoa (binary : string) : string :=
  let l := list_ascii_of_string binary in
  string_of_list_ascii (map char_of_sextet (enc_groups l) ++ padding l).

(** ASCII whitespace: TAB, LF, FF, CR and SPACE. *)
Definition is_ascii_whitespace (c : ascii) : bool :=
  let n := nat_of_ascii c in
  (n =? 9)%nat || (n =? 10)%nat || (n =? 12)%nat || (n =? 13)%nat || (n =? 32)%nat.

(** Removes one [=] from the front of the reversed data. *)
Definition drop_eq (r : list ascii) : list ascii :=
  match r with
  | x :: r' => if Ascii.eqb x "="%char then r' else r
  | [] => []
  end.

(** "If data ends with one or two U+003D (=) code points, remove them." *)
Definition strip_padding (d : list ascii) : list ascii :=
  rev (drop_eq (drop_eq (rev d))).

(** The bytes of a sequence of sextets; the spare bits of a final group of
    two or three sextets are discarded. *)
Fixpoint dec_groups (l : list sextet) : list ascii :=
  match l with
  | s1 :: s2 :: s3 :: s4 :: rest =>
      let '(a, b, c) := dec4 s1 s2 s3 s4 in a :: b :: c :: dec_groups rest
  | [s1; s2; s3] =>
      let '(a, b, _) := dec4 s1 s2 s3 (S6 false false false false false false) in [a; b]
  | [s1; s2] =>
      let z := S6 false false false false false false in
      let '(a, _, _) := dec4 s1 s2 z z in [a]
  | _ => []
  end.

Definition InvalidCharacterError : exn :=
  Exn "InvalidCharacterError" "The string to be decoded is not correctly encoded.".

(** [atob] raises [InvalidCharacterError] where the decoding fails. *)
Definition atob (data : string) : res string :=
  let d := List.filter (fun c => negb (is_ascii_whitespace c)) (list_ascii_of_string data) in
  let d := if (length d mod 4 =? 0)%nat then strip_padding d else d in
  if (length d mod 4 =? 1)%nat then Throw InvalidCharacterError
  else match mapM sextet_of_char d with
       | None => Throw InvalidCharacterError
       | Some ss => Ok (string_of_list_ascii (dec_groups ss))
       end.

(** *** [encode] and [decode] of ChatBot.tsx

    A [Uint8Array] is a list of bytes. *)

(** [String.fromCharCode(b)] for a byte [b]. *)
Definition fromCharCode (b : byte) : string :=
  String (ascii_of_byte b) EmptyString.

(** [binaryString.charCodeAt(i)] stored into a [Uint8Array] slot; an index
    out of range reads [NaN], which is stored as 0. *)
Definition charCodeAt (s : string) (i : nat) : byte :=
  match String.get i s with
  | Some c => byte_of_ascii c
  | None => x00
  end.

(** [encode]: the loop appends one character per byte, then [btoa]. *)
Definition encode (bytes : list byte) : string :=
  let binary := fold_left (fun binary b => binary +:+ fromCharCode b) bytes "" in
  btoa binary.

(** [decode]: [atob], then the loop fills a fresh array of [len] zero bytes,
    slot by slot. *)
Definition decode (base64 : string) : res (list byte) :=
  binaryString ← atob base64;
  let len := String.length binaryString in
  let bytes := replicate len x00 in
  Ok (fold_left (fun bytes i => <[i := charCodeAt binaryString i]> bytes)
                (seq 0 len) bytes).

End AudioCodec.

(** ** Time values

    Playback times are JavaScript numbers (seconds, as doubles).  The
    scheduling code only compares them, takes a maximum and adds a duration,
    so it is written over any type of time values with these operations and
    the order facts that doubles other than NaN satisfy. *)

Class Clock (T : Type) : Type := {
  t_le : T -> T -> Prop;
  t_max : T -> T -> T;              (* [Math.max] *)
  t_add : T -> T -> T;              (* [+] *)
  t_zero : T;
  t_frames : nat -> T;              (* duration of [n] frames at 24 kHz *)
  t_le_refl : forall a, t_le a a;
  t_le_trans : forall a b c, t_le a b -> t_le b c -> t_le a c;
  t_max_l : forall a b, t_le a (t_max a b);
  t_max_r : forall a b, t_le b (t_max a b);
  t_add_nonneg : forall a d, t_le t_zero d -> t_le a (t_add a d);
  t_frames_nonneg : forall n, t_le t_zero (t_frames n);
}.

(** Integer time, in ticks of one sample frame (1/24000 s). *)
#[global] Instance Z_Clock : Clock Z := {|
  t_le := Z.le; t_max := Z.max; t_add := Z.add; t_zero := 0%Z;
  t_frames := Z.of_nat;
  t_le_refl := Z.le_refl;
  t_le_trans := Z.le_trans;
  t_max_l := Z.le_max_l;
  t_max_r := Z.le_max_r;
  t_add_nonneg := fun a d (Hd : (0 <= d)%Z) => ltac:(lia);
  t_frames_nonneg := Nat2Z.is_nonneg;
|}.

(** ** DuplexVoiceSession and ToolDispatcher (ChatBot.tsx) *)

Module ChatBot.
Import FieldOrder.

Definition SUPPORT_MSG : string := "For more support Please call +918974257871".

Inductive Role : Type := user | model.

Record Message : Type := mkMessage {
  role : Role;
  text : string;
  image : option string;
}.

(** A function call of the model: [id], [name] and [args] are optional. *)
Record FunctionCall : Type := mkFunctionCall {
  fc_id : option string;
  fc_name : option string;
  fc_args : option obj;
}.

(** One entry of [sendToolResponse({ functionResponses: ... })]. *)
Record FunctionResponse : Type := mkFunctionResponse {
  fr_id : option string;
  fr_name : option string;
  fr_response : obj;
}.

(** [serverContent.modelTurn], as far as it is read: its [parts], which may
    be missing, and of each part [inlineData?.data]. *)
Record ModelTurn : Type := mkModelTurn {
  parts : option (list (option string));
}.

(** The parts of a [LiveServerMessage] that [onmessage] reads:
    [serverContent?.outputTranscription] with its [text],
    [serverContent?.modelTurn], and [toolCall.functionCalls]. *)
Record LiveServerMessage : Type := mkServerMessage {
  outputTranscription : option (option string);
  modelTurn : option ModelTurn;
  toolCall : option (list FunctionCall);
}.

(** A message whose model turn, if it has one, has one part: the part with
    the audio data [data]. *)
Definition mkLiveServerMessage (transcription : option (option string))
    (data : option string) (calls : option (list FunctionCall)) : LiveServerMessage :=
  mkServerMessage transcription
    (match data with
     | Some base64Audio => Some (mkModelTurn (Some [Some base64Audio]))
     | None => None
     end)
    calls.

(** [message.serverContent?.modelTurn?.parts[0]?.inlineData?.data]: there is
    no [?.] after [parts], so a model turn without parts raises. *)
Definition inlineData (message : LiveServerMessage) : res (option string) :=
  match modelTurn message with
  | None => Ok None
  | Some turn =>
      match parts turn with
      | None => Throw (TypeError "Cannot read properties of undefined (reading '0')")
      | Some [] => Ok None
      | Some (part :: _) => Ok part
      end
  end.

Section Component.
Context {T : Type} `{Clock T}.

(** What the component asks of the platform.  Media streams, audio contexts,
    sessions and buffer sources are named by numbers. *)
Inductive Effect : Type :=
| GetUserMedia (stream : nat)      (* [getUserMedia({ audio: true })] resolved *)
| NewAudioContext (ctx : nat)      (* [new AudioContextClass(...)] *)
| Connect (session : nat)          (* [ai.live.connect(...)] *)
| StopTracks (stream : nat)        (* [getTracks().forEach(track => track.stop())] *)
| CloseSession (session : nat)     (* [sessionRef.current.then(s => s.close())] *)
| CloseContext (ctx : nat)         (* [audioContext.close()] *)
| StartSource (source ctx : nat) (when duration : T)  (* [source.start(when)] *)
| SendToolResponse (r : FunctionResponse).

(** The React state and the refs of the chat component.  [sourceCounter]
    numbers the buffer sources that [createBufferSource] has made. *)
Record State : Type := mkState {
  isOpen : bool;
  messages : list Message;
  isLiveConnected : bool;
  isConnecting : bool;
  liveCaption : string;
  currentDataRef : option obj;
  audioContextRef : option nat;
  inputAudioContextRef : option nat;
  mediaStreamRef : option nat;
  sourcesRef : gset nat;
  nextStartTimeRef : T;
  sessionRef : option nat;
  sourceCounter : nat;
}.

Definition initialState (currentData : option obj) : State :=
  mkState false
    [mkMessage model "Hello, I am Arup Kumar AI Assistant. I can help you fill out the School Registration. What is the name of your school?" None]
    false false "" currentData None None None ∅ t_zero None 0.

Definition set_flags (connected connecting : bool) (st : State) : State :=
  mkState (isOpen st) (messages st) connected connecting (liveCaption st)
    (currentDataRef st) (audioContextRef st) (inputAudioContextRef st)
    (mediaStreamRef st) (sourcesRef st) (nextStartTimeRef st) (sessionRef st)
    (sourceCounter st).

Definition set_caption (caption : string) (st : State) : State :=
  mkState (isOpen st) (messages st) (isLiveConnected st) (isConnecting st) caption
    (currentDataRef st) (audioContextRef st) (inputAudioContextRef st)
    (mediaStreamRef st) (sourcesRef st) (nextStartTimeRef st) (sessionRef st)
    (sourceCounter st).

Definition set_chat (open : bool) (msgs : list Message) (st : State) : State :=
  mkState open msgs (isLiveConnected st) (isConnecting st) (liveCaption st)
    (currentDataRef st) (audioContextRef st) (inputAudioContextRef st)
    (mediaStreamRef st) (sourcesRef st) (nextStartTimeRef st) (sessionRef st)
    (sourceCounter st).

(** Assigns the four handles: output context, input context, stream, session. *)
Definition set_handles (out inp stream session : option nat) (st : State) : State :=
  mkState (isOpen st) (messages st) (isLiveConnected st) (isConnecting st)
    (liveCaption st) (currentDataRef st) out inp stream (sourcesRef st)
    (nextStartTimeRef st) session (sourceCounter st).

Definition set_playback (sources : gset nat) (cursor : T) (counter : nat)
    (st : State) : State :=
  mkState (isOpen st) (messages st) (isLiveConnected st) (isConnecting st)
    (liveCaption st) (currentDataRef st) (audioContextRef st)
    (inputAudioContextRef st) (mediaStreamRef st) sources cursor
    (sessionRef st) counter.

(** The effect hook that keeps [currentDataRef] equal to the [currentData]
    prop; it runs after each render of the owner. *)
Definition syncCurrentData (currentData : option obj) (st : State) : State :=
  mkState (isOpen st) (messages st) (isLiveConnected st) (isConnecting st)
    (liveCaption st) currentData (audioContextRef st)
    (inputAudioContextRef st) (mediaStreamRef st) (sourcesRef st)
    (nextStartTimeRef st) (sessionRef st) (sourceCounter st).

(** *** Teardown *)

(** The calls of a [try] block in order, up to the first one that raises;
    [raises] tells which platform calls raise. *)
Fixpoint attempt (raises : Effect -> bool) (calls : list Effect) : list Effect :=
  match calls with
  | [] => []
  | c :: rest => if raises c then [] else c :: attempt raises rest
  end.

(** [if (ref.current) call(ref.current)] *)
Definition when_set (ref : option nat) (call : nat -> Effect) : list Effect :=
  match ref with
  | Some h => [call h]
  | None => []
  end.

(** [disconnectLiveSession]: the guarded release calls inside
    [try { ... } catch (e) {}], then the flags, the caption and the four
    handles are reset. *)
Definition disconnectLiveSession (raises : Effect -> bool) (st : State)
    : State * list Effect :=
  let released :=
    attempt raises
      (when_set (mediaStreamRef st) StopTracks ++
       when_set (sessionRef st) CloseSession ++
       when_set (audioContextRef st) CloseContext ++
       when_set (inputAudioContextRef st) CloseContext) in
  (set_handles None None None None (set_caption "" (set_flags false false st)),
   released).

(** *** Session start *)

(** What [startLiveSession] finds in its environment: whether
    [process.env.API_KEY] is set, whether [navigator.mediaDevices.getUserMedia]
    exists, what [new GoogleGenAI] raises if it raises, what [getUserMedia]
    resolves or rejects with, and what the two [AudioContext] constructors
    and [connect] return or raise. *)
Record StartEnv : Type := mkStartEnv {
  env_API_KEY : bool;
  env_mediaDevices : bool;
  env_client : option exn;
  env_getUserMedia : res nat;
  env_inputContext : res nat;
  env_outputContext : res nat;
  env_session : res nat;
}.

(** The [try] block of [startLiveSession] up to the stream. *)
Definition acquireStream (env : StartEnv) : res nat :=
  if negb (env_API_KEY env)
  then Throw (Exn "Error" "API Key is missing. Please check your environment variables.")
  else if negb (env_mediaDevices env)
  then Throw (Exn "Error" "Microphone access is not supported in this context. Ensure you are using HTTPS.")
  else
    match env_client env with
    | Some e => Throw e
    | None => env_getUserMedia env
    end.

(** The message that the [catch] block of [startLiveSession] shows. *)
Definition startErrorMessage (e : exn) : string :=
  let errMsg := exn_message e in
  if includes errMsg "API Key" then "⚠️ API Key is missing."
  else if String.eqb (exn_name e) "NotAllowedError" then "⚠️ Microphone access denied."
  else if negb (String.eqb errMsg "") then "⚠️ Error: " +:+ errMsg
  else "⚠️ Unable to start voice mode.".

(** The [catch] block of [startLiveSession], after the calls [acquired] of
    the [try] block: the teardown releases what the handles name by then. *)
Definition startFailed (raises : Effect -> bool) (e : exn) (acquired : list Effect)
    (st : State) : State * list Effect :=
  let '(st, released) := disconnectLiveSession raises (set_flags false false st) in
  (set_chat true
     (messages st ++ [mkMessage model (startErrorMessage e) None;
                      mkMessage model SUPPORT_MSG None]) st,
   acquired ++ released).

(** [startLiveSession].  While a session is connected it only disconnects
    and returns; while one is connecting it does nothing.  The steps of the
    [async] body are taken together; each handle is assigned as soon as its
    object is there. *)
Definition startLiveSession (raises : Effect -> bool) (env : StartEnv) (st : State)
    : State * list Effect :=
  if isLiveConnected st then disconnectLiveSession raises st
  else if isConnecting st then (st, [])
  else
    let st := set_caption "Connecting..." (set_flags (isLiveConnected st) true st) in
    match acquireStream env with
    | Ok stream =>
        (* [mediaStreamRef.current = stream] *)
        let st := set_handles (audioContextRef st) (inputAudioContextRef st)
                              (Some stream) (sessionRef st) st in
        match env_inputContext env with
        | Ok input =>
            let st := set_handles (audioContextRef st) (Some input)
                                  (mediaStreamRef st) (sessionRef st) st in
            match env_outputContext env with
            | Ok output =>
                let st := set_handles (Some output) (inputAudioContextRef st)
                                      (mediaStreamRef st) (sessionRef st) st in
                match env_session env with
                | Ok session =>
                    (set_handles (audioContextRef st) (inputAudioContextRef st)
                                 (mediaStreamRef st) (Some session) st,
                     [GetUserMedia stream; NewAudioContext input;
                      NewAudioContext output; Connect session])
                | Throw e =>
                    startFailed raises e
                      [GetUserMedia stream; NewAudioContext input;
                       NewAudioContext output] st
                end
            | Throw e =>
                startFailed raises e [GetUserMedia stream; NewAudioContext input] st
            end
        | Throw e => startFailed raises e [GetUserMedia stream] st
        end
    | Throw e => startFailed raises e [] st
    end.

(** *** Session callbacks *)

Definition onopen (st : State) : State :=
  set_caption "Listening..." (set_chat false (messages st) (set_flags true false st)).

Definition onclose (st : State) : State := set_flags false false st.

Definition onerror (err : exn) (st : State) : State :=
  set_chat true
    (messages st ++ [mkMessage model ("Connection Error: " +:+ exn_message err) None;
                     mkMessage model SUPPORT_MSG None])
    (set_flags false false st).

(** The ['ended'] listener of a buffer source. *)
Definition onended (source : nat) (st : State) : State :=
  set_playback (sourcesRef st ∖ {[source]}) (nextStartTimeRef st) (sourceCounter st) st.

(** [decodeAudioData(data, ctx, 24000, 1)], as far as its result matters:
    the number of frames of the buffer.  [new Int16Array(data.buffer)] raises
    on an odd number of bytes, [createBuffer] on an empty buffer. *)
Definition decodeAudioData (data : list byte) : res nat :=
  if negb (length data mod 2 =? 0)%nat
  then Throw (Exn "RangeError" "byte length of Int16Array should be a multiple of 2")
  else
    let frameCount := (length data / 2)%nat in
    if (frameCount =? 0)%nat
    then Throw (Exn "NotSupportedError" "The number of frames provided (0) is less than or equal to the minimum bound (0).")
    else Ok frameCount.

(** The scheduling of one decoded buffer: it starts at the cursor, and the
    cursor moves on by its duration. *)
Definition scheduleBuffer (ctx : nat) (duration : T) (st : State) : State * list Effect :=
  let source := sourceCounter st in
  let start := nextStartTimeRef st in
  (set_playback ({[source]} ∪ sourcesRef st) (t_add start duration) (S source) st,
   [StartSource source ctx start duration]).

(** [nextStartTimeRef.current = Math.max(nextStartTimeRef.current, ctx.currentTime)] *)
Definition advanceCursor (now : T) (st : State) : State :=
  set_playback (sourcesRef st) (t_max (nextStartTimeRef st) now) (sourceCounter st) st.

(** The audio part of [onmessage], for audio data [base64Audio] and the
    output context [ctx], whose [currentTime] is [now].  The third component
    is the exception that ends the handler, if any. *)
Definition playAudio (now : T) (base64Audio : string) (ctx : nat) (st : State)
    : State * list Effect * option exn :=
  let st := advanceCursor now st in
  match audioBytes ← AudioCodec.decode base64Audio; decodeAudioData audioBytes with
  | Throw e => (st, [], Some e)
  | Ok frameCount =>
      let '(st, effs) := scheduleBuffer ctx (t_frames frameCount) st in
      (st, effs, None)
  end.

(** The audio part of [onmessage] for a message: reading the audio data may
    raise; data that is there is played when an output context is. *)
Definition playMessage (now : T) (message : LiveServerMessage) (st : State)
    : State * list Effect * option exn :=
  match inlineData message with
  | Throw e => (st, [], Some e)
  | Ok base64Audio =>
      match base64Audio, audioContextRef st with
      | Some base64Audio, Some ctx =>
          if truthy (Some base64Audio) then playAudio now base64Audio ctx st
          else (st, [], None)
      | _, _ => (st, [], None)
      end
  end.

(** *** Tool dispatch

    The props [onUpdateForm] and [onSubmitForm] are optional callbacks of the
    owner of the form; [W] is the owner's state. *)
Context {W : Type}.
Variable onUpdateForm : option (option obj -> W -> res W).
Variable onSubmitForm : option (W -> res W).

Definition nextFieldResult (next : string) : obj :=
  {[ "result" := "Form updated. Next missing field is " +:+ dquote +:+ next
                 +:+ dquote +:+ "." ]}.

(** The body of the loop over [message.toolCall.functionCalls]: the
    callback, then the response that is sent for the call. *)
Definition handleFunctionCall (fc : FunctionCall) (st : State) (w : W)
    : res (State * W * Effect) :=
  let respond (responseResult : obj) :=
    SendToolResponse (mkFunctionResponse (fc_id fc) (fc_name fc) responseResult) in
  if bool_decide (fc_name fc = Some "update_school_data") then
    match onUpdateForm with
    | Some update =>
        w' ← update (fc_args fc) w;
        let updated := default ∅ (fc_args fc) ∪ default ∅ (currentDataRef st) in
        let next := getNextMissingField (Some updated) in
        Ok (set_caption "" st, w', respond (nextFieldResult next))
    | None => Ok (st, w, respond ∅)
    end
  else if bool_decide (fc_name fc = Some "submit_report") then
    match onSubmitForm with
    | Some submit =>
        w' ← submit w;
        Ok (st, w', respond {[ "result" := "Submission triggered." ]})
    | None => Ok (st, w, respond ∅)
    end
  else Ok (st, w, respond ∅).

(** The loop; an exception ends it, what was done before stays done. *)
Fixpoint dispatchToolCalls (calls : list FunctionCall) (st : State) (w : W)
    : State * W * list Effect * option exn :=
  match calls with
  | [] => (st, w, [], None)
  | fc :: rest =>
      match handleFunctionCall fc st w with
      | Throw e => (st, w, [], Some e)
      | Ok (st, w, eff) =>
          let '(st, w, effs, thrown) := dispatchToolCalls rest st w in
          (st, w, eff :: effs, thrown)
      end
  end.

(** The caption update of [onmessage]. *)
Definition appendCaption (transcription : option string) (prev : string) : string :=
  let text := default "" transcription in
  (if (100 <? String.length prev)%nat then "..." else prev) +:+ text.

(** [onmessage], the steps of the [async] handler taken together; [now] is
    the [currentTime] of the output context. *)
Definition onmessage (now : T) (message : LiveServerMessage) (st : State) (w : W)
    : State * W * list Effect * option exn :=
  let st :=
    match outputTranscription message with
    | Some transcription => set_caption (appendCaption transcription (liveCaption st)) st
    | None => st
    end in
  let '(st, played, thrown) := playMessage now message st in
  match thrown, toolCall message with
  | Some e, _ => (st, w, played, Some e)
  | None, Some calls =>
      let '(st, w, sent, thrown) := dispatchToolCalls calls st w in
      (st, w, played ++ sent, thrown)
  | None, None => (st, w, played, None)
  end.

(** The messages of a session in their order of arrival, each with the
    [currentTime] of the output context at its arrival.  A handler that
    raises rejects its own promise only; the next message is handled all
    the same. *)
Fixpoint runMessages (arrivals : list (T * LiveServerMessage)) (st : State) (w : W)
    : State * W * list Effect :=
  match arrivals with
  | [] => (st, w, [])
  | (now, message) :: rest =>
      let '(st, w, effs, _) := onmessage now message st w in
      let '(st, w, later) := runMessages rest st w in
      (st, w, effs ++ later)
  end.

(** *** What the user sees *)

Inductive ButtonFace : Type :=
| VoiceActive (caption : string)
| Spinner
| CloseIcon
| ChatIcon.

Record View : Type := mkView {
  v_windowOpen : bool;
  v_messages : list Message;
  v_micDisabled : bool;
  v_button : ButtonFace;
}.

(** The rendered component, as far as it depends on [State]. *)
Definition render (st : State) : View :=
  mkView (isOpen st) (messages st) (isConnecting st)
    (if isLiveConnected st
     then VoiceActive (if truthy (Some (liveCaption st)) then liveCaption st
                       else "Listening...")
     else if isConnecting st then Spinner
     else if isOpen st then CloseIcon
     else ChatIcon).

(** *** Platform resources *)

(** The streams whose tracks run, and the audio contexts and sessions that
    are not closed. *)
Record World : Type := mkWorld {
  live_streams : gset nat;
  open_contexts : gset nat;
  open_sessions : gset nat;
}.

Definition apply_effect (w : World) (e : Effect) : World :=
  match e with
  | GetUserMedia m => mkWorld ({[m]} ∪ live_streams w) (open_contexts w) (open_sessions w)
  | NewAudioContext c => mkWorld (live_streams w) ({[c]} ∪ open_contexts w) (open_sessions w)
  | Connect s => mkWorld (live_streams w) (open_contexts w) ({[s]} ∪ open_sessions w)
  | StopTracks m => mkWorld (live_streams w ∖ {[m]}) (open_contexts w) (open_sessions w)
  | CloseContext c => mkWorld (live_streams w) (open_contexts w ∖ {[c]}) (open_sessions w)
  | CloseSession s => mkWorld (live_streams w) (open_contexts w) (open_sessions w ∖ {[s]})
  | StartSource _ _ _ _ | SendToolResponse _ => w
  end.

Definition run_effects (w : World) (effs : list Effect) : World :=
  fold_left apply_effect effs w.

(** The resources that the handles of a state name. *)
Definition held (st : State) : World :=
  let named (ref : option nat) : gset nat :=
    match ref with Some h => {[h]} | None => ∅ end in
  mkWorld (named (mediaStreamRef st))
          (named (audioContextRef st) ∪ named (inputAudioContextRef st))
          (named (sessionRef st)).

(** The playback schedule of a trace: start time and duration of each
    buffer source, in the order of the [start] calls. *)
Definition schedule (effs : list Effect) : list (T * T) :=
  omap (fun e => match e with
                 | StartSource _ _ start duration => Some (start, duration)
                 | _ => None
                 end) effs.

(** Consecutive chunks neither go back in time nor overlap. *)
Fixpoint chained (chunks : list (T * T)) : Prop :=
  match chunks with
  | (start1, duration1) :: (((start2, _) :: _) as rest) =>
      t_le start1 start2 /\ t_le (t_add start1 duration1) start2 /\ chained rest
  | _ => True
  end.

(** A schedule that starts no earlier than the cursor [c] and whose chunks
    follow one another. *)
Fixpoint chained_from (c : T) (chunks : list (T * T)) : Prop :=
  match chunks with
  | [] => True
  | (start, duration) :: rest =>
      t_le c start /\ t_le t_zero duration /\ chained_from (t_add start duration) rest
  end.

(** The schedule in the specification's words, for chunks given by the
    current time at their arrival and their duration: each chunk starts at
    the maximum of the cursor and the current time, and the cursor is then
    advanced by its duration. *)
Fixpoint scheduled_from (cursor : T) (chunks : list (T * T)) : list (T * T) :=
  match chunks with
  | [] => []
  | (now, duration) :: rest =>
      let start := t_max cursor now in
      (start, duration) :: scheduled_from (t_add start duration) rest
  end.

(** The cursor after these chunks. *)
Fixpoint cursor_after (cursor : T) (chunks : list (T * T)) : T :=
  match chunks with
  | [] => cursor
  | (now, duration) :: rest => cursor_after (t_add (t_max cursor now) duration) rest
  end.

(** A step from [st] to [st'] with the trace [effs] extends schedules: what
    is chained from the cursor of [st'] is, after the chunks of [effs],
    chained from the cursor of [st]. *)
Definition extends (st st' : State) (effs : list Effect) : Prop :=
  forall rest, chained_from (nextStartTimeRef st') rest ->
               chained_from (nextStartTimeRef st) (schedule effs ++ rest).

(** The responses of a trace, in the order they are sent. *)
Definition responses (effs : list Effect) : list FunctionResponse :=
  omap (fun e => match e with
                 | SendToolResponse r => Some r
                 | _ => None
                 end) effs.


(** The release calls, the only calls of a teardown. *)
Definition is_release (e : Effect) : Prop :=
  match e with
  | StopTracks _ | CloseSession _ | CloseContext _ => True
  | _ => False
  end.

(** The teardown that the specification describes: the microphone stream
    and the audio contexts of [before] are released by the calls [effs], and
    in [after] the playback cursor is zero and no source is pending. *)
Definition torn_down (before after : State) (effs : list Effect) : Prop :=
  live_streams (run_effects (held before) effs) = ∅ /\
  open_contexts (run_effects (held before) effs) = ∅ /\
  nextStartTimeRef after = t_zero /\
  sourcesRef after = ∅.

(** No live session: no handle is set, and the component is neither
    connected nor connecting. *)
Definition idle (st : State) : Prop :=
  mediaStreamRef st = None /\ sessionRef st = None /\
  audioContextRef st = None /\ inputAudioContextRef st = None /\
  isLiveConnected st = false /\ isConnecting st = false.

End Component.
End ChatBot.

(** ** Remote submission endpoint (services/api.ts) *)

Module Api.

(** A value that [JSON.parse] returns.  Numbers stand as integers: the code
    only tests them for truthiness. *)
Inductive json : Type :=
| JNull
| JBool (b : bool)
| JNum (n : Z)
| JStr (s : string)
| JArr (items : list json)
| JObj (fields : gmap string json).

(** Truthiness of a value or of [undefined] ([None]). *)
Definition json_truthy (v : option json) : bool :=
  match v with
  | None | Some JNull => false
  | Some (JBool b) => b
  | Some (JNum n) => negb (n =? 0)%Z
  | Some (JStr s) => negb (String.eqb s "")
  | Some (JArr _) | Some (JObj _) => true
  end.

(** [value.name], for a property name that no string, number, boolean or
    array has of its own: reading it from [null] raises. *)
Definition get_prop (value : json) (name : string) : res (option json) :=
  match value with
  | JNull => Throw (TypeError ("Cannot read properties of null (reading '" +:+ name +:+ "')"))
  | JObj fields => Ok (fields !! name)
  | _ => Ok None
  end.

Definition is_JStr (s : string) (v : json) : bool :=
  match v with
  | JStr s' => String.eqb s' s
  | _ => false
  end.

(** [value.includes(needle)] for a truthy [value] taken from parsed JSON: a
    string searches for a substring, an array for an element; nothing else
    has a callable [includes] (an object's own one would be data). *)
Definition call_includes (value : json) (needle : string) : res bool :=
  match value with
  | JStr s => Ok (includes s needle)
  | JArr items => Ok (existsb (is_JStr needle) items)
  | _ => Throw (TypeError "result.message.includes is not a function")
  end.

(** [result.message = text]; [result] is an object where this is reached. *)
Definition set_message (result : json) (text : string) : json :=
  match result with
  | JObj fields => JObj (<["message" := JStr text]> fields)
  | _ => result
  end.

(** The object literal [{ success: false, message }]. *)
Definition failure (message : string) : json :=
  JObj {[ "success" := JBool false; "message" := JStr message ]}.

Definition DEFAULT_URL : string :=
  "https://script.google.com/macros/s/AKfycbyo-AS6mAz8IYskz_hYowdu8JhmOl8OPACz3r6p5FoNqekYZI1018sqnQ8ktnINpmF_Ew/exec".

(** [process.env.SHEET_API_URL || '<the web app URL>'] *)
Definition API_URL (SHEET_API_URL : option string) : string :=
  if truthy SHEET_API_URL then default "" SHEET_API_URL else DEFAULT_URL.

(** The condition of the simulation mode. *)
Definition simulation (url : string) : bool :=
  negb (truthy (Some url)) || includes url "YOUR_GOOGLE_APPS_SCRIPT" || String.eqb url "".

(** A [Response]: the status, and what [response.text()] resolves or rejects
    with.  [response.ok] is true for the statuses 200 to 299. *)
Record Response : Type := mkResponse {
  status : N;
  body : res string;
}.

Definition ok (r : Response) : bool := (200 <=? status r)%N && (status r <=? 299)%N.

Definition INVALID_RESPONSE : string :=
  "Submission failed. The server returned an invalid response. Ensure your Google Script permissions are set to 'Anyone' can access.".

Section Submit.
(** [JSON.parse], a function of the platform: the value, or a [SyntaxError]. *)
Variable JSON_parse : string -> res json.

(** The inner [try] block: parse, and reword one known backend error. *)
Definition parseResult (text : string) : res json :=
  result ← JSON_parse text;
  success ← get_prop result "success";
  reword ←
    (if negb (json_truthy success) then
       message ← get_prop result "message";
       if json_truthy message then
         match message with
         | Some m => call_includes m "reading 'getRange'"
         | None => Ok false
         end
       else Ok false
     else Ok false);
  if (reword : bool)
  then Ok (set_message result
             "Backend Error: The script could not find the sheet tab named 'Sheet1'. Please rename your sheet tab to 'Sheet1'.")
  else Ok result.

(** [submitSchoolData], for the configured URL, the random number of the
    simulated row and the outcome of [fetch]: a response, or a rejection
    (a network failure, or [AbortError] after the timeout). *)
Definition submitSchoolData (url : string) (random : N) (fetched : res Response)
    : res json :=
  if simulation url then
    Ok (JObj {[ "success" := JBool true;
                "message" := JStr "Simulation Success: API URL was not configured. Please see README.md to setup Google Sheets.";
                "rowId" := JStr ("SIM-" +:+ pretty random) ]})
  else
    try_catch
      (response ← fetched;
       if negb (ok response)
       then Ok (failure ("Server returned error status: " +:+ pretty (status response)))
       else
         text ← body response;
         try_catch (parseResult text) (fun _ => Ok (failure INVALID_RESPONSE)))
      (fun error =>
         if String.eqb (exn_name error) "AbortError"
         then Ok (failure "Request timed out. File uploads might be taking too long.")
         else Ok (failure "Network error. Please check your internet connection.")).

End Submit.

(** A fragment of [JSON.parse], enough for examples: the literal [null] and
    the empty object; any other text is refused. *)
Definition parse_literal (text : string) : res json :=
  if String.eqb text "null" then Ok JNull
  else if String.eqb text "{}" then Ok (JObj ∅)
  else Throw (Exn "SyntaxError" "Unexpected token").

End Api.

(** ** The events of the chat component (ChatBot.tsx) *)

Module Lifecycle.
Import ChatBot.

Section Run.
Context {T : Type} `{Clock T} {W : Type}.
Variable onUpdateForm : option (option obj -> W -> res W).
Variable onSubmitForm : option (W -> res W).
Variable raises : Effect (T:=T) -> bool.

(** What can happen to the component: the two buttons, the callbacks of the
    session, the end of a buffer source, and a render of the owner with a new
    [currentData]. *)
Inductive Event : Type :=
| ClickMicrophone (env : StartEnv)      (* [onClick={startLiveSession}] *)
| ClickMainButton                       (* the round button *)
| ClickCloseWindow                      (* [onClick={() => setIsOpen(false)}] *)
| SessionOpened                         (* [onopen] *)
| SessionMessage (now : T) (message : LiveServerMessage)   (* [onmessage] *)
| SessionClosed                         (* [onclose] *)
| SessionError (err : exn)              (* [onerror] *)
| SourceEnded (source : nat)            (* ['ended'] *)
| OwnerRendered (currentData : option obj).

(** The [onClick] of the round button:
    [isLiveConnected ? disconnectLiveSession
     : (isConnecting ? undefined : () => setIsOpen(!isOpen))]. *)
Definition clickMainButton (st : State) : State * list Effect :=
  if isLiveConnected st then disconnectLiveSession raises st
  else if isConnecting st then (st, [])
  else (set_chat (negb (isOpen st)) (messages st) st, []).

Definition step (e : Event) (st : State) (w : W) : State * W * list Effect :=
  match e with
  | ClickMicrophone env =>
      let '(st, effs) := startLiveSession raises env st in (st, w, effs)
  | ClickMainButton =>
      let '(st, effs) := clickMainButton st in (st, w, effs)
  | ClickCloseWindow => (set_chat false (messages st) st, w, [])
  | SessionOpened => (onopen st, w, [])
  | SessionMessage now message =>
      let '(st, w, effs, _) := onmessage onUpdateForm onSubmitForm now message st w in
      (st, w, effs)
  | SessionClosed => (onclose st, w, [])
  | SessionError err => (onerror err st, w, [])
  | SourceEnded source => (onended source st, w, [])
  | OwnerRendered currentData => (syncCurrentData currentData st, w, [])
  end.

Fixpoint run (events : list Event) (st : State) (w : W) : State * W * list Effect :=
  match events with
  | [] => (st, w, [])
  | e :: rest =>
      let '(st, w, effs) := step e st w in
      let '(st, w, later) := run rest st w in
      (st, w, effs ++ later)
  end.

(** Not connected and connecting at once. *)
Definition flags_exclusive (st : State (T:=T)) : Prop :=
  ~ (isLiveConnected st = true /\ isConnecting st = true).

End Run.

(** The response that the loop of [onmessage] sends for the call [fc] when
    both callbacks are there and return, for the record [snapshot] that
    [currentDataRef] holds. *)
Definition replyTo (snapshot : option obj) (fc : FunctionCall) : FunctionResponse :=
  mkFunctionResponse (fc_id fc) (fc_name fc)
    (if bool_decide (fc_name fc = Some "update_school_data") then
       nextFieldResult
         (FieldOrder.getNextMissingField
            (Some (default ∅ (fc_args fc) ∪ default ∅ snapshot)))
     else if bool_decide (fc_name fc = Some "submit_report") then
       {[ "result" := "Submission triggered." ]}
     else ∅).

End Lifecycle.

(** ** Strings and regular expressions of JavaScript

    In the validation code a [string] stands for a JavaScript string whose
    code units are below 256, one character for each code unit. *)

Module JsString.

(** White space and line terminators with a code unit below 256: TAB, LF,
    VT, FF, CR, SPACE and NO-BREAK SPACE.  This is what [trim] strips and
    what [\s] matches. *)
Definition is_space (c : ascii) : bool :=
  let n := nat_of_ascii c in
  (n =? 9)%nat || (n =? 10)%nat || (n =? 11)%nat || (n =? 12)%nat ||
  (n =? 13)%nat || (n =? 32)%nat || (n =? 160)%nat.

(** [\d]: the digits 0 to 9. *)
Definition is_digit (c : ascii) : bool :=
  let n := nat_of_ascii c in (48 <=? n)%nat && (n <=? 57)%nat.

Fixpoint drop_spaces (l : list ascii) : list ascii :=
  match l with
  | c :: rest => if is_space c then drop_spaces rest else l
  | [] => []
  end.

(** [value.trim()] *)
Definition trim (value : string) : string :=
  string_of_list_ascii
    (rev (drop_spaces (rev (drop_spaces (list_ascii_of_string value))))).

(** [value.replace(/\D/g, '')] *)
Definition digits_of (value : string) : string :=
  string_of_list_ascii (List.filter is_digit (list_ascii_of_string value)).

(** Regular expressions without flags, as far as the code uses them:
    character classes, sequence, choice and repetition. *)
Inductive regex : Type :=
| Never
| Empty
| Class (p : ascii -> bool)
| Seq (r1 r2 : regex)
| Alt (r1 r2 : regex)
| Star (r : regex).

(** [r+] *)
Definition Plus (r : regex) : regex := Seq r (Star r).

(** [r{n}] *)
Fixpoint Times (n : nat) (r : regex) : regex :=
  match n with
  | 0 => Empty
  | S n => Seq r (Times n r)
  end.

Fixpoint nullable (r : regex) : bool :=
  match r with
  | Never => false
  | Empty => true
  | Class _ => false
  | Seq r1 r2 => nullable r1 && nullable r2
  | Alt r1 r2 => nullable r1 || nullable r2
  | Star _ => true
  end.

(** What is left of [r] after the character [c]. *)
Fixpoint derive (c : ascii) (r : regex) : regex :=
  match r with
  | Never | Empty => Never
  | Class p => if p c then Empty else Never
  | Seq r1 r2 =>
      if nullable r1 then Alt (Seq (derive c r1) r2) (derive c r2)
      else Seq (derive c r1) r2
  | Alt r1 r2 => Alt (derive c r1) (derive c r2)
  | Star r1 => Seq (derive c r1) (Star r1)
  end.

Definition derive_all (r : regex) (l : list ascii) : regex :=
  fold_left (fun r c => derive c r) l r.

(** [/^r$/.test(value)]: the whole of [value] matches [r]. *)
Definition test (r : regex) (value : string) : bool :=
  nullable (derive_all r (list_ascii_of_string value)).

(** The words of a regular expression. *)
Inductive matches : regex -> list ascii -> Prop :=
| matches_Empty : matches Empty []
| matches_Class p c : p c = true -> matches (Class p) [c]
| matches_Seq r1 r2 l1 l2 : matches r1 l1 -> matches r2 l2 -> matches (Seq r1 r2) (l1 ++ l2)
| matches_Alt_l r1 r2 l : matches r1 l -> matches (Alt r1 r2) l
| matches_Alt_r r1 r2 l : matches r2 l -> matches (Alt r1 r2) l
| matches_Star_nil r : matches (Star r) []
| matches_Star_app r l1 l2 :
    matches r l1 -> matches (Star r) l2 -> matches (Star r) (l1 ++ l2).

End JsString.

(** ** Validation and submission (SchoolForm.tsx) *)

Module Validation.
Import JsString.

Definition requiredFields : list string :=
  [ "schoolName"; "udiseCode"; "block"; "district"; "level";
    "principalName"; "societyTrustName"; "phone"; "email" ].

(** [/^\d{10}$/] *)
Definition PHONE : regex := Times 10 (Class is_digit).

(** [[^\s@]] *)
Definition not_space_or_at (c : ascii) : bool :=
  negb (is_space c || Ascii.eqb c "@").

(** [/^[^\s@]+@[^\s@]+\.[^\s@]+$/] *)
Definition EMAIL : regex :=
  Seq (Plus (Class not_space_or_at))
    (Seq (Class (Ascii.eqb "@"))
       (Seq (Plus (Class not_space_or_at))
          (Seq (Class (Ascii.eqb "."))
             (Plus (Class not_space_or_at))))).

(** [validateField(name, value)], with the [formData] it reads the level
    from; [None] is [undefined]. *)
Definition validateField (formData : obj) (name value : string) : option string :=
  if bool_decide (name ∈ requiredFields) && negb (truthy (Some (trim value)))
  then Some "This field is required."
  else if bool_decide (name = "phone") && negb (test PHONE (digits_of value))
  then Some "Please enter a valid 10-digit phone number."
  else if bool_decide (name = "email") && negb (test EMAIL value)
  then Some "Please enter a valid email address."
  else if bool_decide (name = "udiseCode") && (String.length value <? 5)%nat
  then Some "UDISE Code seems too short."
  else if bool_decide (name = "schoolPicture") && negb (truthy (Some value))
  then Some "School picture is required."
  else if bool_decide (name = "principalPicture") && negb (truthy (Some value))
  then Some "Principal picture is required."
  else if bool_decide (name = "registrationCertificatePrimary") && negb (truthy (Some value))
  then Some "Primary Registration Certificate (PDF) is required."
  else if bool_decide (name = "registrationCertificateUpper")
          && bool_decide (formData !! "level" = Some "Upper Primary (1-8)")
          && negb (truthy (Some value))
  then Some "Upper Primary Registration Certificate (PDF) is required for this level."
  else None.

(** The loop of [handleSubmit] over [Object.keys(formData)]: the errors it
    collects in [newErrors].  The upper-primary certificate is skipped unless
    the level is "Upper Primary (1-8)". *)
Definition validateForm (formData : obj) : obj :=
  map_imap
    (fun key val =>
       if bool_decide (key = "registrationCertificateUpper")
          && negb (bool_decide (formData !! "level" = Some "Upper Primary (1-8)"))
       then None
       else
         let val := if truthy (Some val) then val else "" in
         match validateField formData key val with
         | Some error => if truthy (Some error) then Some error else None
         | None => None
         end)
    formData.

(** The [errors] state: what the form has computed, or what
    [setErrors(response.errors as any)] has stored. *)
Inductive Errors : Type :=
| ClientErrors (errors : obj)
| ServerErrors (errors : Api.json).

(** The state of the form component that [handleSubmit] reads and writes. *)
Record Page : Type := mkPage {
  formData : obj;
  errors : Errors;
  lastSubmittedData : option obj;
  isSubmitting : bool;
  submitResult : option Api.json;
}.

Section Submit.
Variable JSON_parse : string -> res Api.json.

(** What the [try] block of [handleSubmit] does with the form data and the
    errors, once the response is there. *)
Definition afterResponse (response : Api.json) (page : Page) : res Page :=
  success ← Api.get_prop response "success";
  if Api.json_truthy success then
    Ok (mkPage SchoolForm.INITIAL_DATA (errors page) (Some (formData page))
               (isSubmitting page) (Some response))
  else
    serverErrors ← Api.get_prop response "errors";
    match serverErrors with
    | Some e =>
        if Api.json_truthy (Some e)
        then Ok (mkPage (formData page) (ServerErrors e) (lastSubmittedData page)
                        (isSubmitting page) (Some response))
        else Ok (mkPage (formData page) (errors page) (lastSubmittedData page)
                        (isSubmitting page) (Some response))
    | None => Ok (mkPage (formData page) (errors page) (lastSubmittedData page)
                         (isSubmitting page) (Some response))
    end.

(** [handleSubmit], the steps of the [async] body taken together, for the
    configured URL, the random number of the simulated row and the outcome of
    [fetch].  The second component is the data that [submitSchoolData] was
    called with, if it was called. *)
Definition handleSubmit (url : string) (random : N) (fetched : res Api.Response)
    (page : Page) : Page * option obj :=
  let page := mkPage (formData page) (errors page) None (isSubmitting page) None in
  let newErrors := validateForm (formData page) in
  if negb (bool_decide (newErrors = ∅)) then
    (mkPage (formData page) (ClientErrors newErrors) None (isSubmitting page) None, None)
  else
    let dataToSubmit := formData page in
    let unexpected :=
      mkPage (formData page) (errors page) None false
        (Some (Api.failure "An unexpected error occurred during submission.")) in
    match response ← Api.submitSchoolData JSON_parse url random fetched;
          afterResponse response page with
    | Ok page =>
        (mkPage (formData page) (errors page) (lastSubmittedData page) false
                (submitResult page), Some dataToSubmit)
    | Throw _ => (unexpected, Some dataToSubmit)
    end.

End Submit.
End Validation.

(** ** The text chat (ChatBot.tsx)

    [handleSendMessage]: the state it reads and writes, the calls of the
    owner's callbacks and the messages it appends.  The request that is sent
    to the model is left out; its outcome is given. *)

Module Chat.
Import ChatBot.

(** [text] without [pattern] at its start, if it starts with it. *)
Fixpoint strip_prefix (pattern text : string) {struct pattern} : option string :=
  match pattern, text with
  | EmptyString, _ => Some text
  | String p pattern, String c text =>
      if Ascii.eqb p c then strip_prefix pattern text else None
  | String _ _, EmptyString => None
  end.

(** [text.replace(pattern, replacement)] for a string [pattern] and a
    [replacement] without [$]: the first occurrence is replaced. *)
Fixpoint replace (text pattern replacement : string) : string :=
  match strip_prefix pattern text with
  | Some rest => replacement +:+ rest
  | None =>
      match text with
      | EmptyString => EmptyString
      | String c text => String c (replace text pattern replacement)
      end
  end.

(** [items.join(separator)] *)
Fixpoint join (separator : string) (items : list string) : string :=
  match items with
  | [] => ""
  | [item] => item
  | item :: rest => item +:+ separator +:+ join separator rest
  end.

(** The state of the component that the text chat uses. *)
Record ChatState : Type := mkChatState {
  inputValue : string;
  selectedImage : option string;
  isLoading : bool;
  messages : list Message;
}.

(** What is read of the response of [generateContent]. *)
Record GenerateContentResponse : Type := mkGenerateContentResponse {
  functionCalls : option (list FunctionCall);
  text : option string;
}.

(** Whether [process.env.API_KEY] is set, and the outcome of the request:
    the response, or what [generateContent] (or the constructor of the
    client) raised or rejected with. *)
Record SendEnv : Type := mkSendEnv {
  apiKey : bool;
  generated : res GenerateContentResponse;
}.

Section Send.
Context {W : Type}.
Variable onUpdateForm : option (option obj -> W -> res W).
Variable onSubmitForm : option (W -> res W).
(** [Object.keys(args)]: the keys of an object in its own order, which the
    finite map does not record. *)
Variable Object_keys : obj -> list string.

(** A state updater [prev => [...prev, message]] for the messages.  React
    runs it when it renders next, so what it raises is raised there; the
    messages to come are a result. *)
Definition append (message : res Message) (msgs : res (list Message))
    : res (list Message) :=
  prev ← msgs; message ← message; Ok (prev ++ [message]).

(** The message of an update: [Object.keys] raises on arguments that are
    [undefined], inside the updater. *)
Definition updateNote (args : option obj) : res Message :=
  match args with
  | None => Throw (TypeError "Cannot convert undefined or null to object")
  | Some args =>
      Ok (mkMessage model ("Updated fields: " +:+ join ", " (Object_keys args)) None)
  end.

(** The body of the loop over [response.functionCalls].  The third
    component is the exception that a callback raised, if any; it ends the
    loop. *)
Definition handleToolCall (fc : FunctionCall) (msgs : res (list Message)) (w : W)
    : res (list Message) * W * option exn :=
  if bool_decide (fc_name fc = Some "update_school_data") then
    match onUpdateForm with
    | Some update =>
        match update (fc_args fc) w with
        | Throw e => (msgs, w, Some e)
        | Ok w => (append (updateNote (fc_args fc)) msgs, w, None)
        end
    | None => (msgs, w, None)
    end
  else if bool_decide (fc_name fc = Some "submit_report") then
    match onSubmitForm with
    | Some submit =>
        match submit w with
        | Throw e => (msgs, w, Some e)
        | Ok w => (append (Ok (mkMessage model "Submitting report..." None)) msgs, w, None)
        end
    | None => (msgs, w, None)
    end
  else (msgs, w, None).

Fixpoint runToolCalls (calls : list FunctionCall) (msgs : res (list Message)) (w : W)
    : res (list Message) * W * option exn :=
  match calls with
  | [] => (msgs, w, None)
  | fc :: rest =>
      match handleToolCall fc msgs w with
      | (msgs, w, Some e) => (msgs, w, Some e)
      | (msgs, w, None) => runToolCalls rest msgs w
      end
  end.

(** The messages for the text of the response. *)
Definition replyMessages (responseText : option string) : list Message :=
  let text := if truthy responseText then default "" responseText else "Processed." in
  let hasSupportTag := includes text "[CONTACT_SUPPORT]" in
  let text := JsString.trim (replace text "[CONTACT_SUPPORT]" "") in
  mkMessage model text None
  :: (if hasSupportTag then [mkMessage model SUPPORT_MSG None] else []).

(** The messages of the [catch] block. *)
Definition errorMessages (error : exn) : list Message :=
  let errorMsg :=
    if truthy (Some (exn_message error)) && includes (exn_message error) "API Key"
    then "API Key Error." else "Connection error." in
  [mkMessage model errorMsg None; mkMessage model SUPPORT_MSG None].

(** How a send ends: the component renders its new state, or an updater
    raises while React renders. *)
Inductive SendResult : Type :=
| Rendered (st : ChatState)
| RenderError (e : exn).

(** [handleSendMessage], the steps of the [async] body taken together, with
    the render that follows them. *)
Definition handleSendMessage (env : SendEnv) (st : ChatState) (w : W)
    : SendResult * W :=
  if (negb (truthy (Some (JsString.trim (inputValue st))))
      && negb (truthy (selectedImage st)))
     || isLoading st
  then (Rendered st, w)
  else
    let userMessageText := JsString.trim (inputValue st) in
    let userImage := selectedImage st in
    let msgs :=
      Ok (messages st
          ++ [mkMessage user userMessageText
                (if truthy userImage then userImage else None)]) in
    let '(msgs, w, thrown) :=
      if negb (apiKey env) then (msgs, w, Some (Exn "Error" "API Key is missing."))
      else
        match generated env with
        | Throw e => (msgs, w, Some e)
        | Ok response =>
            let '(msgs, w, thrown) :=
              runToolCalls (default [] (functionCalls response)) msgs w in
            match thrown with
            | Some e => (msgs, w, Some e)
            | None =>
                (prev ← msgs; Ok (prev ++ replyMessages (text response)), w, None)
            end
        end in
    let msgs :=
      match thrown with
      | Some e => prev ← msgs; Ok (prev ++ errorMessages e)
      | None => msgs
      end in
    match msgs with
    | Ok msgs => (Rendered (mkChatState "" None false msgs), w)
    | Throw e => (RenderError e, w)
    end.

End Send.
End Chat.

(** ** The receipt (SchoolForm.tsx, types.ts)

    [downloadReceipt]: the name and the text of the file that is offered for
    download.  The time of the download is given as the text that
    [new Date().toLocaleString()] returns. *)

Module Receipt.

Definition SHEET_HEADERS : list string :=
  [ "Timestamp"; "School Name"; "UDISE Code"; "Block"; "District"; "Level";
    "Principal Name"; "Name of Society/Trust"; "Phone"; "Email";
    "School Picture"; "Principal Picture"; "Registration Certificate Primary";
    "Registration Certificate Upper Primary" ].

(** The double-quote character. *)
Definition quote : ascii := ascii_of_nat 34.

(** [val.replace] with the global pattern of the double quote: every double
    quote is written twice. *)
Fixpoint escapeQuotes (val : string) : string :=
  match val with
  | EmptyString => EmptyString
  | String c rest =>
      if Ascii.eqb c quote then String quote (String quote (escapeQuotes rest))
      else String c (escapeQuotes rest)
  end.

(** The [switch] over the header: the value of the column, [None] where the
    record has no such field ([undefined]).  The attachments are shown by a
    mark only. *)
Definition columnValue (data : obj) (header : string) : option string :=
  if String.eqb header "School Name" then data !! "schoolName"
  else if String.eqb header "UDISE Code" then data !! "udiseCode"
  else if String.eqb header "Block" then data !! "block"
  else if String.eqb header "District" then data !! "district"
  else if String.eqb header "Level" then data !! "level"
  else if String.eqb header "Principal Name" then data !! "principalName"
  else if String.eqb header "Name of Society/Trust" then data !! "societyTrustName"
  else if String.eqb header "Phone" then data !! "phone"
  else if String.eqb header "Email" then data !! "email"
  else if String.eqb header "School Picture"
  then Some (if truthy (data !! "schoolPicture") then "[Image Data]" else "No")
  else if String.eqb header "Principal Picture"
  then Some (if truthy (data !! "principalPicture") then "[Image Data]" else "No")
  else if String.eqb header "Registration Certificate Primary"
  then Some (if truthy (data !! "registrationCertificatePrimary")
             then "[PDF Data]" else "No")
  else if String.eqb header "Registration Certificate Upper Primary"
  then Some (if truthy (data !! "registrationCertificateUpper")
             then "[PDF Data]" else "No")
  else Some "".

(** The callback of [SHEET_HEADERS.map]: one cell of the row.  [replace] of
    a value that is [undefined] raises. *)
Definition csvCell (now : string) (data : obj) (header : string) : res string :=
  if String.eqb header "Timestamp" then Ok (dquote +:+ now +:+ dquote)
  else
    match columnValue data header with
    | Some val => Ok (dquote +:+ escapeQuotes val +:+ dquote)
    | None => Throw (TypeError "Cannot read properties of undefined (reading 'replace')")
    end.

Fixpoint csvCells (now : string) (data : obj) (headers : list string)
    : res (list string) :=
  match headers with
  | [] => Ok []
  | header :: rest =>
      cell ← csvCell now data header;
      cells ← csvCells now data rest;
      Ok (cell :: cells)
  end.

Definition newline : string := String (ascii_of_nat 10) EmptyString.

Definition csvContent (now : string) (data : obj) : res string :=
  cells ← csvCells now data SHEET_HEADERS;
  Ok (Chat.join "," SHEET_HEADERS +:+ newline +:+ Chat.join "," cells).

(** The file that the link offers. *)
Record Download : Type := mkDownload {
  filename : string;
  content : string;
}.

(** [downloadReceipt]: nothing without a submitted record. *)
Definition downloadReceipt (now : string) (lastSubmittedData : option obj)
    : res (option Download) :=
  match lastSubmittedData with
  | None => Ok None
  | Some data =>
      csvContent ← csvContent now data;
      Ok (Some (mkDownload
                  ("school_registration_"
                   +:+ default "undefined" (data !! "udiseCode") +:+ ".csv")
                  csvContent))
  end.

End Receipt.

(** ** Audio samples (ChatBot.tsx)

    The two conversions between the samples of the Web Audio API and
    16-bit PCM: [createBlob] for the microphone, and the loop of
    [decodeAudioData] for the playback.  A finite element of a
    [Float32Array] is a rational number; its product with 32768 and the
    quotient of a 16-bit integer by 32768 are exact in floating point, so
    the arithmetic below is the arithmetic of the code.  The bytes of an
    [Int16Array] are taken in little-endian order, the order of the
    platforms that browsers run on. *)

Module Pcm.

(** An element of a [Float32Array]. *)
Inductive float : Type :=
| Finite (q : Q)
| NotFinite.   (* NaN, Infinity, -Infinity *)

(** [x * 32768] *)
Definition times32768 (x : float) : float :=
  match x with
  | Finite q => Finite (q * 32768)
  | NotFinite => NotFinite
  end.

(** The conversion of a number that is stored into an [Int16Array]
    (ToInt16): what is not finite gives 0; a finite number is truncated
    toward zero and taken modulo 65536 into the range from -32768 to
    32767. *)
Definition toInt16 (x : float) : Z :=
  match x with
  | NotFinite => 0
  | Finite q =>
      let int := Z.quot (Qnum q) (Z.pos (Qden q)) in
      let int16bit := (int mod 65536)%Z in
      if (32768 <=? int16bit)%Z then (int16bit - 65536)%Z else int16bit
  end.

Definition byte_of_Z (z : Z) : byte := default x00 (Byte.of_N (Z.to_N z)).

(** The two bytes of an element of an [Int16Array], as
    [new Uint8Array(int16.buffer)] shows them. *)
Definition int16Bytes (v : Z) : list byte :=
  let u := (v mod 65536)%Z in
  [byte_of_Z (u mod 256); byte_of_Z (u / 256)].

Record AudioData : Type := mkAudioData {
  data : string;
  mimeType : string;
}.

(** [createBlob] *)
Definition createBlob (samples : list float) : AudioData :=
  let int16 := map (fun x => toInt16 (times32768 x)) samples in
  mkAudioData (AudioCodec.encode (concat (map int16Bytes int16)))
              "audio/pcm;rate=16000".

(** [new Int16Array(data.buffer)], for an even number of bytes. *)
Fixpoint int16Array (bytes : list byte) : list Z :=
  match bytes with
  | lo :: hi :: rest =>
      let u := (Z.of_N (Byte.to_N lo) + 256 * Z.of_N (Byte.to_N hi))%Z in
      (if (32768 <=? u)%Z then u - 65536 else u)%Z :: int16Array rest
  | _ => []
  end.

(** The loop of [decodeAudioData] for one channel: the samples that it
    writes into the buffer, [dataInt16[i] / 32768.0]. *)
Definition channelData (bytes : list byte) : list float :=
  map (fun v => Finite (inject_Z v / 32768)) (int16Array bytes).

End Pcm.

(** ** Sample inputs *)

(** The record of the specification's scenario: every textual field but the
    level is filled, and the pictures and the primary certificate are
    uploaded. *)
Definition example_level_missing : obj :=
  list_to_map
    [ ("schoolName", "Khowai Model School"); ("udiseCode", "16010100101");
      ("block", "Khowai"); ("district", "Khowai"); ("level", "");
      ("principalName", "A. Debbarma"); ("societyTrustName", "Model Trust");
      ("phone", "9876543210"); ("email", "school@example.com");
      ("schoolPicture", "data:image/png;base64,AAAA");
      ("principalPicture", "data:image/png;base64,AAAA");
      ("registrationCertificatePrimary", "data:application/pdf;base64,AAAA");
      ("registrationCertificateUpper", "") ].

(** Three calls of one message to the form of SchoolForm.tsx: an update, a
    name that is no tool, and a submission. *)
Definition example_calls : list ChatBot.FunctionCall :=
  [ ChatBot.mkFunctionCall (Some "call-1") (Some "update_school_data")
      (Some {[ "schoolName" := "Khowai Model School" ]});
    ChatBot.mkFunctionCall (Some "call-2") (Some "delete_everything") (Some ∅);
    ChatBot.mkFunctionCall (Some "call-3") (Some "submit_report") (Some ∅) ].

(** A form whose upper-primary certificate is uploaded, and an update that
    lowers the level and names a certificate of its own. *)
Definition example_upper_form : SchoolForm.FormState :=
  SchoolForm.mkFormState
    (<["level" := "Upper Primary (1-8)"]>
       (<["registrationCertificateUpper" := "data:application/pdf;base64,JVBERi0="]>
          SchoolForm.INITIAL_DATA))
    ∅ 0.

Definition example_lowering : obj :=
  {[ "level" := "Primary (1-5)";
     "registrationCertificateUpper" := "data:application/pdf;base64,AAAA" ]}.

(** A tool-call message whose update names a field that [SchoolData] does
    not have. *)
Definition example_stray_message : ChatBot.LiveServerMessage :=
  ChatBot.mkLiveServerMessage None None
    (Some [ChatBot.mkFunctionCall (Some "call-1") (Some "update_school_data")
             (Some {[ "nickname" := "Sunny" ]})]).

(** An open session on integer time: stream 1, output context 2, input
    context 3, session 4; one chunk of two seconds is pending. *)
Definition example_open : ChatBot.State (T:=Z) :=
  ChatBot.mkState false [] true false "Listening..." (Some SchoolForm.INITIAL_DATA)
    (Some 2) (Some 3) (Some 1) {[0]} 48000%Z (Some 4) 1.

Definition example_env : ChatBot.StartEnv :=
  ChatBot.mkStartEnv true true None (Ok 5) (Ok 7) (Ok 6) (Ok 8).

Definition never_raises {T : Type} (e : ChatBot.Effect (T:=T)) : bool := false.

(** An idle state that a late transcript has left a caption in. *)
Definition example_idle : ChatBot.State (T:=Z) :=
  ChatBot.set_caption "Thank you" (ChatBot.initialState None).

(** An environment without an API key, and one where the user denies the
    microphone. *)
Definition example_env_no_key : ChatBot.StartEnv :=
  ChatBot.mkStartEnv false true None (Ok 5) (Ok 7) (Ok 6) (Ok 8).

(** An environment where the constructor of the output context raises. *)
Definition example_env_no_context : ChatBot.StartEnv :=
  ChatBot.mkStartEnv true true None (Ok 5) (Ok 7)
    (Throw (Exn "NotSupportedError" "The hardware is busy")) (Ok 8).

Definition example_env_denied : ChatBot.StartEnv :=
  ChatBot.mkStartEnv true true None (Throw (Exn "NotAllowedError" "Permission denied"))
    (Ok 7) (Ok 6) (Ok 8).

(** Two updates in one message: the second reply still asks for the school
    name that the first call has filled in. *)
Definition example_two_updates : list ChatBot.FunctionCall :=
  [ ChatBot.mkFunctionCall (Some "call-1") (Some "update_school_data")
      (Some {[ "schoolName" := "Khowai Model School" ]});
    ChatBot.mkFunctionCall (Some "call-2") (Some "update_school_data")
      (Some {[ "udiseCode" := "16010100101" ]}) ].

(** A record that passes validation: the scenario's record with the level
    chosen. *)
Definition example_complete : obj :=
  <["level" := "Primary (1-5)"]> example_level_missing.

(** A body that the server answers with, a [JSON.parse] that knows it, and
    the page of the form that holds the complete record. *)
Definition example_success_text : string :=
  "{" +:+ dquote +:+ "success" +:+ dquote +:+ ":true}".

Definition example_parse (text : string) : res Api.json :=
  if String.eqb text example_success_text
  then Ok (Api.JObj {[ "success" := Api.JBool true ]})
  else Api.parse_literal text.

Definition example_page : Validation.Page :=
  Validation.mkPage example_complete (Validation.ClientErrors ∅) None false None.

(** A send of the text chat: what the user typed, and a response with one
    update and a text that ends with the support tag. *)
Definition example_chat : Chat.ChatState :=
  Chat.mkChatState "  Our school is Khowai Model School " None false [].

Definition example_send_env : Chat.SendEnv :=
  Chat.mkSendEnv true
    (Ok (Chat.mkGenerateContentResponse
           (Some [ChatBot.mkFunctionCall None (Some "update_school_data")
                    (Some {[ "schoolName" := "Khowai Model School" ]})])
           (Some "Noted. [CONTACT_SUPPORT]"))).

(** The keys of an object of one key. *)
Definition example_keys (args : obj) : list string := (map_to_list args).*1.

(** The complete record with another school picture. *)
Definition example_other_picture : obj :=
  <["schoolPicture" := "data:image/png;base64,BBBB"]> example_complete.

(** * Properties *)

(** ** SharedFormState: the next missing field *)

Section FieldOrderFacts.
Import FieldOrder.

Lemma truthy_false_iff (v : option string) :
  truthy v = false <-> v = None \/ v = Some "".
Proof.
  destruct v as [s|]; cbn; [|by split; auto].
  destruct (String.eqb s "") eqn:E; cbn.
  - apply String.eqb_eq in E. subst s. split; auto.
  - apply String.eqb_neq in E. split; [done|]. intros [?|?]; congruence.
Qed.

Lemma is_empty_truthy (data : obj) (f : field) :
  is_empty data f <-> truthy (data !! key f) = false.
Proof. symmetry. apply truthy_false_iff. Qed.

(** The loop finds the first empty field of its list, if there is one. *)
Lemma first_missing_Some (data : obj) (fields : list field) (l : string) :
  first_missing data fields = Some l ->
  exists f, first_empty data fields f /\ label f = l.
Proof.
  induction fields as [|g fields IH]; cbn; [done|].
  destruct (truthy (data !! key g)) eqn:Hg; cbn.
  - intros Hl. destruct (IH Hl) as (f & (before & after & -> & Hb & Hf) & <-).
    exists f. split; [|done]. exists (g :: before), after.
    split; [done|]. split; [|done]. constructor; [|done].
    rewrite is_empty_truthy. congruence.
  - intros [= <-]. exists g. split; [|done]. exists [], fields.
    split; [done|]. split; [constructor|]. by apply is_empty_truthy.
Qed.

Lemma first_missing_None (data : obj) (fields : list field) :
  first_missing data fields = None ->
  Forall (fun g => ~ is_empty data g) fields.
Proof.
  induction fields as [|g fields IH]; cbn; [constructor|].
  destruct (truthy (data !! key g)) eqn:Hg; cbn; [|done].
  intros Hn. constructor; [|by apply IH].
  rewrite is_empty_truthy. congruence.
Qed.

Lemma first_missing_app (data : obj) (xs ys : list field) :
  first_missing data (xs ++ ys)
  = match first_missing data xs with
    | Some l => Some l
    | None => first_missing data ys
    end.
Proof.
  induction xs as [|g xs IH]; cbn; [done|].
  by destruct (truthy (data !! key g)).
Qed.

(** The function is the loop over the textual fields and the attachments. *)
Lemma getNextMissingField_checked (data : obj) :
  getNextMissingField (Some data)
  = default READY (first_missing data (checked_fields data)).
Proof.
  unfold getNextMissingField, checked_fields. rewrite first_missing_app.
  destruct (first_missing data INTERVIEW_ORDER) as [l|]; [done|].
  unfold attachment_fields. cbn [app first_missing key label].
  destruct (truthy (data !! "schoolPicture")); [|done].
  destruct (truthy (data !! "principalPicture")); [|done].
  destruct (truthy (data !! "registrationCertificatePrimary")); [|done].
  cbn [negb].
  destruct (decide (data !! "level" = Some "Upper Primary (1-8)")) as [Hl|Hl];
    [rewrite (bool_decide_eq_true_2 _ Hl) | by rewrite (bool_decide_eq_false_2 _ Hl)].
  cbn [first_missing key label andb].
  by destruct (truthy (data !! "registrationCertificateUpper")).
Qed.

End FieldOrderFacts.

(** C1.  For every record, the next missing field is the label of the first
    field with an empty value among the textual fields in interview order
    followed by the attachments (school picture, principal picture, primary
    certificate, and the upper-primary certificate only for the level
    "Upper Primary (1-8)"); when no such field is empty it is the
    ready-to-submit sentinel.  The function is total: one of the two holds
    for every record. *)
Theorem getNextMissingField_first_empty (data : obj) :
  (exists f, FieldOrder.first_empty data (FieldOrder.checked_fields data) f /\
             FieldOrder.getNextMissingField (Some data) = FieldOrder.label f)
  \/ (Forall (fun g => ~ FieldOrder.is_empty data g) (FieldOrder.checked_fields data) /\
      FieldOrder.getNextMissingField (Some data) = FieldOrder.READY).
Proof.
  rewrite getNextMissingField_checked.
  destruct (FieldOrder.first_missing data (FieldOrder.checked_fields data)) as [l|] eqn:Hm.
  - left. destruct (first_missing_Some _ _ _ Hm) as (f & Hf & <-). by exists f.
  - right. split; [|done]. by apply first_missing_None.
Qed.

Example next_missing_scenario :
  FieldOrder.getNextMissingField (Some SchoolForm.INITIAL_DATA) = "School Name" /\
  FieldOrder.getNextMissingField None = "School Name" /\
  FieldOrder.getNextMissingField (Some example_level_missing)
  = "Level (Primary, Upper Primary)" /\
  FieldOrder.getNextMissingField
    (Some (SchoolForm.mergeUpdates example_level_missing
             {[ "level" := "Upper Primary (1-8)" ]}))
  = "Upper Primary Registration PDF (Please upload via UI)" /\
  FieldOrder.getNextMissingField
    (Some (SchoolForm.mergeUpdates example_level_missing {[ "level" := "Primary (1-5)" ]}))
  = FieldOrder.READY.
Proof. repeat split; vm_compute; reflexivity. Qed.

(** ** FormController: the record transitions *)

Section FormFacts.
Import Types SchoolForm.

Lemma mergeUpdates_level_primary (prev updates : obj) :
  updates !! "level" = Some "Primary (1-5)" ->
  mergeUpdates prev updates = <["registrationCertificateUpper" := ""]> (updates ∪ prev).
Proof.
  intros Hl. unfold mergeUpdates. rewrite Hl.
  by rewrite bool_decide_eq_true_2.
Qed.

(** The keys after a merge: those of the record, those of the update, and
    the certificate field when the level rule fires. *)
Lemma mergeUpdates_dom (prev updates : obj) :
  dom (mergeUpdates prev updates)
  ⊆ dom prev ∪ dom updates ∪ {["registrationCertificateUpper"]}.
Proof.
  unfold mergeUpdates.
  destruct (truthy (updates !! "level") &&
            bool_decide (updates !! "level" = Some "Primary (1-5)")).
  - rewrite dom_insert_L, dom_union_L. set_solver.
  - rewrite dom_union_L. set_solver.
Qed.

Lemma mergeUpdates_dom_lower (prev updates : obj) :
  dom prev ⊆ dom (mergeUpdates prev updates).
Proof.
  unfold mergeUpdates.
  destruct (truthy (updates !! "level") &&
            bool_decide (updates !! "level" = Some "Primary (1-5)")).
  - rewrite dom_insert_L, dom_union_L. set_solver.
  - rewrite dom_union_L. set_solver.
Qed.

Lemma upper_is_SchoolData_key : "registrationCertificateUpper" ∈ SchoolDataKeySet.
Proof. unfold SchoolDataKeySet, SchoolDataKeys. set_solver. Qed.

Lemma mergeUpdates_SchoolData (prev updates : obj) :
  is_PartialSchoolData updates ->
  is_SchoolData prev -> is_SchoolData (mergeUpdates prev updates).
Proof.
  unfold is_PartialSchoolData, is_SchoolData. intros Hu Hp.
  pose proof (mergeUpdates_dom prev updates) as Hupper.
  pose proof (mergeUpdates_dom_lower prev updates) as Hlower.
  pose proof upper_is_SchoolData_key as Hkey.
  revert Hu Hp Hupper Hlower Hkey.
  generalize SchoolDataKeySet (dom (mergeUpdates prev updates)) (dom prev) (dom updates).
  intros keys merged before given Hu Hp Hupper Hlower Hkey.
  apply set_eq. intros k. split; intros Hk.
  - apply Hupper in Hk. rewrite !elem_of_union, elem_of_singleton in Hk.
    destruct Hk as [[Hk|Hk]|Hk]; [by rewrite <- Hp | by apply Hu | by subst k].
  - apply Hlower. by rewrite Hp.
Qed.

End FormFacts.

(** ** ToolDispatcher *)

Section DispatchFacts.
Import ChatBot.
Context {T : Type} `{Clock T} {W : Type}.
Variable onUpdateForm : option (option obj -> W -> res W).
Variable onSubmitForm : option (W -> res W).









End DispatchFacts.




(** The responses of the three calls. *)
Example example_calls_responses :
  ChatBot.responses
    (ChatBot.onmessage (Some SchoolForm.handleVoiceUpdate)
       (Some SchoolForm.onSubmitForm) 0%Z
       (ChatBot.mkLiveServerMessage None None (Some example_calls))
       (ChatBot.initialState (Some SchoolForm.INITIAL_DATA))
       SchoolForm.initialFormState).1.2
  = [ ChatBot.mkFunctionResponse (Some "call-1") (Some "update_school_data")
        (ChatBot.nextFieldResult "UDISE Code");
      ChatBot.mkFunctionResponse (Some "call-2") (Some "delete_everything") ∅;
      ChatBot.mkFunctionResponse (Some "call-3") (Some "submit_report")
        {[ "result" := "Submission triggered." ]} ].
Proof. vm_compute. reflexivity. Qed.

(** A call of update_school_data without arguments: the update callback
    raises, and neither that call nor a later one is answered. *)
Example update_without_arguments :
  ChatBot.dispatchToolCalls (T:=Z) (Some SchoolForm.handleVoiceUpdate)
    (Some SchoolForm.onSubmitForm)
    [ ChatBot.mkFunctionCall (Some "call-1") (Some "update_school_data") None;
      ChatBot.mkFunctionCall (Some "call-2") (Some "submit_report") None ]
    (ChatBot.initialState None) SchoolForm.initialFormState
  = (ChatBot.initialState None, SchoolForm.initialFormState, [],
     Some (TypeError "Cannot convert undefined or null to object")).
Proof. reflexivity. Qed.

(** ** The level rule and the keys of the record *)

Section RecordFacts.
Import Types SchoolForm.

(** One call of the loop keeps the record a [SchoolData] when its arguments
    are a [Partial<SchoolData>]. *)
Lemma handleFunctionCall_keys {T : Type} (fc : ChatBot.FunctionCall)
    (st st' : ChatBot.State (T:=T)) (w w' : FormState) (e : ChatBot.Effect) :
  (forall args, ChatBot.fc_args fc = Some args -> is_PartialSchoolData args) ->
  ChatBot.handleFunctionCall (Some handleVoiceUpdate) (Some onSubmitForm) fc st w
  = Ok (st', w', e) ->
  is_SchoolData (formData w) -> is_SchoolData (formData w').
Proof.
  intros Hargs. unfold ChatBot.handleFunctionCall.
  case_bool_decide; [|case_bool_decide].
  - destruct (ChatBot.fc_args fc) as [args|]; cbn; [|done].
    intros [= _ <- _] Hw. cbn. apply mergeUpdates_SchoolData; [|done]. by apply Hargs.
  - cbn. by intros [= _ <- _].
  - by intros [= _ <- _].
Qed.

Lemma dispatchToolCalls_keys {T : Type} (calls : list ChatBot.FunctionCall)
    (st : ChatBot.State (T:=T)) (w : FormState) :
  Forall (fun fc => forall args, ChatBot.fc_args fc = Some args ->
                                 is_PartialSchoolData args) calls ->
  is_SchoolData (formData w) ->
  is_SchoolData
    (formData (ChatBot.dispatchToolCalls (Some handleVoiceUpdate) (Some onSubmitForm)
                 calls st w).1.1.2).
Proof.
  intros Hcalls. revert st w.
  induction Hcalls as [|fc calls Hfc _ IH]; intros st w Hw; cbn [ChatBot.dispatchToolCalls].
  - done.
  - destruct (ChatBot.handleFunctionCall _ _ fc st w) as [[[st1 w1] e]|err] eqn:Hcall.
    + specialize (IH st1 w1 (handleFunctionCall_keys _ _ _ _ _ _ Hfc Hcall Hw)).
      by destruct (ChatBot.dispatchToolCalls _ _ calls st1 w1) as [[[? ?] ?] ?].
    + done.
Qed.

End RecordFacts.

(** C2.  An update that sets the level to "Primary (1-5)" leaves the
    upper-primary certificate empty, whatever the record held before: through
    the change handler of the form, through the update callback that voice
    and chat call, and through the tool dispatch of the live session. *)
Theorem level_primary_clears_upper_certificate {T : Type}
    (w : SchoolForm.FormState) (updates : obj)
    (st : ChatBot.State (T:=T)) (id : option string) :
  updates !! "level" = Some "Primary (1-5)" ->
  SchoolForm.formData (SchoolForm.handleChange "level" "Primary (1-5)" w)
    !! "registrationCertificateUpper" = Some ""
  /\ (exists w', SchoolForm.handleVoiceUpdate (Some updates) w = Ok w' /\
                 SchoolForm.formData w' !! "registrationCertificateUpper" = Some "")
  /\ (exists st' w' e,
        ChatBot.handleFunctionCall (Some SchoolForm.handleVoiceUpdate)
          (Some SchoolForm.onSubmitForm)
          (ChatBot.mkFunctionCall id (Some "update_school_data") (Some updates)) st w
        = Ok (st', w', e) /\
        SchoolForm.formData w' !! "registrationCertificateUpper" = Some "").
Proof.
  intros Hl. split; [|split].
  - unfold SchoolForm.handleChange. cbn. apply lookup_insert_eq.
  - eexists. split; [done|]. cbn.
    rewrite (mergeUpdates_level_primary _ _ Hl). apply lookup_insert_eq.
  - unfold ChatBot.handleFunctionCall. cbn. do 3 eexists. split; [done|]. cbn.
    rewrite (mergeUpdates_level_primary _ _ Hl). apply lookup_insert_eq.
Qed.

Lemma level_primary_clears_upper_certificate_witness :
  SchoolForm.formData example_upper_form !! "registrationCertificateUpper"
  = Some "data:application/pdf;base64,JVBERi0="
  /\ exists w', SchoolForm.handleVoiceUpdate (Some example_lowering) example_upper_form = Ok w' /\
                SchoolForm.formData w' !! "registrationCertificateUpper" = Some "".
Proof.
  split; [vm_compute; reflexivity|].
  apply (level_primary_clears_upper_certificate (T:=Z) example_upper_form example_lowering
           (ChatBot.initialState None) None).
  vm_compute. reflexivity.
Defined.

(** C8, as stated, fails: the update callback spreads the argument mapping of
    the model into the record as it is, so a key outside the thirteen fields
    of [SchoolData] is added to the record. *)
Lemma stray_key_reaches_record :
  let w' := (ChatBot.onmessage (T:=Z) (Some SchoolForm.handleVoiceUpdate)
               (Some SchoolForm.onSubmitForm) 0%Z example_stray_message
               (ChatBot.initialState (Some SchoolForm.INITIAL_DATA))
               SchoolForm.initialFormState).1.1.2 in
  Types.is_SchoolData (SchoolForm.formData SchoolForm.initialFormState) /\
  SchoolForm.formData w' !! "nickname" = Some "Sunny" /\
  ("nickname" ∉ Types.SchoolDataKeySet) /\
  ~ Types.is_SchoolData (SchoolForm.formData w').
Proof.
  assert (Hout : "nickname" ∉ Types.SchoolDataKeySet).
  { unfold Types.SchoolDataKeySet, Types.SchoolDataKeys. set_solver. }
  cbv zeta. split; [|split; [|split]].
  - unfold Types.is_SchoolData, Types.SchoolDataKeySet, Types.SchoolDataKeys,
      SchoolForm.initialFormState, SchoolForm.INITIAL_DATA. cbn [SchoolForm.formData].
    rewrite !dom_list_to_map_L. reflexivity.
  - vm_compute. reflexivity.
  - exact Hout.
  - unfold Types.is_SchoolData. intros Hdom. apply Hout. rewrite <- Hdom.
    apply elem_of_dom. exists "Sunny". vm_compute. reflexivity.
Qed.

(** C8, amended.  A record with the fields of [SchoolData] has exactly these
    fields after the calls of a tool-call message, when the arguments of
    every call name only fields of [SchoolData]: no field is added and none
    is removed. *)
Theorem dispatch_keeps_SchoolData_keys {T : Type} (calls : list ChatBot.FunctionCall)
    (st : ChatBot.State (T:=T)) (w : SchoolForm.FormState) :
  Forall (fun fc => forall args, ChatBot.fc_args fc = Some args ->
                                 Types.is_PartialSchoolData args) calls ->
  Types.is_SchoolData (SchoolForm.formData w) ->
  Types.is_SchoolData
    (SchoolForm.formData
       (ChatBot.dispatchToolCalls (Some SchoolForm.handleVoiceUpdate)
          (Some SchoolForm.onSubmitForm) calls st w).1.1.2).
Proof. apply dispatchToolCalls_keys. Qed.

Lemma INITIAL_DATA_is_SchoolData :
  Types.is_SchoolData (SchoolForm.formData SchoolForm.initialFormState).
Proof.
  unfold Types.is_SchoolData, Types.SchoolDataKeySet, Types.SchoolDataKeys,
    SchoolForm.initialFormState, SchoolForm.INITIAL_DATA. cbn [SchoolForm.formData].
  rewrite !dom_list_to_map_L. reflexivity.
Defined.

Lemma example_calls_partial :
  Forall (fun fc => forall args, ChatBot.fc_args fc = Some args ->
                                 Types.is_PartialSchoolData args) example_calls.
Proof.
  unfold example_calls, Types.is_PartialSchoolData, Types.SchoolDataKeySet,
    Types.SchoolDataKeys.
  repeat constructor; cbn; intros args Hargs; injection Hargs as <-.
  - rewrite dom_singleton_L. set_solver.
  - rewrite dom_empty_L. set_solver.
  - rewrite dom_empty_L. set_solver.
Defined.

Lemma dispatch_keeps_SchoolData_keys_witness :
  Types.is_SchoolData
    (SchoolForm.formData
       (ChatBot.dispatchToolCalls (Some SchoolForm.handleVoiceUpdate)
          (Some SchoolForm.onSubmitForm) example_calls
          (ChatBot.initialState (T:=Z) (Some SchoolForm.INITIAL_DATA))
          SchoolForm.initialFormState).1.1.2).
Proof.
  apply (dispatch_keeps_SchoolData_keys (T:=Z) example_calls).
  - exact example_calls_partial.
  - exact INITIAL_DATA_is_SchoolData.
Defined.

(** ** DuplexVoiceSession: start, close and teardown *)

Section SessionFacts.
Import ChatBot.
Context {T : Type} `{Clock T}.

Lemma attempt_no_raise (raises : Effect (T:=T) -> bool) (calls : list Effect) :
  (forall e, raises e = false) -> attempt raises calls = calls.
Proof.
  intros Hr. induction calls as [|c calls IH]; cbn; [done|].
  by rewrite Hr, IH.
Qed.

Lemma attempt_release (raises : Effect (T:=T) -> bool) (calls : list Effect) :
  Forall is_release calls -> Forall is_release (attempt raises calls).
Proof.
  induction 1 as [|c calls Hc _ IH]; cbn; [constructor|].
  destruct (raises c); by constructor.
Qed.

Lemma disconnect_idle (raises : Effect (T:=T) -> bool) (st : State) :
  idle (disconnectLiveSession raises st).1.
Proof. by repeat split. Qed.

Lemma disconnect_releases_only (raises : Effect (T:=T) -> bool) (st : State) :
  Forall is_release (disconnectLiveSession raises st).2.
Proof.
  apply attempt_release.
  destruct (mediaStreamRef st), (sessionRef st), (audioContextRef st),
    (inputAudioContextRef st); cbn; repeat constructor.
Qed.

(** Where no release call raises, every resource that the handles name is
    released. *)
Lemma disconnect_releases_all (raises : Effect (T:=T) -> bool) (st : State) :
  (forall e, raises e = false) ->
  run_effects (held st) (disconnectLiveSession raises st).2 = mkWorld ∅ ∅ ∅.
Proof.
  intros Hr. unfold disconnectLiveSession, held. cbn [snd].
  rewrite attempt_no_raise by done.
  destruct (mediaStreamRef st), (sessionRef st), (audioContextRef st),
    (inputAudioContextRef st); cbn; f_equal; set_solver.
Qed.

End SessionFacts.

(** C9.  Teardown of an idle session: no platform call is made, what the
    user sees is unchanged, and every field of the state keeps its value but
    the hidden caption, which is reset to the empty string (it is shown only
    while connected); a state whose caption is empty is unchanged as a
    whole, and so is the state after a teardown when it is torn down
    again. *)
Theorem disconnect_when_idle_is_noop {T : Type} (raises : ChatBot.Effect (T:=T) -> bool)
    (st : ChatBot.State) :
  ChatBot.idle st ->
  (ChatBot.disconnectLiveSession raises st).2 = [] /\
  (ChatBot.disconnectLiveSession raises st).1 = ChatBot.set_caption "" st /\
  ChatBot.render (ChatBot.disconnectLiveSession raises st).1 = ChatBot.render st /\
  (ChatBot.liveCaption st = "" -> (ChatBot.disconnectLiveSession raises st).1 = st) /\
  ChatBot.disconnectLiveSession raises (ChatBot.disconnectLiveSession raises st).1
  = ((ChatBot.disconnectLiveSession raises st).1, []).
Proof.
  destruct st. unfold ChatBot.idle. cbn.
  intros (-> & -> & -> & -> & -> & ->). cbn.
  repeat split; try done. by intros ->.
Qed.

Lemma disconnect_when_idle_is_noop_witness :
  ChatBot.idle example_idle /\
  (ChatBot.disconnectLiveSession never_raises example_idle).2 = [] /\
  ChatBot.render (ChatBot.disconnectLiveSession never_raises example_idle).1
  = ChatBot.render example_idle.
Proof.
  assert (Hidle : ChatBot.idle example_idle) by (by repeat split).
  split; [exact Hidle|].
  destruct (disconnect_when_idle_is_noop never_raises example_idle Hidle)
    as (Heffs & _ & Hview & _).
  split; [exact Heffs | exact Hview].
Defined.

(** C3, as stated, fails: a start during an open session ends with no
    session, not with one. *)
Lemma start_while_open_leaves_no_session :
  let result := ChatBot.startLiveSession never_raises example_env example_open in
  let world := ChatBot.run_effects (ChatBot.held example_open) result.2 in
  size (ChatBot.open_sessions (ChatBot.held example_open)) = 1 /\
  ChatBot.isLiveConnected result.1 = false /\
  ChatBot.sessionRef result.1 = None /\
  ChatBot.open_sessions world = ∅ /\
  size (ChatBot.open_sessions world) <> 1.
Proof.
  cbv zeta.
  assert (Hw : ChatBot.open_sessions
                 (ChatBot.run_effects (ChatBot.held example_open)
                    (ChatBot.startLiveSession never_raises example_env example_open).2) = ∅).
  { cbn. set_solver. }
  split; [by cbn; rewrite size_singleton|].
  split; [done|]. split; [done|]. split; [exact Hw|].
  rewrite Hw, size_empty. lia.
Qed.

(** C3, amended.  A start during an open session is a teardown and nothing
    more: afterwards the component is idle and names no resource, only
    release calls were made, no session was opened, and where no release call
    raises every resource of the old session is released.  So no session is
    active afterwards, and never two. *)
Theorem start_while_open_disconnects {T : Type} (raises : ChatBot.Effect (T:=T) -> bool)
    (env : ChatBot.StartEnv) (st : ChatBot.State) :
  ChatBot.isLiveConnected st = true ->
  ChatBot.startLiveSession raises env st = ChatBot.disconnectLiveSession raises st /\
  ChatBot.idle (ChatBot.startLiveSession raises env st).1 /\
  ChatBot.held (ChatBot.startLiveSession raises env st).1 = ChatBot.mkWorld ∅ ∅ ∅ /\
  Forall ChatBot.is_release (ChatBot.startLiveSession raises env st).2 /\
  ((forall e, raises e = false) ->
   ChatBot.run_effects (ChatBot.held st) (ChatBot.startLiveSession raises env st).2
   = ChatBot.mkWorld ∅ ∅ ∅).
Proof.
  intros Hopen.
  assert (Heq : ChatBot.startLiveSession raises env st
                = ChatBot.disconnectLiveSession raises st).
  { unfold ChatBot.startLiveSession. by rewrite Hopen. }
  rewrite Heq. split; [done|]. split; [apply disconnect_idle|].
  split; [cbn; f_equal; set_solver|].
  split; [apply disconnect_releases_only|]. apply disconnect_releases_all.
Qed.

Lemma start_while_open_disconnects_witness :
  ChatBot.isLiveConnected example_open = true /\
  ChatBot.idle (ChatBot.startLiveSession never_raises example_env example_open).1 /\
  ChatBot.run_effects (ChatBot.held example_open)
    (ChatBot.startLiveSession never_raises example_env example_open).2
  = ChatBot.mkWorld ∅ ∅ ∅.
Proof.
  split; [reflexivity|].
  destruct (start_while_open_disconnects never_raises example_env example_open eq_refl)
    as (_ & Hidle & _ & _ & Hall).
  split; [exact Hidle|]. apply Hall. reflexivity.
Defined.

(** C6, as stated, fails: after [onclose], and after [onerror], of an open
    session the microphone stream runs on, both audio contexts are open, the
    cursor keeps its value and the pending source is still in the set. *)
Lemma close_leaves_devices_and_cursor :
  ~ ChatBot.torn_down example_open (ChatBot.onclose example_open) [] /\
  ~ ChatBot.torn_down example_open
      (ChatBot.onerror (Exn "Error" "socket closed") example_open) [] /\
  ChatBot.mediaStreamRef (ChatBot.onclose example_open) = Some 1 /\
  1 ∈ ChatBot.live_streams (ChatBot.run_effects (T:=Z) (ChatBot.held example_open) []) /\
  ChatBot.nextStartTimeRef (ChatBot.onclose example_open) = 48000%Z /\
  ChatBot.sourcesRef (ChatBot.onclose example_open) = {[0]}.
Proof.
  split; [|split].
  - intros (_ & _ & Hcursor & _). cbn in Hcursor. discriminate Hcursor.
  - intros (_ & _ & Hcursor & _). cbn in Hcursor. discriminate Hcursor.
  - cbn. repeat split; try done; set_solver.
Qed.

(** C6, amended.  [onclose] and [onerror] clear the connected and the
    connecting flag ([onerror] also opens the chat window and appends the
    error and the support message); they leave the playback cursor and the
    set of pending sources as they are, and so does the teardown
    [disconnectLiveSession], which is what resets the four handles and, where
    no release call raises, stops the microphone stream and closes both audio
    contexts. *)
Theorem close_error_and_teardown {T : Type} (raises : ChatBot.Effect (T:=T) -> bool)
    (err : exn) (st : ChatBot.State) :
  (ChatBot.isLiveConnected (ChatBot.onclose st) = false /\
   ChatBot.isConnecting (ChatBot.onclose st) = false /\
   ChatBot.nextStartTimeRef (ChatBot.onclose st) = ChatBot.nextStartTimeRef st /\
   ChatBot.sourcesRef (ChatBot.onclose st) = ChatBot.sourcesRef st) /\
  (ChatBot.isLiveConnected (ChatBot.onerror err st) = false /\
   ChatBot.isConnecting (ChatBot.onerror err st) = false /\
   ChatBot.isOpen (ChatBot.onerror err st) = true /\
   ChatBot.messages (ChatBot.onerror err st)
   = ChatBot.messages st ++
     [ChatBot.mkMessage ChatBot.model ("Connection Error: " +:+ exn_message err) None;
      ChatBot.mkMessage ChatBot.model ChatBot.SUPPORT_MSG None] /\
   ChatBot.nextStartTimeRef (ChatBot.onerror err st) = ChatBot.nextStartTimeRef st /\
   ChatBot.sourcesRef (ChatBot.onerror err st) = ChatBot.sourcesRef st) /\
  (ChatBot.nextStartTimeRef (ChatBot.disconnectLiveSession raises st).1
   = ChatBot.nextStartTimeRef st /\
   ChatBot.sourcesRef (ChatBot.disconnectLiveSession raises st).1 = ChatBot.sourcesRef st /\
   ChatBot.idle (ChatBot.disconnectLiveSession raises st).1 /\
   ((forall e, raises e = false) ->
    ChatBot.run_effects (ChatBot.held st) (ChatBot.disconnectLiveSession raises st).2
    = ChatBot.mkWorld ∅ ∅ ∅)).
Proof.
  split; [by repeat split|]. split; [by repeat split|].
  split; [done|]. split; [done|]. split; [apply disconnect_idle|].
  apply disconnect_releases_all.
Qed.

(** ** Playback scheduling *)

Section PlaybackFacts.
Import ChatBot.
Context {T : Type} `{Clock T} {W : Type}.
Variable onUpdateForm : option (option obj -> W -> res W).
Variable onSubmitForm : option (W -> res W).

Lemma chained_from_weaken (c c' : T) (chunks : list (T * T)) :
  t_le c' c -> chained_from c chunks -> chained_from c' chunks.
Proof.
  destruct chunks as [|[start duration] rest]; cbn; [done|].
  intros Hc (Hs & Hd & Hrest). split; [|done]. by apply t_le_trans with c.
Qed.

Lemma chained_from_chained (c : T) (chunks : list (T * T)) :
  chained_from c chunks -> chained chunks.
Proof.
  revert c. induction chunks as [|[s1 d1] rest IH]; intros c; [done|].
  destruct rest as [|[s2 d2] rest]; [done|].
  intros (_ & Hd1 & Hrest). pose proof Hrest as (Hs2 & _ & _).
  split; [|split].
  - apply t_le_trans with (t_add s1 d1); [by apply t_add_nonneg | done].
  - done.
  - by apply (IH (t_add s1 d1)).
Qed.

Lemma extends_same (st st' : State) :
  nextStartTimeRef st' = nextStartTimeRef st -> extends st st' [].
Proof. intros Heq rest. by rewrite Heq. Qed.

Lemma schedule_app (effs1 effs2 : list (Effect (T:=T))) :
  schedule (effs1 ++ effs2) = schedule effs1 ++ schedule effs2.
Proof. apply omap_app. Qed.

Lemma extends_trans (st1 st2 st3 : State) (effs1 effs2 : list Effect) :
  extends st1 st2 effs1 -> extends st2 st3 effs2 -> extends st1 st3 (effs1 ++ effs2).
Proof.
  intros H12 H23 rest Hrest. rewrite schedule_app, <- app_assoc.
  apply H12, H23, Hrest.
Qed.

(** The step of one chunk, as the code takes it. *)
Lemma playAudio_spec (now : T) (base64Audio : string) (ctx : nat) (st : State) :
  match audioBytes ← AudioCodec.decode base64Audio; decodeAudioData audioBytes with
  | Ok frameCount =>
      exists st',
        playAudio now base64Audio ctx st
        = (st', [StartSource (sourceCounter st) ctx
                   (t_max (nextStartTimeRef st) now) (t_frames frameCount)], None) /\
        nextStartTimeRef st'
        = t_add (t_max (nextStartTimeRef st) now) (t_frames frameCount) /\
        sourcesRef st' = {[sourceCounter st]} ∪ sourcesRef st
  | Throw e => playAudio now base64Audio ctx st = (advanceCursor now st, [], Some e)
  end.
Proof.
  unfold playAudio.
  destruct (audioBytes ← AudioCodec.decode base64Audio; decodeAudioData audioBytes)
    as [frameCount|e]; [|done].
  eexists. by repeat split.
Qed.

Lemma playAudio_extends (now : T) (base64Audio : string) (ctx : nat) (st : State) :
  extends st (playAudio now base64Audio ctx st).1.1 (playAudio now base64Audio ctx st).1.2.
Proof.
  pose proof (playAudio_spec now base64Audio ctx st) as Hspec.
  destruct (audioBytes ← AudioCodec.decode base64Audio; decodeAudioData audioBytes)
    as [frameCount|e].
  - destruct Hspec as (st' & -> & Hcursor & _). intros rest Hrest. cbn.
    split; [apply t_max_l|]. split; [apply t_frames_nonneg|]. by rewrite <- Hcursor.
  - rewrite Hspec. intros rest Hrest. cbn.
    eapply chained_from_weaken; [|exact Hrest]. apply t_max_l.
Qed.

Lemma playMessage_extends (now : T) (message : LiveServerMessage) (st : State) :
  extends st (playMessage now message st).1.1 (playMessage now message st).1.2.
Proof.
  unfold playMessage.
  destruct (inlineData message) as [[base64Audio|]|e]; [|by apply extends_same..].
  destruct (audioContextRef st) as [ctx|]; [|by apply extends_same].
  destruct (truthy (Some base64Audio)); [|by apply extends_same].
  apply playAudio_extends.
Qed.

Lemma handleFunctionCall_cursor (fc : FunctionCall) (st st' : State (T:=T)) (w w' : W)
    (e : Effect (T:=T)) :
  handleFunctionCall onUpdateForm onSubmitForm fc st w = Ok (st', w', e) ->
  nextStartTimeRef st' = nextStartTimeRef st /\ schedule [e] = [].
Proof.
  unfold handleFunctionCall.
  case_bool_decide; [|case_bool_decide].
  - destruct onUpdateForm as [update|]; [|by intros [= <- _ <-]].
    destruct (update (fc_args fc) w); cbn; [|done]. by intros [= <- _ <-].
  - destruct onSubmitForm as [submit|]; [|by intros [= <- _ <-]].
    destruct (submit w); cbn; [|done]. by intros [= <- _ <-].
  - by intros [= <- _ <-].
Qed.

Lemma dispatchToolCalls_extends (calls : list FunctionCall) (st : State) (w : W) :
  extends st (dispatchToolCalls onUpdateForm onSubmitForm calls st w).1.1.1
             (dispatchToolCalls onUpdateForm onSubmitForm calls st w).1.2.
Proof.
  revert st w. induction calls as [|fc calls IH]; intros st w; cbn [dispatchToolCalls].
  - by apply extends_same.
  - destruct (handleFunctionCall onUpdateForm onSubmitForm fc st w)
      as [[[st1 w1] e]|err] eqn:Hcall; [|by apply extends_same].
    destruct (handleFunctionCall_cursor _ _ _ _ _ _ Hcall) as [Hcursor He].
    specialize (IH st1 w1).
    destruct (dispatchToolCalls onUpdateForm onSubmitForm calls st1 w1)
      as [[[st2 w2] effs] thrown]. cbn [fst snd] in *.
    intros rest Hrest. specialize (IH rest Hrest).
    rewrite Hcursor in IH. change (e :: effs) with ([e] ++ effs).
    by rewrite schedule_app, He.
Qed.

Lemma onmessage_extends (now : T) (message : LiveServerMessage) (st : State) (w : W) :
  extends st (onmessage onUpdateForm onSubmitForm now message st w).1.1.1
             (onmessage onUpdateForm onSubmitForm now message st w).1.2.
Proof.
  unfold onmessage.
  set (st0 := match outputTranscription message with
              | Some transcription =>
                  set_caption (appendCaption transcription (liveCaption st)) st
              | None => st
              end).
  assert (H0 : extends st st0 []).
  { apply extends_same. unfold st0. by destruct (outputTranscription message). }
  pose proof (playMessage_extends now message st0) as H1.
  destruct (playMessage now message st0) as [[st1 effs1] thrown]. cbn [fst snd] in H1.
  pose proof (extends_trans _ _ _ _ _ H0 H1) as H01. cbn [app] in H01.
  destruct thrown as [e|]; [done|].
  destruct (toolCall message) as [calls|]; [|done].
  pose proof (dispatchToolCalls_extends calls st1 w) as H2.
  destruct (dispatchToolCalls onUpdateForm onSubmitForm calls st1 w)
    as [[[st2 w2] sent] thrown]. cbn [fst snd] in *.
  by apply extends_trans with st1.
Qed.

Lemma runMessages_extends (arrivals : list (T * LiveServerMessage)) (st : State) (w : W) :
  extends st (runMessages onUpdateForm onSubmitForm arrivals st w).1.1
             (runMessages onUpdateForm onSubmitForm arrivals st w).2.
Proof.
  revert st w. induction arrivals as [|[now message] arrivals IH]; intros st w;
    cbn [runMessages].
  - by apply extends_same.
  - pose proof (onmessage_extends now message st w) as H1.
    destruct (onmessage onUpdateForm onSubmitForm now message st w)
      as [[[st1 w1] effs] thrown]. cbn [fst snd] in H1.
    specialize (IH st1 w1).
    destruct (runMessages onUpdateForm onSubmitForm arrivals st1 w1)
      as [[st2 w2] later]. cbn [fst snd] in *.
    by apply extends_trans with st1.
Qed.

End PlaybackFacts.

Section ChunkSequence.
Import ChatBot.
Context {T : Type} `{Clock T} {W : Type}.
Variable onUpdateForm : option (option obj -> W -> res W).
Variable onSubmitForm : option (W -> res W).

(** The tool calls start no source and leave the cursor and the output
    context as they are. *)
Lemma dispatchToolCalls_quiet (calls : list FunctionCall) (st : State (T:=T)) (w : W) :
  let result := dispatchToolCalls onUpdateForm onSubmitForm calls st w in
  schedule result.1.2 = [] /\
  nextStartTimeRef result.1.1.1 = nextStartTimeRef st /\
  audioContextRef result.1.1.1 = audioContextRef st.
Proof.
  cbv zeta. revert st w.
  induction calls as [|fc calls IH]; intros st w; cbn [dispatchToolCalls]; [done|].
  destruct (handleFunctionCall onUpdateForm onSubmitForm fc st w)
    as [[[st1 w1] e]|err] eqn:Hcall; [|done].
  assert (schedule [e] = [] /\ nextStartTimeRef st1 = nextStartTimeRef st /\
          audioContextRef st1 = audioContextRef st) as (He & Hc1 & Ha1).
  { revert Hcall. unfold handleFunctionCall.
    case_bool_decide; [|case_bool_decide].
    - destruct onUpdateForm as [update|]; [|by intros [= <- _ <-]].
      destruct (update (fc_args fc) w); cbn; [|done]. by intros [= <- _ <-].
    - destruct onSubmitForm as [submit|]; [|by intros [= <- _ <-]].
      destruct (submit w); cbn; [|done]. by intros [= <- _ <-].
    - by intros [= <- _ <-]. }
  specialize (IH st1 w1).
  destruct (dispatchToolCalls onUpdateForm onSubmitForm calls st1 w1)
    as [[[st2 w2] effs] thrown]. cbn [fst snd] in *.
  destruct IH as (Hs & Hc & Ha).
  split; [|split; congruence].
  change (e :: effs) with ([e] ++ effs). by rewrite schedule_app, He, Hs.
Qed.

(** A message with audio that decodes, handled while an output context is
    there: its chunk is the one source that is started, at the maximum of the
    cursor and the current time, and the cursor is advanced by the duration
    of the chunk; whatever else the message carries. *)
Lemma onmessage_chunk (now : T) (message : LiveServerMessage) (st : State (T:=T))
    (w : W) (ctx : nat) (base64Audio : string) (frameCount : nat) :
  audioContextRef st = Some ctx ->
  inlineData message = Ok (Some base64Audio) ->
  truthy (Some base64Audio) = true ->
  (audioBytes ← AudioCodec.decode base64Audio; decodeAudioData audioBytes)
  = Ok frameCount ->
  let result := onmessage onUpdateForm onSubmitForm now message st w in
  schedule result.1.2 = [(t_max (nextStartTimeRef st) now, t_frames frameCount)] /\
  nextStartTimeRef result.1.1.1
  = t_add (t_max (nextStartTimeRef st) now) (t_frames frameCount) /\
  audioContextRef result.1.1.1 = Some ctx.
Proof.
  intros Hctx Hdata Htruthy Hdecode. cbv zeta. unfold onmessage, playMessage.
  rewrite Hdata.
  set (st0 := match outputTranscription message with
              | Some transcription =>
                  set_caption (appendCaption transcription (liveCaption st)) st
              | None => st
              end).
  assert (audioContextRef st0 = Some ctx /\ nextStartTimeRef st0 = nextStartTimeRef st)
    as [Hctx0 Hcursor0].
  { unfold st0. by destruct (outputTranscription message). }
  rewrite Hctx0, Htruthy. unfold playAudio. rewrite Hdecode. cbn [scheduleBuffer].
  cbv zeta.
  destruct (toolCall message) as [calls|].
  - match goal with
    | |- context [dispatchToolCalls _ _ calls ?st1 w] =>
        pose proof (dispatchToolCalls_quiet calls st1 w) as Hquiet;
        destruct (dispatchToolCalls onUpdateForm onSubmitForm calls st1 w)
          as [[[st2 w2] sent] thrown]
    end.
    cbv zeta in Hquiet. cbn [fst snd] in *. destruct Hquiet as (Hs & Hc & Ha).
    change (?e :: sent) with ([e] ++ sent). rewrite schedule_app, Hs, Hc, Ha.
    cbn. by rewrite Hcursor0.
  - cbn. by rewrite Hcursor0.
Qed.

(** The chunks of a sequence of such messages are scheduled one after the
    other as the specification says. *)
Lemma runMessages_chunks (arrivals : list (T * LiveServerMessage))
    (frames : list nat) (ctx : nat) (st : State (T:=T)) (w : W) :
  audioContextRef st = Some ctx ->
  Forall2 (fun arrival frameCount =>
             exists base64Audio,
               inlineData arrival.2 = Ok (Some base64Audio) /\
               truthy (Some base64Audio) = true /\
               (audioBytes ← AudioCodec.decode base64Audio; decodeAudioData audioBytes)
               = Ok frameCount)
          arrivals frames ->
  let result := runMessages onUpdateForm onSubmitForm arrivals st w in
  let chunks := zip arrivals.*1 (map t_frames frames) in
  schedule result.2 = scheduled_from (nextStartTimeRef st) chunks /\
  nextStartTimeRef result.1.1 = cursor_after (nextStartTimeRef st) chunks.
Proof.
  intros Hctx Hall. cbv zeta. revert st w Hctx.
  induction Hall as [|[now message] frameCount arrivals frames Hfirst _ IH];
    intros st w Hctx; [done|].
  destruct Hfirst as (base64Audio & Hdata & Htruthy & Hdecode). cbn [snd] in Hdata.
  cbn [runMessages].
  pose proof (onmessage_chunk now message st w ctx base64Audio frameCount
                Hctx Hdata Htruthy Hdecode) as Hchunk. cbv zeta in Hchunk.
  destruct (onmessage onUpdateForm onSubmitForm now message st w)
    as [[[st1 w1] effs] thrown]. cbn [fst snd] in Hchunk.
  destruct Hchunk as (Hs & Hc & Ha).
  specialize (IH st1 w1 Ha).
  destruct (runMessages onUpdateForm onSubmitForm arrivals st1 w1)
    as [[st2 w2] later]. cbn [fst snd] in *.
  destruct IH as [IHs IHc].
  rewrite schedule_app, Hs, IHs, IHc, Hc. done.
Qed.

End ChunkSequence.

(** C4.  For every sequence of messages whose audio decodes, arriving in
    order while an output context is there, the sources that are started are
    the chunks of the messages, in order, each at the maximum of the cursor
    and the current time at its arrival, the cursor being advanced by the
    duration of each chunk in turn (whatever else the messages carry).  So
    each chunk starts no earlier than the chunk before it, and no earlier than
    the start of that chunk plus its duration; and this holds of the schedule
    of any sequence of messages at all, for audio that does not decode starts
    nothing. *)
Theorem playback_chunks_chained {T : Type} `{Clock T} {W : Type}
    (onUpdateForm : option (option obj -> W -> res W))
    (onSubmitForm : option (W -> res W))
    (arrivals : list (T * ChatBot.LiveServerMessage)) (frames : list nat)
    (ctx : nat) (st : ChatBot.State) (w : W) :
  ChatBot.audioContextRef st = Some ctx ->
  Forall2 (fun arrival frameCount =>
             exists base64Audio,
               ChatBot.inlineData arrival.2 = Ok (Some base64Audio) /\
               truthy (Some base64Audio) = true /\
               (audioBytes ← AudioCodec.decode base64Audio;
                ChatBot.decodeAudioData audioBytes) = Ok frameCount)
          arrivals frames ->
  let result := ChatBot.runMessages onUpdateForm onSubmitForm arrivals st w in
  let chunks := zip arrivals.*1 (map t_frames frames) in
  ChatBot.schedule result.2
  = ChatBot.scheduled_from (ChatBot.nextStartTimeRef st) chunks /\
  ChatBot.nextStartTimeRef result.1.1
  = ChatBot.cursor_after (ChatBot.nextStartTimeRef st) chunks /\
  length (ChatBot.schedule result.2) = length arrivals /\
  ChatBot.chained (ChatBot.schedule result.2) /\
  (forall (others : list (T * ChatBot.LiveServerMessage)) (st0 : ChatBot.State) (w0 : W),
     ChatBot.chained
       (ChatBot.schedule
          (ChatBot.runMessages onUpdateForm onSubmitForm others st0 w0).2)).
Proof.
  intros Hctx Hall. cbv zeta.
  assert (Hchained : forall (others : list (T * ChatBot.LiveServerMessage))
                            (st0 : ChatBot.State) (w0 : W),
            ChatBot.chained
              (ChatBot.schedule
                 (ChatBot.runMessages onUpdateForm onSubmitForm others st0 w0).2)).
  { intros others st0 w0.
    apply (chained_from_chained (ChatBot.nextStartTimeRef st0)).
    pose proof (runMessages_extends onUpdateForm onSubmitForm others st0 w0 [] I) as Hrun.
    by rewrite app_nil_r in Hrun. }
  destruct (runMessages_chunks onUpdateForm onSubmitForm arrivals frames ctx st w
              Hctx Hall) as [Hschedule Hcursor].
  split; [done|]. split; [done|]. split; [|split; [apply Hchained|done]].
  rewrite Hschedule. apply Forall2_length in Hall. clear -Hall.
  revert frames Hall. generalize (ChatBot.nextStartTimeRef st) as cursor.
  induction arrivals as [|[now message] arrivals IH]; intros cursor [|f frames] Hlen;
    try done.
  cbn. f_equal. apply IH. by injection Hlen.
Qed.

(** Two chunks of two frames each on integer time, the second arriving
    while the first still plays: they are scheduled back to back. *)
Lemma playback_chunks_chained_witness :
  ChatBot.schedule
    (ChatBot.runMessages (T:=Z) (W:=unit) None None
       [(5%Z, ChatBot.mkLiveServerMessage None (Some "AAAAAA==") None);
        (6%Z, ChatBot.mkLiveServerMessage None (Some "AAAAAA==") None)]
       (ChatBot.set_handles (Some 2) (Some 3) (Some 1) (Some 4) (ChatBot.initialState None))
       tt).2
  = [(5%Z, 2%Z); (7%Z, 2%Z)].
Proof.
  destruct (playback_chunks_chained (T:=Z) (W:=unit) None None
              [(5%Z, ChatBot.mkLiveServerMessage None (Some "AAAAAA==") None);
               (6%Z, ChatBot.mkLiveServerMessage None (Some "AAAAAA==") None)]
              [2; 2] 2
              (ChatBot.set_handles (Some 2) (Some 3) (Some 1) (Some 4)
                 (ChatBot.initialState None)) tt) as [Hschedule _].
  - reflexivity.
  - repeat constructor; exists "AAAAAA=="; repeat split; reflexivity.
  - exact Hschedule.
Defined.

(** ** Remote submission endpoint *)

Section ApiFacts.
Import Api.
Variable JSON_parse : string -> res json.

Lemma try_catch_Ok {A : Type} (body : res A) (handler : exn -> res A) :
  (forall e, exists a, handler e = Ok a) -> exists a, try_catch body handler = Ok a.
Proof.
  intros Hh. destruct body as [a|e]; cbn; [by exists a | apply Hh].
Qed.

Lemma submit_no_throw (url : string) (random : N) (fetched : res Response) :
  exists result, submitSchoolData JSON_parse url random fetched = Ok result.
Proof.
  unfold submitSchoolData. destruct (simulation url); [by eexists|].
  apply try_catch_Ok. intros e.
  destruct (String.eqb (exn_name e) "AbortError"); by eexists.
Qed.

Lemma submit_not_ok (url : string) (random : N) (response : Response) :
  simulation url = false -> ok response = false ->
  submitSchoolData JSON_parse url random (Ok response)
  = Ok (failure ("Server returned error status: " +:+ pretty (status response))).
Proof.
  intros Hsim Hok. unfold submitSchoolData. rewrite Hsim. cbn. by rewrite Hok.
Qed.

Lemma submit_not_json (url : string) (random : N) (response : Response)
    (text : string) (e : exn) :
  simulation url = false -> ok response = true -> body response = Ok text ->
  JSON_parse text = Throw e ->
  submitSchoolData JSON_parse url random (Ok response) = Ok (failure INVALID_RESPONSE).
Proof.
  intros Hsim Hok Hbody Hparse. unfold submitSchoolData. rewrite Hsim. cbn.
  rewrite Hok, Hbody. cbn. unfold parseResult. by rewrite Hparse.
Qed.

End ApiFacts.

(** C7.  [submitSchoolData] returns for every outcome of the request, it
    never raises; outside the simulation mode a response whose status is not
    200 to 299 gives the failure with the message "Server returned error
    status: " followed by the status, and a response with such a status
    whose body [JSON.parse] refuses gives the failure with the
    invalid-response message. *)
Theorem submitSchoolData_never_throws (JSON_parse : string -> res Api.json)
    (url : string) (random : N) (fetched : res Api.Response) :
  (exists result, Api.submitSchoolData JSON_parse url random fetched = Ok result) /\
  (forall response,
     Api.simulation url = false -> Api.ok response = false ->
     Api.submitSchoolData JSON_parse url random (Ok response)
     = Ok (Api.failure ("Server returned error status: " +:+ pretty (Api.status response)))) /\
  (forall response text e,
     Api.simulation url = false -> Api.ok response = true ->
     Api.body response = Ok text -> JSON_parse text = Throw e ->
     Api.submitSchoolData JSON_parse url random (Ok response)
     = Ok (Api.failure Api.INVALID_RESPONSE)).
Proof.
  split; [apply submit_no_throw|]. split.
  - intros response. apply submit_not_ok.
  - intros response text e. apply submit_not_json.
Qed.

(** The endpoint answers 500. *)
Example submit_status_500 :
  Api.submitSchoolData Api.parse_literal (Api.API_URL None) 0
    (Ok (Api.mkResponse 500 (Ok "Internal Server Error")))
  = Ok (Api.failure "Server returned error status: 500").
Proof. vm_compute. reflexivity. Qed.

(** The endpoint answers 200 with an HTML page, and with the JSON [null]:
    the parse error, and the [TypeError] of reading a property of [null],
    both end in the invalid-response failure. *)
Example submit_html_body :
  Api.submitSchoolData Api.parse_literal (Api.API_URL None) 0
    (Ok (Api.mkResponse 200 (Ok "<!DOCTYPE html><html></html>")))
  = Ok (Api.failure Api.INVALID_RESPONSE)
  /\ Api.submitSchoolData Api.parse_literal (Api.API_URL None) 0
       (Ok (Api.mkResponse 200 (Ok "null")))
     = Ok (Api.failure Api.INVALID_RESPONSE).
Proof. split; vm_compute; reflexivity. Qed.

(** ** AudioCodec *)

Section AudioCodecFacts.
Import AudioCodec.

Lemma sextet_of_char_of_sextet (s : sextet) :
  sextet_of_char (char_of_sextet s) = Some s.
Proof. by destruct s as [[] [] [] [] [] []]. Qed.

Lemma char_of_sextet_not_space (s : sextet) :
  is_ascii_whitespace (char_of_sextet s) = false.
Proof. by destruct s as [[] [] [] [] [] []]. Qed.

Lemma char_of_sextet_not_eq (s : sextet) :
  Ascii.eqb (char_of_sextet s) "="%char = false.
Proof. by destruct s as [[] [] [] [] [] []]. Qed.

(** Induction over a list three elements at a time. *)
Lemma list_ind3 {A} (P : list A -> Prop) :
  P [] -> (forall a, P [a]) -> (forall a b, P [a; b]) ->
  (forall a b c l, P l -> P (a :: b :: c :: l)) ->
  forall l, P l.
Proof.
  intros H0 H1 H2 H3 l.
  assert (H : P l /\ (forall a, P (a :: l)) /\ (forall a b, P (a :: b :: l))).
  { induction l as [|x l [IH0 [IH1 IH2]]]; [by auto|].
    split; [apply IH1|]. split; [intros a; apply IH2|].
    intros a b. by apply H3. }
  apply H.
Qed.

Lemma dec_groups_enc_groups (l : list ascii) : dec_groups (enc_groups l) = l.
Proof.
  induction l as [|a|a b|a b c l IH] using list_ind3.
  - done.
  - by destruct a.
  - by destruct a, b.
  - destruct a, b, c. cbn [enc_groups enc3 dec_groups dec4]. by rewrite IH.
Qed.

Lemma enc_groups_length (l : list ascii) :
  exists k r, length (enc_groups l) = 4 * k + r /\ (r = 0 \/ r = 2 \/ r = 3) /\
              r + length (padding l) = (if decide (r = 0) then 0 else 4).
Proof.
  induction l as [|a|a b|a b c l (k & r & Hl & Hr & Hp)] using list_ind3.
  - exists 0, 0. by auto.
  - exists 0, 2. destruct a. by auto.
  - exists 0, 3. destruct a, b. by auto.
  - exists (S k), r. destruct a, b, c.
    cbn [enc_groups enc3 padding length]. rewrite Hl. split; [lia|done].
Qed.

Lemma mod4_of (k r : nat) : r < 4 -> (4 * k + r) mod 4 = r.
Proof.
  intros Hr. rewrite Nat.add_comm, Nat.mul_comm, Nat.Div0.mod_add.
  by apply Nat.mod_small.
Qed.

Lemma mapM_sextet_of_char (ss : list sextet) :
  mapM sextet_of_char (map char_of_sextet ss) = Some ss.
Proof.
  induction ss as [|s ss IH]; [done|].
  cbn [map mapM]. rewrite sextet_of_char_of_sextet. cbn.
  by rewrite IH.
Qed.

Lemma filter_whitespace_body (ss : list sextet) :
  List.filter (fun c => negb (is_ascii_whitespace c)) (map char_of_sextet ss)
  = map char_of_sextet ss.
Proof.
  induction ss as [|s ss IH]; [done|].
  cbn [map List.filter]. by rewrite char_of_sextet_not_space, IH.
Qed.

Lemma filter_whitespace_padding (l : list ascii) :
  List.filter (fun c => negb (is_ascii_whitespace c)) (padding l) = padding l.
Proof. induction l as [|a|a b|a b c l IH] using list_ind3; done. Qed.

Lemma drop_eq_body (ss : list sextet) :
  drop_eq (rev (map char_of_sextet ss)) = rev (map char_of_sextet ss).
Proof.
  rewrite <- map_rev. destruct (rev ss) as [|s r]; [done|].
  cbn [map drop_eq]. by rewrite char_of_sextet_not_eq.
Qed.

Lemma strip_padding_btoa (l : list ascii) :
  strip_padding (map char_of_sextet (enc_groups l) ++ padding l)
  = map char_of_sextet (enc_groups l).
Proof.
  unfold strip_padding. rewrite rev_app_distr.
  assert (Hp : padding l = [] \/ padding l = ["="%char] \/ padding l = ["="; "="]%char).
  { induction l as [|a|a b|a b c l IH] using list_ind3; cbn; auto. }
  destruct Hp as [-> | [-> | ->]]; cbn [rev app drop_eq Ascii.eqb Bool.eqb];
    rewrite ?drop_eq_body; apply rev_involutive.
Qed.

(** [atob] inverts [btoa] on every binary string. *)
Lemma atob_btoa (binary : string) : atob (btoa binary) = Ok binary.
Proof.
  unfold atob, btoa. set (l := list_ascii_of_string binary).
  rewrite list_ascii_of_string_of_list_ascii, List.filter_app,
    filter_whitespace_body, filter_whitespace_padding.
  destruct (enc_groups_length l) as (k & r & Hl & Hr & Hp).
  assert (Hlen : length (map char_of_sextet (enc_groups l) ++ padding l) mod 4 = 0).
  { rewrite length_app, length_map, Hl.
    destruct (decide (r = 0)) as [->|].
    - replace (4 * k + 0 + length (padding l)) with (4 * k + 0) by lia.
      by apply mod4_of; lia.
    - replace (4 * k + r + length (padding l)) with (4 * S k + 0) by lia.
      by apply mod4_of; lia. }
  rewrite Hlen. cbn [Nat.eqb]. rewrite strip_padding_btoa, length_map, Hl.
  rewrite mod4_of by lia.
  replace (r =? 1)%nat with false by (symmetry; apply Nat.eqb_neq; lia).
  rewrite mapM_sextet_of_char, dec_groups_enc_groups.
  unfold l. by rewrite string_of_list_ascii_of_string.
Qed.

Lemma append_cons (c : ascii) (s t : string) :
  String c s +:+ t = String c (s +:+ t).
Proof. reflexivity. Qed.

(** The loop of [encode] builds the string of the bytes' characters. *)
Lemma encode_loop (bytes : list byte) (acc : string) :
  fold_left (fun binary b => binary +:+ fromCharCode b) bytes acc
  = acc +:+ string_of_list_ascii (map ascii_of_byte bytes).
Proof.
  revert acc. induction bytes as [|b bytes IH]; intros acc; cbn [fold_left map].
  - cbn [string_of_list_ascii].
    induction acc as [|c acc IHacc]; [done|]. by rewrite append_cons, <- IHacc.
  - rewrite IH. cbn [string_of_list_ascii]. unfold fromCharCode.
    induction acc as [|c acc IHacc]; [done|].
    by rewrite !append_cons, IHacc.
Qed.

Lemma get_list_ascii (s : string) (i : nat) :
  String.get i s = list_ascii_of_string s !! i.
Proof.
  revert i. induction s as [|c s IH]; intros [|i]; cbn; try done.
Qed.

Lemma length_list_ascii (s : string) :
  length (list_ascii_of_string s) = String.length s.
Proof. induction s as [|c s IH]; cbn; [done|]. by rewrite IH. Qed.

(** After [n] rounds the loop of [decode] has filled the first [n] slots. *)
Lemma decode_loop (s : string) (n : nat) (bytes : list byte) :
  n <= String.length s -> length bytes = String.length s ->
  fold_left (fun bytes i => <[i := charCodeAt s i]> bytes) (seq 0 n) bytes
  = take n (map byte_of_ascii (list_ascii_of_string s)) ++ drop n bytes.
Proof.
  intros Hn Hlen. induction n as [|n IH].
  - by rewrite take_0, drop_0.
  - rewrite seq_S, fold_left_app, IH by lia. cbn [fold_left Nat.add].
    assert (Hc : exists c, list_ascii_of_string s !! n = Some c).
    { apply lookup_lt_is_Some. rewrite length_list_ascii. lia. }
    destruct Hc as [c Hc].
    assert (Hb : exists b, bytes !! n = Some b).
    { apply lookup_lt_is_Some. lia. }
    destruct Hb as [b Hb].
    unfold charCodeAt. rewrite get_list_ascii, Hc.
    rewrite (take_S_r _ n (byte_of_ascii c)) by (by rewrite list_lookup_fmap, Hc).
    rewrite (drop_S bytes b n Hb).
    assert (Hk : length (take n (map byte_of_ascii (list_ascii_of_string s))) = n).
    { rewrite length_take, length_map, length_list_ascii. lia. }
    rewrite <- (Nat.add_0_r n) at 1. rewrite <- Hk at 1.
    rewrite insert_app_r. cbn. by rewrite <- app_assoc.
Qed.

End AudioCodecFacts.

(** C10.  The audio-transport codec round-trips: for every byte array,
    [decode] of its [encode] returns the same bytes (and does not raise). *)
Theorem decode_encode_roundtrip (bytes : list byte) :
  AudioCodec.decode (AudioCodec.encode bytes) = Ok bytes.
Proof.
  unfold AudioCodec.decode, AudioCodec.encode.
  rewrite atob_btoa. cbn [mbind res_bind].
  rewrite encode_loop. change ("" +:+ ?x) with x.
  set (s := string_of_list_ascii (map ascii_of_byte bytes)).
  rewrite decode_loop; [|done|by rewrite length_replicate].
  rewrite <- length_list_ascii, <- (length_map byte_of_ascii), firstn_all.
  rewrite drop_ge by (by rewrite length_replicate, length_map).
  rewrite app_nil_r. unfold s.
  rewrite list_ascii_of_string_of_list_ascii, map_map.
  f_equal. rewrite <- (map_id bytes) at 2. apply map_ext.
  apply byte_of_ascii_of_byte.
Qed.

(** * Further properties of the code *)

(** ** The session's life cycle *)

Section LifecycleFacts.
Import ChatBot Lifecycle.
Context {T : Type} `{Clock T} {W : Type}.
Variable onUpdateForm : option (option obj -> W -> res W).
Variable onSubmitForm : option (W -> res W).
Variable raises : Effect (T:=T) -> bool.

Lemma dispatchToolCalls_flags (calls : list FunctionCall) (st : State (T:=T)) (w : W) :
  let st' := (dispatchToolCalls onUpdateForm onSubmitForm calls st w).1.1.1 in
  isLiveConnected st' = isLiveConnected st /\ isConnecting st' = isConnecting st.
Proof.
  cbv zeta. revert st w.
  induction calls as [|fc calls IH]; intros st w; cbn [dispatchToolCalls]; [done|].
  destruct (handleFunctionCall onUpdateForm onSubmitForm fc st w)
    as [[[st1 w1] e]|err] eqn:Hcall; [|done].
  assert (Hst1 : isLiveConnected st1 = isLiveConnected st /\
                 isConnecting st1 = isConnecting st).
  { revert Hcall. unfold handleFunctionCall.
    case_bool_decide; [|case_bool_decide].
    - destruct onUpdateForm as [update|]; [|by intros [= <- _ _]].
      destruct (update (fc_args fc) w); cbn; [|done]. by intros [= <- _ _].
    - destruct onSubmitForm as [submit|]; [|by intros [= <- _ _]].
      destruct (submit w); cbn; [|done]. by intros [= <- _ _].
    - by intros [= <- _ _]. }
  specialize (IH st1 w1).
  destruct (dispatchToolCalls onUpdateForm onSubmitForm calls st1 w1)
    as [[[st2 w2] effs] thrown]. cbn [fst snd] in *.
  destruct IH as [-> ->]. exact Hst1.
Qed.

Lemma onmessage_flags (now : T) (message : LiveServerMessage) (st : State (T:=T)) (w : W) :
  let st' := (onmessage onUpdateForm onSubmitForm now message st w).1.1.1 in
  isLiveConnected st' = isLiveConnected st /\ isConnecting st' = isConnecting st.
Proof.
  cbv zeta. unfold onmessage.
  set (st0 := match outputTranscription message with
              | Some transcription =>
                  set_caption (appendCaption transcription (liveCaption st)) st
              | None => st
              end).
  assert (H0 : isLiveConnected st0 = isLiveConnected st /\
               isConnecting st0 = isConnecting st).
  { unfold st0. by destruct (outputTranscription message). }
  assert (H1 : isLiveConnected (playMessage now message st0).1.1 = isLiveConnected st0 /\
               isConnecting (playMessage now message st0).1.1 = isConnecting st0).
  { unfold playMessage.
    destruct (inlineData message) as [[base64Audio|]|e]; [|done..].
    destruct (audioContextRef st0) as [ctx|]; [|done].
    destruct (truthy (Some base64Audio)); [|done].
    unfold playAudio.
    by destruct (audioBytes ← AudioCodec.decode base64Audio; decodeAudioData audioBytes). }
  destruct (playMessage now message st0) as [[st1 effs1] thrown]. cbn [fst snd] in H1.
  destruct H0 as [H0a H0b], H1 as [H1a H1b].
  destruct thrown as [e|]; [cbn; by rewrite H1a, H1b|].
  destruct (toolCall message) as [calls|]; [|cbn; by rewrite H1a, H1b].
  pose proof (dispatchToolCalls_flags calls st1 w) as H2. cbv zeta in H2.
  destruct (dispatchToolCalls onUpdateForm onSubmitForm calls st1 w)
    as [[[st2 w2] sent] thrown]. cbn [fst snd] in *.
  destruct H2 as [-> ->]. by rewrite H1a, H1b.
Qed.

Lemma step_flags_exclusive (e : Event) (st : State (T:=T)) (w : W) :
  flags_exclusive st ->
  flags_exclusive (step onUpdateForm onSubmitForm raises e st w).1.1.
Proof.
  unfold flags_exclusive. intros Hst. destruct e; cbn [step].
  - unfold startLiveSession.
    destruct (isLiveConnected st) eqn:Hc; [cbn; by intros [? ?]|].
    destruct (isConnecting st) eqn:Hg; [cbn; rewrite Hc; by intros [? ?]|].
    destruct (acquireStream env); [|cbn; by intros [? ?]].
    destruct (env_inputContext env); [|cbn; by intros [? ?]].
    destruct (env_outputContext env); [|cbn; by intros [? ?]].
    destruct (env_session env); cbn; by intros [? ?].
  - unfold clickMainButton.
    destruct (isLiveConnected st) eqn:Hc; [cbn; by intros [? ?]|].
    destruct (isConnecting st) eqn:Hg; cbn; rewrite Hc; by intros [? ?].
  - done.
  - cbn. by intros [? ?].
  - pose proof (onmessage_flags now message st w) as Hm. cbv zeta in Hm.
    destruct (onmessage onUpdateForm onSubmitForm now message st w)
      as [[[st1 w1] effs] thrown]. cbn [fst snd] in *.
    destruct Hm as [-> ->]. exact Hst.
  - cbn. by intros [? ?].
  - cbn. by intros [? ?].
  - done.
  - done.
Qed.

Lemma chained_from_last (c x : T) (chunks : list (T * T)) :
  chained_from c (chunks ++ [(x, t_zero)]) -> t_le c x.
Proof.
  revert c. induction chunks as [|[start duration] chunks IH]; intros c; cbn.
  - by intros (? & _).
  - intros (Hc & Hd & Hrest). apply t_le_trans with start; [done|].
    apply t_le_trans with (t_add start duration); [by apply t_add_nonneg|].
    by apply IH.
Qed.

Lemma extends_cursor (st st' : State (T:=T)) (effs : list Effect) :
  extends st st' effs -> t_le (nextStartTimeRef st) (nextStartTimeRef st').
Proof.
  intros Hext. apply (chained_from_last _ _ (schedule effs)). apply Hext.
  cbn. split; [apply t_le_refl|]. split; [apply t_le_refl|done].
Qed.

Lemma step_cursor (e : Event) (st : State (T:=T)) (w : W) :
  t_le (nextStartTimeRef st)
       (nextStartTimeRef (step onUpdateForm onSubmitForm raises e st w).1.1).
Proof.
  destruct e; cbn [step]; try apply t_le_refl.
  - unfold startLiveSession.
    destruct (isLiveConnected st); [apply t_le_refl|].
    destruct (isConnecting st); [apply t_le_refl|].
    destruct (acquireStream env); [|apply t_le_refl].
    destruct (env_inputContext env); [|apply t_le_refl].
    destruct (env_outputContext env); [|apply t_le_refl].
    destruct (env_session env); apply t_le_refl.
  - unfold clickMainButton.
    destruct (isLiveConnected st); [apply t_le_refl|].
    destruct (isConnecting st); apply t_le_refl.
  - pose proof (onmessage_extends onUpdateForm onSubmitForm now message st w) as Hm.
    apply extends_cursor in Hm.
    by destruct (onmessage onUpdateForm onSubmitForm now message st w)
      as [[[st1 w1] effs] thrown].
Qed.

Lemma run_flags_exclusive (events : list Event) (st : State (T:=T)) (w : W) :
  flags_exclusive st ->
  flags_exclusive (run onUpdateForm onSubmitForm raises events st w).1.1.
Proof.
  revert st w. induction events as [|e events IH]; intros st w Hst; cbn [run]; [done|].
  pose proof (step_flags_exclusive e st w Hst) as Hstep.
  destruct (step onUpdateForm onSubmitForm raises e st w) as [[st1 w1] effs].
  specialize (IH st1 w1 Hstep).
  by destruct (run onUpdateForm onSubmitForm raises events st1 w1) as [[st2 w2] later].
Qed.

Lemma run_cursor (events : list Event) (st : State (T:=T)) (w : W) :
  t_le (nextStartTimeRef st)
       (nextStartTimeRef (run onUpdateForm onSubmitForm raises events st w).1.1).
Proof.
  revert st w. induction events as [|e events IH]; intros st w; cbn [run];
    [apply t_le_refl|].
  pose proof (step_cursor e st w) as Hstep.
  destruct (step onUpdateForm onSubmitForm raises e st w) as [[st1 w1] effs].
  specialize (IH st1 w1).
  destruct (run onUpdateForm onSubmitForm raises events st1 w1) as [[st2 w2] later].
  by apply t_le_trans with (nextStartTimeRef st1).
Qed.

End LifecycleFacts.

(** X1.  Whatever the buttons, the session callbacks and the renders do, in
    any order, from the first render on: the component is never connected
    and connecting at the same time. *)
Theorem never_connected_and_connecting {T : Type} `{Clock T} {W : Type}
    (onUpdateForm : option (option obj -> W -> res W))
    (onSubmitForm : option (W -> res W))
    (raises : ChatBot.Effect (T:=T) -> bool)
    (events : list Lifecycle.Event) (currentData : option obj) (w : W) :
  Lifecycle.flags_exclusive
    (Lifecycle.run onUpdateForm onSubmitForm raises events
       (ChatBot.initialState currentData) w).1.1.
Proof.
  apply run_flags_exclusive. unfold Lifecycle.flags_exclusive. cbn. by intros [? ?].
Qed.

(** X2.  The playback cursor never goes back: after any sequence of events,
    teardowns and new sessions included, it is at least what it was. *)
Theorem cursor_never_decreases {T : Type} `{Clock T} {W : Type}
    (onUpdateForm : option (option obj -> W -> res W))
    (onSubmitForm : option (W -> res W))
    (raises : ChatBot.Effect (T:=T) -> bool)
    (events : list Lifecycle.Event) (st : ChatBot.State) (w : W) :
  t_le (ChatBot.nextStartTimeRef st)
       (ChatBot.nextStartTimeRef
          (Lifecycle.run onUpdateForm onSubmitForm raises events st w).1.1).
Proof. apply run_cursor. Qed.

(** ** Starting a session *)

(** X3.  A start that fails before the stream is there (no API key, no
    [getUserMedia], or [getUserMedia] rejects) acquires nothing: only release
    calls are made, the component ends idle with the chat window open, and
    exactly two messages are appended, the categorised error and the support
    line.  A missing API key is reported as such. *)
Theorem failed_start_acquires_nothing {T : Type} (raises : ChatBot.Effect (T:=T) -> bool)
    (env : ChatBot.StartEnv) (st : ChatBot.State) (e : exn) :
  ChatBot.isLiveConnected st = false ->
  ChatBot.isConnecting st = false ->
  ChatBot.acquireStream env = Throw e ->
  let result := ChatBot.startLiveSession raises env st in
  ChatBot.idle result.1 /\
  ChatBot.isOpen result.1 = true /\
  ChatBot.messages result.1
  = ChatBot.messages st ++
    [ChatBot.mkMessage ChatBot.model (ChatBot.startErrorMessage e) None;
     ChatBot.mkMessage ChatBot.model ChatBot.SUPPORT_MSG None] /\
  Forall ChatBot.is_release result.2 /\
  (ChatBot.env_API_KEY env = false ->
   ChatBot.startErrorMessage e = "⚠️ API Key is missing.").
Proof.
  intros Hc Hg He. cbv zeta. unfold ChatBot.startLiveSession.
  rewrite Hc, Hg, He.
  split; [by repeat split|]. split; [done|]. split; [done|].
  split.
  - apply (disconnect_releases_only raises).
  - intros Hkey. unfold ChatBot.acquireStream in He. rewrite Hkey in He.
    cbn in He. by injection He as <-.
Qed.

Lemma failed_start_acquires_nothing_witness :
  ChatBot.messages
    (ChatBot.startLiveSession never_raises example_env_no_key
       (ChatBot.initialState (T:=Z) None)).1
  = ChatBot.messages (ChatBot.initialState (T:=Z) None) ++
    [ChatBot.mkMessage ChatBot.model "⚠️ API Key is missing." None;
     ChatBot.mkMessage ChatBot.model ChatBot.SUPPORT_MSG None].
Proof.
  destruct (failed_start_acquires_nothing never_raises example_env_no_key
              (ChatBot.initialState (T:=Z) None)
              (Exn "Error" "API Key is missing. Please check your environment variables.")
              eq_refl eq_refl eq_refl) as (_ & _ & Hmsgs & _ & _).
  exact Hmsgs.
Defined.

Section StartFacts.
Import ChatBot.
Context {T : Type}.

Lemma run_effects_app (world : World) (first later : list (Effect (T:=T))) :
  run_effects world (first ++ later) = run_effects (run_effects world first) later.
Proof. apply fold_left_app. Qed.

(** Release calls start no stream: a stream that does not run stays so. *)
Lemma release_keeps_stopped (stream : nat) (effs : list (Effect (T:=T))) (world : World) :
  Forall is_release effs ->
  stream ∉ live_streams world -> stream ∉ live_streams (run_effects world effs).
Proof.
  intros Heffs. revert world.
  induction Heffs as [|eff effs Heff _ IH]; intros world Hw; [done|].
  cbn [run_effects fold_left]. apply IH.
  destruct eff; cbn in Heff |- *; try done. set_solver.
Qed.

(** The teardown of the [catch] block stops the stream that the handle
    names, where no release call raises. *)
Lemma startFailed_stops_stream (raises : Effect (T:=T) -> bool) (e : exn)
    (acquired : list Effect) (st : State) (stream : nat) (world : World) :
  (forall eff, raises eff = false) ->
  mediaStreamRef st = Some stream ->
  stream ∉ live_streams (run_effects world (startFailed raises e acquired st).2).
Proof.
  intros Hr Hstream. unfold startFailed, disconnectLiveSession. cbn [snd].
  rewrite attempt_no_raise by done.
  cbn [mediaStreamRef sessionRef audioContextRef inputAudioContextRef set_flags].
  rewrite Hstream. cbn [when_set app].
  rewrite run_effects_app. cbn [run_effects fold_left].
  apply (release_keeps_stopped stream).
  - destruct (sessionRef st), (audioContextRef st), (inputAudioContextRef st);
      cbn; repeat constructor.
  - cbn. set_solver.
Qed.

End StartFacts.

(** X4.  A start from a component that is neither connected nor connecting,
    where the stream is granted.  When both audio contexts are made and
    [connect] returns, the start makes the four acquisitions and no release
    call: the handles name the new stream, contexts and session, and every
    resource that was live before is still live, also one that the handles
    named before; the [onopen] that follows shows the voice button with the
    caption "Listening..." and closes the chat window.  When a constructor
    or [connect] raises instead, the [catch] block tears down: the component
    ends idle with the chat window open and the two messages of the error,
    and the stream that was granted is stopped (where no release call
    raises). *)
Theorem successful_start_releases_nothing {T : Type} (raises : ChatBot.Effect (T:=T) -> bool)
    (env : ChatBot.StartEnv) (st : ChatBot.State) (stream : nat) (world : ChatBot.World) :
  ChatBot.isLiveConnected st = false ->
  ChatBot.isConnecting st = false ->
  ChatBot.acquireStream env = Ok stream ->
  let result := ChatBot.startLiveSession raises env st in
  (forall input output session,
     ChatBot.env_inputContext env = Ok input ->
     ChatBot.env_outputContext env = Ok output ->
     ChatBot.env_session env = Ok session ->
     result.2 = [ChatBot.GetUserMedia stream; ChatBot.NewAudioContext input;
                 ChatBot.NewAudioContext output; ChatBot.Connect session] /\
     ChatBot.isConnecting result.1 = true /\
     ChatBot.held result.1
     = ChatBot.mkWorld {[stream]} ({[output]} ∪ {[input]}) {[session]} /\
     ChatBot.live_streams world
       ⊆ ChatBot.live_streams (ChatBot.run_effects world result.2) /\
     ChatBot.open_contexts world
       ⊆ ChatBot.open_contexts (ChatBot.run_effects world result.2) /\
     ChatBot.open_sessions world
       ⊆ ChatBot.open_sessions (ChatBot.run_effects world result.2) /\
     ChatBot.render (ChatBot.onopen result.1)
     = ChatBot.mkView false (ChatBot.messages st) false
         (ChatBot.VoiceActive "Listening...")) /\
  (forall e,
     ChatBot.env_inputContext env = Throw e
     \/ (exists input,
           ChatBot.env_inputContext env = Ok input /\
           ChatBot.env_outputContext env = Throw e)
     \/ (exists input output,
           ChatBot.env_inputContext env = Ok input /\
           ChatBot.env_outputContext env = Ok output /\
           ChatBot.env_session env = Throw e) ->
     ChatBot.idle result.1 /\
     ChatBot.isOpen result.1 = true /\
     ChatBot.messages result.1
     = ChatBot.messages st ++
       [ChatBot.mkMessage ChatBot.model (ChatBot.startErrorMessage e) None;
        ChatBot.mkMessage ChatBot.model ChatBot.SUPPORT_MSG None] /\
     ((forall eff, raises eff = false) ->
      stream ∉ ChatBot.live_streams (ChatBot.run_effects world result.2))).
Proof.
  intros Hc Hg Hs. cbv zeta. unfold ChatBot.startLiveSession.
  rewrite Hc, Hg, Hs. split.
  - intros input output session -> -> ->. cbn.
    repeat split; try done; set_solver.
  - intros e [->|[(input & -> & ->)|(input & output & -> & -> & ->)]];
      (split; [by repeat split|]); (split; [done|]); (split; [done|]);
      intros Hr; by apply startFailed_stops_stream.
Qed.

Lemma successful_start_releases_nothing_witness :
  1 ∈ ChatBot.live_streams
        (ChatBot.run_effects (ChatBot.held example_open)
           (ChatBot.startLiveSession never_raises example_env
              (ChatBot.onclose example_open)).2).
Proof.
  destruct (successful_start_releases_nothing never_raises example_env
              (ChatBot.onclose example_open) 5 (ChatBot.held example_open)
              eq_refl eq_refl eq_refl) as [Hstarted _].
  destruct (Hstarted 7 6 8 eq_refl eq_refl eq_refl) as (_ & _ & _ & Hstreams & _).
  apply Hstreams. cbn. set_solver.
Defined.

(** The constructor of the output context raises after the stream is
    granted and the input context is made: the stream is stopped and the
    input context is closed again, and the error is shown. *)
Example start_with_failing_constructor :
  ChatBot.startLiveSession never_raises example_env_no_context
    (ChatBot.initialState (T:=Z) None)
  = (ChatBot.set_chat true
       (ChatBot.messages (ChatBot.initialState (T:=Z) None) ++
        [ChatBot.mkMessage ChatBot.model "⚠️ Error: The hardware is busy" None;
         ChatBot.mkMessage ChatBot.model ChatBot.SUPPORT_MSG None])
       (ChatBot.initialState None),
     [ChatBot.GetUserMedia 5; ChatBot.NewAudioContext 7;
      ChatBot.StopTracks 5; ChatBot.CloseContext 7]).
Proof. reflexivity. Qed.

(** ** The caption *)

Section CaptionFacts.
Import ChatBot.

Lemma length_append (s t : string) :
  String.length (s +:+ t) = String.length s + String.length t.
Proof.
  induction s as [|c s IH]; [done|].
  rewrite append_cons. cbn [String.length]. by rewrite IH.
Qed.

Lemma appendCaption_bound (transcription : option string) (prev : string) :
  String.length (appendCaption transcription prev)
  <= 100 + String.length (default "" transcription).
Proof.
  unfold appendCaption. cbv zeta. rewrite length_append.
  destruct (100 <? String.length prev)%nat eqn:Hlong; cbn.
  - lia.
  - apply Nat.ltb_ge in Hlong. lia.
Qed.

End CaptionFacts.

(** X5.  The caption stays short: while every transcript fragment has at
    most [k] characters, the caption never has more than [100 + k], however
    many fragments arrive. *)
Theorem caption_stays_bounded (k : nat) (fragments : list (option string))
    (caption : string) :
  Forall (fun t => String.length (default "" t) <= k) fragments ->
  String.length caption <= 100 + k ->
  String.length (fold_left (fun c t => ChatBot.appendCaption t c) fragments caption)
  <= 100 + k.
Proof.
  intros Hfragments. revert caption.
  induction Hfragments as [|t fragments Ht _ IH]; intros caption Hc; cbn [fold_left];
    [done|].
  apply IH. pose proof (appendCaption_bound t caption). lia.
Qed.

Lemma caption_stays_bounded_witness :
  String.length
    (fold_left (fun c t => ChatBot.appendCaption t c)
       [Some "What is the name "; None; Some "of your school?"] "Listening...")
  <= 100 + 20.
Proof.
  apply (caption_stays_bounded 20).
  - repeat constructor; cbn; lia.
  - cbn. lia.
Defined.

(** ** The replies of the tool dispatch *)

Section ReplyFacts.
Import ChatBot Lifecycle SchoolForm.
Context {T : Type}.

Lemma handleFunctionCall_reply (fc : FunctionCall) (st : State (T:=T)) (w : FormState) :
  is_Some (fc_args fc) ->
  exists st' w',
    handleFunctionCall (Some handleVoiceUpdate) (Some onSubmitForm) fc st w
    = Ok (st', w', SendToolResponse (replyTo (currentDataRef st) fc)) /\
    currentDataRef st' = currentDataRef st.
Proof.
  intros [args Hargs]. unfold handleFunctionCall, replyTo. rewrite Hargs.
  case_bool_decide; [|case_bool_decide]; cbn; by do 2 eexists.
Qed.

Lemma dispatchToolCalls_replies (calls : list FunctionCall) (st : State (T:=T))
    (w : FormState) :
  Forall (fun fc => is_Some (fc_args fc)) calls ->
  exists st' w',
    dispatchToolCalls (Some handleVoiceUpdate) (Some onSubmitForm) calls st w
    = (st', w', map (fun fc => SendToolResponse (replyTo (currentDataRef st) fc)) calls,
       None).
Proof.
  intros Hcalls. revert st w.
  induction Hcalls as [|fc calls Hfc _ IH]; intros st w; cbn [dispatchToolCalls map].
  - by do 2 eexists.
  - destruct (handleFunctionCall_reply fc st w Hfc) as (st1 & w1 & -> & Hsnap).
    destruct (IH st1 w1) as (st2 & w2 & ->). rewrite Hsnap. by do 2 eexists.
Qed.

Lemma responses_map (f : FunctionCall -> FunctionResponse) (calls : list FunctionCall) :
  responses (T:=T) (map (fun fc => SendToolResponse (f fc)) calls) = map f calls.
Proof. induction calls as [|fc calls IH]; cbn; [done|]. by rewrite <- IH. Qed.

(** The certificate that the level rule empties does not count for the
    level "Primary (1-5)". *)
Lemma getNextMissingField_cleared (data : obj) :
  data !! "level" = Some "Primary (1-5)" ->
  FieldOrder.getNextMissingField (Some (<["registrationCertificateUpper" := ""]> data))
  = FieldOrder.getNextMissingField (Some data).
Proof.
  intros Hl. unfold FieldOrder.getNextMissingField, FieldOrder.INTERVIEW_ORDER.
  cbn [FieldOrder.first_missing FieldOrder.key FieldOrder.label].
  rewrite !lookup_insert_ne by done. rewrite Hl.
  rewrite !bool_decide_eq_false_2 by done. done.
Qed.

End ReplyFacts.

(** X6.  With the form of SchoolForm.tsx as owner, the responses to the calls
    of one message are given by the record that [currentDataRef] held when
    the message arrived: the reply to an update names the next missing field
    of that record merged with the arguments of that call alone, so what an
    earlier call of the same message filled in does not show in a later
    reply. *)
Theorem replies_use_snapshot {T : Type} (calls : list ChatBot.FunctionCall)
    (st : ChatBot.State (T:=T)) (w : SchoolForm.FormState) :
  Forall (fun fc => is_Some (ChatBot.fc_args fc)) calls ->
  ChatBot.responses
    (ChatBot.dispatchToolCalls (Some SchoolForm.handleVoiceUpdate)
       (Some SchoolForm.onSubmitForm) calls st w).1.2
  = map (Lifecycle.replyTo (ChatBot.currentDataRef st)) calls.
Proof.
  intros Hcalls.
  destruct (dispatchToolCalls_replies calls st w Hcalls) as (st' & w' & ->).
  cbn [fst snd]. apply responses_map.
Qed.

Lemma replies_use_snapshot_witness :
  ChatBot.responses
    (ChatBot.dispatchToolCalls (T:=Z) (Some SchoolForm.handleVoiceUpdate)
       (Some SchoolForm.onSubmitForm) example_two_updates
       (ChatBot.initialState (Some SchoolForm.INITIAL_DATA))
       SchoolForm.initialFormState).1.2
  = [ ChatBot.mkFunctionResponse (Some "call-1") (Some "update_school_data")
        (ChatBot.nextFieldResult "UDISE Code");
      ChatBot.mkFunctionResponse (Some "call-2") (Some "update_school_data")
        (ChatBot.nextFieldResult "School Name") ].
Proof.
  rewrite (replies_use_snapshot (T:=Z) example_two_updates).
  - vm_compute. reflexivity.
  - repeat constructor; eexists; reflexivity.
Defined.

Lemma next_field_after_merge (prev args : obj) :
  FieldOrder.getNextMissingField (Some (args ∪ prev))
  = FieldOrder.getNextMissingField (Some (SchoolForm.mergeUpdates prev args)).
Proof.
  unfold SchoolForm.mergeUpdates.
  destruct (truthy (args !! "level")) eqn:Ht; cbn [andb]; [|done].
  case_bool_decide as Hl; [|done].
  symmetry. apply getNextMissingField_cleared.
  by rewrite lookup_union_l'.
Qed.

(** X7.  When [currentDataRef] holds the record of the form, the field that
    the reply to an update names is the next missing field of the record as
    the update leaves it, the level rule included. *)
Theorem reply_names_next_field_of_updated_record {T : Type}
    (id : option string) (args : obj) (st : ChatBot.State (T:=T))
    (w : SchoolForm.FormState) :
  ChatBot.currentDataRef st = Some (SchoolForm.formData w) ->
  exists st' w',
    ChatBot.handleFunctionCall (Some SchoolForm.handleVoiceUpdate)
      (Some SchoolForm.onSubmitForm)
      (ChatBot.mkFunctionCall id (Some "update_school_data") (Some args)) st w
    = Ok (st', w',
          ChatBot.SendToolResponse
            (ChatBot.mkFunctionResponse id (Some "update_school_data")
               (ChatBot.nextFieldResult
                  (FieldOrder.getNextMissingField (Some (SchoolForm.formData w')))))).
Proof.
  intros Hsnap.
  exists (ChatBot.set_caption "" st),
    (SchoolForm.mkFormState (SchoolForm.mergeUpdates (SchoolForm.formData w) args)
       (SchoolForm.errors w ∖ args) (SchoolForm.submitCalls w)).
  unfold ChatBot.handleFunctionCall.
  cbn [ChatBot.fc_name ChatBot.fc_args ChatBot.fc_id SchoolForm.formData].
  rewrite bool_decide_eq_true_2 by reflexivity.
  unfold SchoolForm.handleVoiceUpdate. cbn [mbind res_bind default].
  rewrite Hsnap. cbn [default]. rewrite next_field_after_merge.
  reflexivity.
Qed.

Lemma reply_names_next_field_of_updated_record_witness :
  exists st' w',
    ChatBot.handleFunctionCall (T:=Z) (Some SchoolForm.handleVoiceUpdate)
      (Some SchoolForm.onSubmitForm)
      (ChatBot.mkFunctionCall (Some "call-1") (Some "update_school_data")
         (Some example_lowering))
      (ChatBot.initialState (Some (SchoolForm.formData example_upper_form)))
      example_upper_form
    = Ok (st', w',
          ChatBot.SendToolResponse
            (ChatBot.mkFunctionResponse (Some "call-1") (Some "update_school_data")
               (ChatBot.nextFieldResult
                  (FieldOrder.getNextMissingField (Some (SchoolForm.formData w')))))).
Proof.
  apply (reply_names_next_field_of_updated_record (T:=Z)). reflexivity.
Defined.

(** ** Audio chunks from the wire to the schedule *)

Section ChunkFacts.
Import AudioCodec ChatBot.
Context {T : Type} `{Clock T} {W : Type}.
Variable onUpdateForm : option (option obj -> W -> res W).
Variable onSubmitForm : option (W -> res W).

Lemma enc_groups_cons (a : ascii) (l : list ascii) : enc_groups (a :: l) <> [].
Proof.
  destruct l as [|x [|y l]]; destruct a; [done| |].
  - by destruct x.
  - by destruct x, y.
Qed.

(** The encoding of a byte array that is not empty is not the empty string. *)
Lemma encode_truthy (bytes : list byte) :
  bytes <> [] -> truthy (Some (encode bytes)) = true.
Proof.
  intros Hne. unfold encode. rewrite encode_loop. change ("" +:+ ?x) with x.
  unfold btoa. rewrite list_ascii_of_string_of_list_ascii.
  destruct bytes as [|b bytes]; [done|]. cbn [map].
  pose proof (enc_groups_cons (ascii_of_byte b) (map ascii_of_byte bytes)) as Hg.
  destruct (enc_groups (ascii_of_byte b :: map ascii_of_byte bytes)) as [|s ss]; done.
Qed.

(** [decode] inverts [encode]. *)
Lemma decode_of_encode (bytes : list byte) : decode (encode bytes) = Ok bytes.
Proof.
  unfold decode, encode. rewrite atob_btoa. cbn [mbind res_bind].
  rewrite encode_loop. change ("" +:+ ?x) with x.
  set (s := string_of_list_ascii (map ascii_of_byte bytes)).
  rewrite decode_loop; [|done|by rewrite length_replicate].
  rewrite <- length_list_ascii, <- (length_map byte_of_ascii), firstn_all.
  rewrite drop_ge by (by rewrite length_replicate, length_map).
  rewrite app_nil_r. unfold s.
  rewrite list_ascii_of_string_of_list_ascii, map_map.
  f_equal. rewrite <- (map_id bytes) at 2. apply map_ext.
  apply byte_of_ascii_of_byte.
Qed.

Lemma decodeAudioData_even (bytes : list byte) :
  bytes <> [] -> length bytes mod 2 = 0 ->
  decodeAudioData bytes = Ok (length bytes / 2).
Proof.
  intros Hne Heven. unfold decodeAudioData. rewrite Heven. cbn [Nat.eqb negb].
  destruct (length bytes / 2 =? 0)%nat eqn:Hz; [|done].
  apply Nat.eqb_eq in Hz. destruct bytes as [|b [|b2 bytes]]; [done|done|].
  cbn [length] in Hz.
  pose proof (Nat.div_mod_eq (S (S (length bytes))) 2). cbn [length] in Heven. lia.
Qed.

End ChunkFacts.

(** X8.  A chunk of PCM bytes of even, positive length that arrives as its
    [encode]-d text while an output context is there is scheduled as one
    buffer source of half as many frames, starting at the maximum of the
    cursor and the current time; the handler does not raise. *)
Theorem encoded_chunk_is_scheduled {T : Type} `{Clock T} {W : Type}
    (onUpdateForm : option (option obj -> W -> res W))
    (onSubmitForm : option (W -> res W))
    (now : T) (bytes : list byte) (ctx : nat) (st : ChatBot.State) (w : W) :
  bytes <> [] ->
  length bytes mod 2 = 0 ->
  ChatBot.audioContextRef st = Some ctx ->
  ChatBot.onmessage onUpdateForm onSubmitForm now
    (ChatBot.mkLiveServerMessage None (Some (AudioCodec.encode bytes)) None) st w
  = ((ChatBot.scheduleBuffer ctx (t_frames (length bytes / 2))
        (ChatBot.advanceCursor now st)).1, w,
     [ChatBot.StartSource (ChatBot.sourceCounter st) ctx
        (t_max (ChatBot.nextStartTimeRef st) now) (t_frames (length bytes / 2))],
     None).
Proof.
  intros Hne Heven Hctx.
  unfold ChatBot.onmessage, ChatBot.playMessage, ChatBot.mkLiveServerMessage,
    ChatBot.inlineData.
  cbn [ChatBot.outputTranscription ChatBot.modelTurn ChatBot.parts ChatBot.toolCall].
  rewrite Hctx, (encode_truthy bytes Hne). unfold ChatBot.playAudio.
  rewrite decode_of_encode. cbn [mbind res_bind].
  by rewrite (decodeAudioData_even bytes Hne Heven).
Qed.

Lemma encoded_chunk_is_scheduled_witness :
  ChatBot.schedule
    (ChatBot.onmessage (T:=Z) (W:=unit) None None 5%Z
       (ChatBot.mkLiveServerMessage None
          (Some (AudioCodec.encode [x00; x01; x00; x02; x00; x03])) None)
       example_open tt).1.2
  = [(48000%Z, 3%Z)].
Proof.
  rewrite (encoded_chunk_is_scheduled (T:=Z) (W:=unit) None None 5%Z
             [x00; x01; x00; x02; x00; x03] 2 example_open tt).
  - reflexivity.
  - discriminate.
  - reflexivity.
  - reflexivity.
Defined.

(** X9.  Audio that does not decode ends the handler: where the audio data
    of a message is not base64, or decodes to an odd number of bytes or to
    none, the tool calls of the same message are not dispatched.  No response
    is sent, the owner is not called, and only the cursor has moved, to the
    maximum of itself and the current time. *)
Theorem undecodable_audio_drops_tool_calls {T : Type} `{Clock T} {W : Type}
    (onUpdateForm : option (option obj -> W -> res W))
    (onSubmitForm : option (W -> res W))
    (now : T) (base64Audio : string) (calls : list ChatBot.FunctionCall)
    (ctx : nat) (st : ChatBot.State) (w : W) (e : exn) :
  ChatBot.audioContextRef st = Some ctx ->
  truthy (Some base64Audio) = true ->
  (audioBytes ← AudioCodec.decode base64Audio; ChatBot.decodeAudioData audioBytes)
  = Throw e ->
  ChatBot.onmessage onUpdateForm onSubmitForm now
    (ChatBot.mkLiveServerMessage None (Some base64Audio) (Some calls)) st w
  = (ChatBot.advanceCursor now st, w, [], Some e).
Proof.
  intros Hctx Htruthy Hthrow.
  unfold ChatBot.onmessage, ChatBot.playMessage, ChatBot.mkLiveServerMessage,
    ChatBot.inlineData.
  cbn [ChatBot.outputTranscription ChatBot.modelTurn ChatBot.parts ChatBot.toolCall].
  rewrite Hctx, Htruthy. unfold ChatBot.playAudio. by rewrite Hthrow.
Qed.

Lemma undecodable_audio_drops_tool_calls_witness :
  ChatBot.onmessage (T:=Z) (Some SchoolForm.handleVoiceUpdate)
    (Some SchoolForm.onSubmitForm) 5%Z
    (ChatBot.mkLiveServerMessage None (Some "AAAA") (Some example_calls))
    example_open SchoolForm.initialFormState
  = (ChatBot.advanceCursor 5%Z example_open, SchoolForm.initialFormState, [],
     Some (Exn "RangeError" "byte length of Int16Array should be a multiple of 2")).
Proof.
  apply (undecodable_audio_drops_tool_calls (T:=Z)
           (Some SchoolForm.handleVoiceUpdate) (Some SchoolForm.onSubmitForm) 5%Z
           "AAAA" example_calls 2); reflexivity.
Defined.

(** ** Regular expressions: the test and the words *)

Section RegexFacts.
Import JsString.

Lemma matches_Never_inv (l : list ascii) : ~ matches Never l.
Proof. intros Hm. inversion Hm. Qed.

Lemma matches_Empty_inv (l : list ascii) : matches Empty l <-> l = [].
Proof. split; [intros Hm; by inversion Hm | intros ->; constructor]. Qed.

Lemma matches_Class_inv (p : ascii -> bool) (l : list ascii) :
  matches (Class p) l <-> exists c, l = [c] /\ p c = true.
Proof.
  split.
  - intros Hm. inversion Hm; subst. by eexists.
  - intros (c & -> & Hp). by constructor.
Qed.

Lemma matches_Seq_inv (r1 r2 : regex) (l : list ascii) :
  matches (Seq r1 r2) l <->
  exists l1 l2, l = l1 ++ l2 /\ matches r1 l1 /\ matches r2 l2.
Proof.
  split.
  - intros Hm. inversion Hm; subst. by do 2 eexists.
  - intros (l1 & l2 & -> & H1 & H2). by constructor.
Qed.

Lemma matches_Alt_inv (r1 r2 : regex) (l : list ascii) :
  matches (Alt r1 r2) l <-> matches r1 l \/ matches r2 l.
Proof.
  split.
  - intros Hm. inversion Hm; subst; auto.
  - intros [H1|H2]; [by apply matches_Alt_l | by apply matches_Alt_r].
Qed.

(** A word of [r*] that is not empty starts with a word of [r] that is not
    empty. *)
Lemma matches_Star_cons (r : regex) (c : ascii) (l : list ascii) :
  matches (Star r) (c :: l) <->
  exists l1 l2, l = l1 ++ l2 /\ matches r (c :: l1) /\ matches (Star r) l2.
Proof.
  split.
  - intros Hm. remember (Star r) as r' eqn:Hr. remember (c :: l) as w eqn:Hw.
    revert l Hw. induction Hm as [| | | | | |r0 l1 l2 H1 _ H2 IH2]; try discriminate.
    injection Hr as ->. intros l Hw. destruct l1 as [|c1 l1].
    + cbn in Hw. by apply IH2.
    + cbn in Hw. injection Hw as -> <-. by exists l1, l2.
  - intros (l1 & l2 & -> & H1 & H2).
    change (c :: l1 ++ l2) with ((c :: l1) ++ l2). by constructor.
Qed.

Lemma nullable_matches (r : regex) : nullable r = true <-> matches r [].
Proof.
  induction r as [| |p|r1 IH1 r2 IH2|r1 IH1 r2 IH2|r IH]; cbn.
  - split; [done|]. intros Hm. inversion Hm.
  - split; [constructor|done].
  - split; [done|]. intros Hm. inversion Hm.
  - rewrite andb_true_iff, IH1, IH2, matches_Seq_inv. split.
    + intros [H1 H2]. by exists [], [].
    + intros (l1 & l2 & Hl & H1 & H2). symmetry in Hl.
      apply app_eq_nil in Hl as [-> ->]. done.
  - by rewrite orb_true_iff, IH1, IH2, matches_Alt_inv.
  - split; [constructor|done].
Qed.

Lemma derive_matches (c : ascii) (r : regex) (l : list ascii) :
  matches (derive c r) l <-> matches r (c :: l).
Proof.
  revert l. induction r as [| |p|r1 IH1 r2 IH2|r1 IH1 r2 IH2|r IH]; intros l; cbn.
  - split; intros Hm; inversion Hm.
  - split; intros Hm; inversion Hm.
  - rewrite matches_Class_inv. destruct (p c) eqn:Hp.
    + rewrite matches_Empty_inv. split.
      * intros ->. by exists c.
      * by intros (c' & [= -> ->] & _).
    + split; [intros Hm; inversion Hm|]. intros (c' & [= -> ->] & Hp'). congruence.
  - assert (Hseq : matches (Seq (derive c r1) r2) l <->
                   exists l1 l2, l = l1 ++ l2 /\ matches r1 (c :: l1) /\ matches r2 l2).
    { rewrite matches_Seq_inv. by setoid_rewrite IH1. }
    rewrite (matches_Seq_inv r1 r2 (c :: l)).
    destruct (nullable r1) eqn:Hn.
    + rewrite matches_Alt_inv, Hseq, IH2. split.
      * intros [(l1 & l2 & -> & H1 & H2)|H2].
        -- by exists (c :: l1), l2.
        -- exists [], (c :: l). split; [done|]. split; [|done].
           by apply nullable_matches.
      * intros (l1 & l2 & Hl & H1 & H2). destruct l1 as [|c1 l1].
        -- right. cbn in Hl. by subst l2.
        -- left. cbn in Hl. injection Hl as -> ->. by exists l1, l2.
    + rewrite Hseq. split.
      * intros (l1 & l2 & -> & H1 & H2). by exists (c :: l1), l2.
      * intros (l1 & l2 & Hl & H1 & H2). destruct l1 as [|c1 l1].
        -- apply nullable_matches in H1. congruence.
        -- cbn in Hl. injection Hl as -> ->. by exists l1, l2.
  - by rewrite !matches_Alt_inv, IH1, IH2.
  - rewrite matches_Seq_inv, matches_Star_cons. by setoid_rewrite IH.
Qed.

(** The test by derivatives decides the words of the expression. *)
Lemma test_matches (r : regex) (value : string) :
  test r value = true <-> matches r (list_ascii_of_string value).
Proof.
  unfold test, derive_all. generalize (list_ascii_of_string value) as l.
  intros l. revert r. induction l as [|c l IH]; intros r; cbn [fold_left].
  - apply nullable_matches.
  - by rewrite IH, derive_matches.
Qed.

Lemma matches_Star_Class (p : ascii -> bool) (l : list ascii) :
  matches (Star (Class p)) l <-> Forall (fun c => p c = true) l.
Proof.
  induction l as [|c l IH].
  - split; constructor.
  - rewrite matches_Star_cons. split.
    + intros (l1 & l2 & -> & H1 & H2). apply matches_Class_inv in H1
        as (c' & [= <- ->] & Hp). constructor; [done|]. by apply IH.
    + intros Hall. inversion Hall as [|? ? Hp Hl]; subst.
      exists [], l. split; [done|]. split; [by constructor | by apply IH].
Qed.

Lemma matches_Plus_Class (p : ascii -> bool) (l : list ascii) :
  matches (Plus (Class p)) l <-> l <> [] /\ Forall (fun c => p c = true) l.
Proof.
  unfold Plus. rewrite matches_Seq_inv. split.
  - intros (l1 & l2 & -> & H1 & H2).
    apply matches_Class_inv in H1 as (c & -> & Hp). split; [done|].
    constructor; [done|]. by apply matches_Star_Class.
  - intros [Hne Hall]. destruct l as [|c l]; [done|].
    inversion Hall as [|? ? Hp Hl]; subst. exists [c], l.
    split; [done|]. split; [by constructor | by apply matches_Star_Class].
Qed.

Lemma matches_Times_Class (p : ascii -> bool) (n : nat) (l : list ascii) :
  matches (Times n (Class p)) l <-> length l = n /\ Forall (fun c => p c = true) l.
Proof.
  revert l. induction n as [|n IH]; intros l; cbn [Times].
  - rewrite matches_Empty_inv. split.
    + intros ->. by split.
    + intros [Hl _]. by apply nil_length_inv.
  - rewrite matches_Seq_inv. split.
    + intros (l1 & l2 & -> & H1 & H2).
      apply matches_Class_inv in H1 as (c & -> & Hp).
      apply IH in H2 as [Hlen Hall]. split; [cbn; by rewrite Hlen|].
      by constructor.
    + intros [Hlen Hall]. destruct l as [|c l]; [done|].
      inversion Hall as [|? ? Hp Hl]; subst. exists [c], l.
      split; [done|]. split; [by constructor|]. apply IH.
      split; [cbn in Hlen; lia | done].
Qed.

End RegexFacts.

(** ** Validation of the form (SchoolForm.tsx) *)

Section ValidationFacts.
Import JsString Validation.

Lemma drop_spaces_nil (l : list ascii) :
  drop_spaces l = [] <-> Forall (fun c => is_space c = true) l.
Proof.
  induction l as [|c l IH]; cbn; [by split; [constructor|]|].
  destruct (is_space c) eqn:Hc.
  - rewrite IH. split; [by constructor|]. by inversion 1.
  - split; [done|]. inversion 1; congruence.
Qed.

Lemma drop_spaces_head (l : list ascii) (c : ascii) (rest : list ascii) :
  drop_spaces l = c :: rest -> is_space c = false.
Proof.
  induction l as [|d l IH]; cbn; [done|].
  destruct (is_space d) eqn:Hd; [done|]. by intros [= <- _].
Qed.

Lemma string_of_list_ascii_nil (l : list ascii) :
  string_of_list_ascii l = "" <-> l = [].
Proof. destruct l; cbn; split; congruence. Qed.

(** [value.trim()] is empty exactly when [value] is white space only. *)
Lemma trim_empty (value : string) :
  trim value = "" <-> Forall (fun c => is_space c = true) (list_ascii_of_string value).
Proof.
  unfold trim. rewrite string_of_list_ascii_nil.
  rewrite <- drop_spaces_nil.
  generalize (list_ascii_of_string value) as l. intros l.
  destruct (drop_spaces l) as [|c rest] eqn:Hd; [done|].
  apply drop_spaces_head in Hd. split; [|done].
  intros Hr. apply (f_equal (@rev ascii)) in Hr. rewrite rev_involutive in Hr.
  change (rev []) with (@nil ascii) in Hr. apply drop_spaces_nil in Hr.
  apply Forall_rev in Hr. rewrite rev_involutive in Hr.
  inversion Hr; congruence.
Qed.

Lemma truthy_trim (value : string) :
  truthy (Some (trim value)) = false
  <-> Forall (fun c => is_space c = true) (list_ascii_of_string value).
Proof.
  rewrite <- trim_empty, truthy_false_iff. split.
  - intros [?|?]; congruence.
  - intros ->. by right.
Qed.

Lemma digit_not_space (c : ascii) : is_digit c = true -> is_space c = false.
Proof. destruct c as [[] [] [] [] [] [] [] []]; vm_compute; congruence. Qed.


Lemma test_PHONE (value : string) :
  test PHONE (digits_of value) = true
  <-> length (List.filter is_digit (list_ascii_of_string value)) = 10.
Proof.
  rewrite test_matches. unfold PHONE, digits_of.
  rewrite list_ascii_of_string_of_list_ascii, matches_Times_Class.
  split; [by intros [? _]|]. intros Hl. split; [done|].
  apply Forall_forall. intros c Hc. by apply list_elem_of_In, filter_In in Hc as [_ ?].
Qed.

Lemma validateField_phone (formData : obj) (value : string) :
  validateField formData "phone" value
  = if negb (truthy (Some (trim value))) then Some "This field is required."
    else if test PHONE (digits_of value) then None
    else Some "Please enter a valid 10-digit phone number.".
Proof.
  unfold validateField.
  rewrite (bool_decide_eq_true_2 ("phone" ∈ requiredFields))
    by (unfold requiredFields; set_solver).
  cbn [andb]. destruct (negb (truthy (Some (trim value)))); [done|].
  rewrite (bool_decide_eq_true_2 ("phone" = "phone")) by done. cbn [andb].
  by destruct (test PHONE (digits_of value)).
Qed.


Lemma validateField_email (formData : obj) (value : string) :
  validateField formData "email" value
  = if negb (truthy (Some (trim value))) then Some "This field is required."
    else if test EMAIL value then None
    else Some "Please enter a valid email address.".
Proof.
  unfold validateField.
  rewrite (bool_decide_eq_true_2 ("email" ∈ requiredFields))
    by (unfold requiredFields; set_solver).
  cbn [andb]. destruct (negb (truthy (Some (trim value)))); [done|].
  rewrite (bool_decide_eq_false_2 ("email" = "phone")) by done.
  rewrite (bool_decide_eq_true_2 ("email" = "email")) by done. cbn [andb].
  by destruct (test EMAIL value).
Qed.

(** The words of the e-mail expression. *)
Lemma matches_EMAIL (l : list ascii) :
  matches EMAIL l <->
  exists a b c,
    l = a ++ ["@"%char] ++ b ++ ["."%char] ++ c /\
    a <> [] /\ b <> [] /\ c <> [] /\
    Forall (fun ch => not_space_or_at ch = true) (a ++ b ++ c).
Proof.
  unfold EMAIL. split.
  - intros Hm.
    apply matches_Seq_inv in Hm as (a & l1 & -> & Ha & Hm).
    apply matches_Seq_inv in Hm as (x & l2 & -> & Hx & Hm).
    apply matches_Seq_inv in Hm as (b & l3 & -> & Hb & Hm).
    apply matches_Seq_inv in Hm as (y & c & -> & Hy & Hc).
    apply matches_Class_inv in Hx as (x' & -> & Hx).
    apply matches_Class_inv in Hy as (y' & -> & Hy).
    apply Ascii.eqb_eq in Hx, Hy. subst x' y'.
    apply matches_Plus_Class in Ha as [Ha1 Ha2].
    apply matches_Plus_Class in Hb as [Hb1 Hb2].
    apply matches_Plus_Class in Hc as [Hc1 Hc2].
    exists a, b, c. repeat split; try done.
    by rewrite !Forall_app.
  - intros (a & b & c & -> & Ha & Hb & Hc & Hall).
    rewrite !Forall_app in Hall. destruct Hall as (Ha' & Hb' & Hc').
    apply (matches_Seq _ _ a); [by apply matches_Plus_Class|].
    apply (matches_Seq _ _ ["@"%char]); [by apply matches_Class_inv; eexists|].
    apply (matches_Seq _ _ b); [by apply matches_Plus_Class|].
    apply (matches_Seq _ _ ["."%char]); [by apply matches_Class_inv; eexists|].
    by apply matches_Plus_Class.
Qed.

Lemma not_space_or_at_space (c : ascii) :
  not_space_or_at c = true -> is_space c = false.
Proof.
  unfold not_space_or_at. destruct (is_space c); [done|done].
Qed.

End ValidationFacts.

(** X10.  A phone number passes its test exactly when it holds ten digits:
    every other character is dropped before the ten are counted, so blanks,
    dashes and letters around or between the digits do not matter, and the
    value that is stored is not normalised. *)
Theorem phone_accepted_iff_ten_digits (formData : obj) (value : string) :
  Validation.validateField formData "phone" value = None
  <-> length (List.filter JsString.is_digit (list_ascii_of_string value)) = 10.
Proof.
  rewrite validateField_phone, <- test_PHONE.
  destruct (truthy (Some (JsString.trim value))) eqn:Ht; cbn [negb].
  - by destruct (JsString.test Validation.PHONE (JsString.digits_of value)).
  - split; [done|]. intros Hp. apply test_PHONE in Hp.
    apply truthy_trim in Ht.
    destruct (List.filter JsString.is_digit (list_ascii_of_string value)) as [|c rest] eqn:Hf;
      [done|].
    assert (Hc : In c (List.filter JsString.is_digit (list_ascii_of_string value)))
      by (rewrite Hf; by left).
    apply filter_In in Hc as [Hin Hd]. apply digit_not_space in Hd.
    rewrite Forall_forall in Ht. apply list_elem_of_In, Ht in Hin. congruence.
Qed.

(** X11.  An e-mail address passes its test exactly when it reads
    [a @ b . c] with [a], [b] and [c] non-empty and free of white space and
    of the at sign.  ([b] and [c] may hold further dots.) *)
Theorem email_accepted_iff_shape (formData : obj) (value : string) :
  Validation.validateField formData "email" value = None
  <-> exists a b c,
        list_ascii_of_string value = a ++ ["@"%char] ++ b ++ ["."%char] ++ c /\
        a <> [] /\ b <> [] /\ c <> [] /\
        Forall (fun ch => Validation.not_space_or_at ch = true) (a ++ b ++ c).
Proof.
  rewrite validateField_email, <- matches_EMAIL, <- test_matches.
  destruct (truthy (Some (JsString.trim value))) eqn:Ht; cbn [negb].
  - by destruct (JsString.test Validation.EMAIL value).
  - split; [done|]. intros Hm. apply test_matches, matches_EMAIL in Hm.
    destruct Hm as (a & b & c & Hv & Ha & _ & _ & Hall).
    apply truthy_trim in Ht. rewrite Hv in Ht.
    destruct a as [|ch a]; [done|].
    apply Forall_inv in Ht. apply Forall_inv in Hall.
    apply not_space_or_at_space in Hall. congruence.
Qed.

Section SubmitFacts.
Import JsString Validation.

Lemma value_or_empty (val : string) :
  (if truthy (Some val) then val else "") = val.
Proof.
  destruct (truthy (Some val)) eqn:Ht; [done|].
  apply truthy_false_iff in Ht as [?|?]; congruence.
Qed.

Lemma truthy_Some (val : string) : truthy (Some val) = true <-> val <> "".
Proof.
  cbn. rewrite negb_true_iff. split.
  - intros E. by apply String.eqb_neq.
  - intros E. by apply String.eqb_neq.
Qed.

(** Every message of [validateField] is a non-empty text. *)
Lemma validateField_message (formData : obj) (name value error : string) :
  validateField formData name value = Some error -> truthy (Some error) = true.
Proof.
  unfold validateField.
  repeat (match goal with |- context [if ?b then _ else _] => destruct b end;
          [by intros [= <-]|]).
  done.
Qed.

(** The rules of [validateField], one for each test of the chain. *)
Lemma validateField_None (formData : obj) (name value : string) :
  validateField formData name value = None <->
  (name ∈ requiredFields -> trim value <> "") /\
  (name = "phone" -> test PHONE (digits_of value) = true) /\
  (name = "email" -> test EMAIL value = true) /\
  (name = "udiseCode" -> 5 <= String.length value) /\
  (name ∈ ["schoolPicture"; "principalPicture"; "registrationCertificatePrimary"] ->
   value <> "") /\
  (name = "registrationCertificateUpper" ->
   formData !! "level" = Some "Upper Primary (1-8)" -> value <> "").
Proof.
  unfold validateField.
  destruct (bool_decide (name ∈ requiredFields)
            && negb (truthy (Some (trim value)))) eqn:E1.
  { split; [done|]. intros (Hr & _).
    apply andb_true_iff in E1 as [Hk Hv]. apply bool_decide_eq_true in Hk.
    apply negb_true_iff in Hv. apply Hr in Hk. apply truthy_Some in Hk. congruence. }
  destruct (bool_decide (name = "phone")
            && negb (test PHONE (digits_of value))) eqn:E2.
  { split; [done|]. intros (_ & Hr & _).
    apply andb_true_iff in E2 as [Hk Hv]. apply bool_decide_eq_true in Hk.
    apply negb_true_iff in Hv. apply Hr in Hk. congruence. }
  destruct (bool_decide (name = "email") && negb (test EMAIL value)) eqn:E3.
  { split; [done|]. intros (_ & _ & Hr & _).
    apply andb_true_iff in E3 as [Hk Hv]. apply bool_decide_eq_true in Hk.
    apply negb_true_iff in Hv. apply Hr in Hk. congruence. }
  destruct (bool_decide (name = "udiseCode") && (String.length value <? 5)%nat) eqn:E4.
  { split; [done|]. intros (_ & _ & _ & Hr & _).
    apply andb_true_iff in E4 as [Hk Hv]. apply bool_decide_eq_true in Hk.
    apply Nat.ltb_lt in Hv. apply Hr in Hk. lia. }
  destruct (bool_decide (name = "schoolPicture") && negb (truthy (Some value))) eqn:E5.
  { split; [done|]. intros (_ & _ & _ & _ & Hr & _).
    apply andb_true_iff in E5 as [Hk Hv]. apply bool_decide_eq_true in Hk.
    apply negb_true_iff in Hv. subst name.
    assert (value <> "") as Hn by (apply Hr; set_solver).
    apply truthy_Some in Hn. congruence. }
  destruct (bool_decide (name = "principalPicture") && negb (truthy (Some value))) eqn:E6.
  { split; [done|]. intros (_ & _ & _ & _ & Hr & _).
    apply andb_true_iff in E6 as [Hk Hv]. apply bool_decide_eq_true in Hk.
    apply negb_true_iff in Hv. subst name.
    assert (value <> "") as Hn by (apply Hr; set_solver).
    apply truthy_Some in Hn. congruence. }
  destruct (bool_decide (name = "registrationCertificatePrimary")
            && negb (truthy (Some value))) eqn:E7.
  { split; [done|]. intros (_ & _ & _ & _ & Hr & _).
    apply andb_true_iff in E7 as [Hk Hv]. apply bool_decide_eq_true in Hk.
    apply negb_true_iff in Hv. subst name.
    assert (value <> "") as Hn by (apply Hr; set_solver).
    apply truthy_Some in Hn. congruence. }
  destruct (bool_decide (name = "registrationCertificateUpper")
            && bool_decide (formData !! "level" = Some "Upper Primary (1-8)")
            && negb (truthy (Some value))) eqn:E8.
  { split; [done|]. intros (_ & _ & _ & _ & _ & Hr).
    apply andb_true_iff in E8 as [Hk Hv]. apply andb_true_iff in Hk as [Hk Hl].
    apply bool_decide_eq_true in Hk, Hl. apply negb_true_iff in Hv.
    apply truthy_Some in Hr; [congruence|done|done]. }
  split; [intros _|done].
  repeat split.
  - intros Hk. rewrite (bool_decide_eq_true_2 _ Hk) in E1. cbn [andb] in E1.
    apply negb_false_iff in E1. by apply truthy_Some in E1.
  - intros Hk. rewrite (bool_decide_eq_true_2 _ Hk) in E2. cbn [andb] in E2.
    by apply negb_false_iff in E2.
  - intros Hk. rewrite (bool_decide_eq_true_2 _ Hk) in E3. cbn [andb] in E3.
    by apply negb_false_iff in E3.
  - intros Hk. rewrite (bool_decide_eq_true_2 _ Hk) in E4. cbn [andb] in E4.
    apply Nat.ltb_ge in E4. lia.
  - intros Hk. apply truthy_Some.
    rewrite !elem_of_cons, elem_of_nil in Hk. destruct Hk as [Hk|[Hk|[Hk|[]]]].
    + rewrite (bool_decide_eq_true_2 _ Hk) in E5. by apply negb_false_iff in E5.
    + rewrite (bool_decide_eq_true_2 _ Hk) in E6. by apply negb_false_iff in E6.
    + rewrite (bool_decide_eq_true_2 _ Hk) in E7. by apply negb_false_iff in E7.
  - intros Hk Hl. apply truthy_Some.
    rewrite (bool_decide_eq_true_2 _ Hk), (bool_decide_eq_true_2 _ Hl) in E8.
    by apply negb_false_iff in E8.
Qed.

(** No error is collected exactly when every field that is present passes
    its test or is skipped. *)
Lemma validateForm_empty (formData : obj) :
  validateForm formData = ∅ <->
  forall key val, formData !! key = Some val ->
    (key = "registrationCertificateUpper" /\
     formData !! "level" <> Some "Upper Primary (1-8)")
    \/ validateField formData key val = None.
Proof.
  unfold validateForm. rewrite map_empty. split.
  - intros Hall key val Hk. specialize (Hall key).
    rewrite map_lookup_imap, Hk in Hall. cbn [mbind option_bind] in Hall.
    rewrite value_or_empty in Hall.
    destruct (bool_decide (key = "registrationCertificateUpper")
              && negb (bool_decide (formData !! "level" = Some "Upper Primary (1-8)")))
      eqn:Hskip.
    + left. apply andb_true_iff in Hskip as [Hu Hl].
      apply bool_decide_eq_true in Hu. apply negb_true_iff, bool_decide_eq_false in Hl.
      done.
    + right. destruct (validateField formData key val) as [error|] eqn:Hv; [|done].
      by rewrite (validateField_message _ _ _ _ Hv) in Hall.
  - intros Hall key. rewrite map_lookup_imap.
    destruct (formData !! key) as [val|] eqn:Hk; [|done]. cbn [mbind option_bind].
    rewrite value_or_empty.
    destruct (Hall key val Hk) as [[-> Hl]|Hv].
    + rewrite (bool_decide_eq_true_2 _ eq_refl), (bool_decide_eq_false_2 _ Hl). done.
    + rewrite Hv. by destruct (_ && _).
Qed.

Lemma handleSubmit_sent (JSON_parse : string -> res Api.json) (url : string)
    (random : N) (fetched : res Api.Response) (page : Page) :
  (handleSubmit JSON_parse url random fetched page).2
  = if bool_decide (validateForm (formData page) = ∅) then Some (formData page) else None.
Proof.
  unfold handleSubmit. cbn [formData]. cbv zeta.
  case_bool_decide as Hv; cbn [negb]; [|done].
  by destruct (_ ≫= _).
Qed.

End SubmitFacts.

(** X12.  A submission of the form calls [submitSchoolData] with the record
    of the form, or not at all; it does so exactly when every field that the
    record has passes its rule: the nine textual fields are not blank, the
    phone number has ten digits, the e-mail address reads [a @ b . c], the
    UDISE code has five characters or more, both pictures and the primary
    certificate are there, and so is the upper-primary certificate when the
    level is "Upper Primary (1-8)". *)
Theorem form_is_sent_iff_rules_hold (JSON_parse : string -> res Api.json)
    (url : string) (random : N) (fetched : res Api.Response) (page : Validation.Page) :
  let data := Validation.formData page in
  let sent := (Validation.handleSubmit JSON_parse url random fetched page).2 in
  (sent = None \/ sent = Some data) /\
  (sent = Some data <->
   (forall key val, key ∈ Validation.requiredFields -> data !! key = Some val ->
      JsString.trim val <> "") /\
   (forall val, data !! "phone" = Some val ->
      length (List.filter JsString.is_digit (list_ascii_of_string val)) = 10) /\
   (forall val, data !! "email" = Some val ->
      exists a b c,
        list_ascii_of_string val = a ++ ["@"%char] ++ b ++ ["."%char] ++ c /\
        a <> [] /\ b <> [] /\ c <> [] /\
        Forall (fun ch => Validation.not_space_or_at ch = true) (a ++ b ++ c)) /\
   (forall val, data !! "udiseCode" = Some val -> 5 <= String.length val) /\
   (forall key val,
      key ∈ ["schoolPicture"; "principalPicture"; "registrationCertificatePrimary"] ->
      data !! key = Some val -> val <> "") /\
   (data !! "level" = Some "Upper Primary (1-8)" ->
    data !! "registrationCertificateUpper" <> Some "")).
Proof.
  intros data sent. subst sent. rewrite handleSubmit_sent. fold data.
  case_bool_decide as Hv.
  - split; [by right|]. split; [intros _|done].
    rewrite validateForm_empty in Hv.
    assert (Hfield : forall key val, data !! key = Some val ->
              key <> "registrationCertificateUpper" ->
              Validation.validateField data key val = None).
    { intros key val Hk Hn. by destruct (Hv key val Hk) as [[? _]|?]. }
    repeat split.
    + intros key val Hr Hk.
      assert (key <> "registrationCertificateUpper") as Hn
        by (intros ->; revert Hr; unfold Validation.requiredFields; set_solver).
      apply (proj1 (validateField_None _ _ _) (Hfield key val Hk Hn)), Hr.
    + intros val Hk. apply test_PHONE.
      by apply (proj1 (validateField_None _ _ _) (Hfield "phone" val Hk ltac:(done))).
    + intros val Hk. apply matches_EMAIL, test_matches.
      by apply (proj1 (validateField_None _ _ _) (Hfield "email" val Hk ltac:(done))).
    + intros val Hk.
      by apply (proj1 (validateField_None _ _ _) (Hfield "udiseCode" val Hk ltac:(done))).
    + intros key val Hr Hk.
      assert (key <> "registrationCertificateUpper") as Hn
        by (intros ->; revert Hr; set_solver).
      destruct (proj1 (validateField_None _ _ _) (Hfield key val Hk Hn))
        as (_ & _ & _ & _ & Hfile & _).
      by apply Hfile.
    + intros Hl Hk. destruct (Hv _ _ Hk) as [[_ ?]|Hn]; [done|].
      apply validateField_None in Hn as (_ & _ & _ & _ & _ & Hn). by apply Hn.
  - split; [by left|]. split; [done|].
    intros (R1 & R2 & R3 & R4 & R5 & R6). exfalso. apply Hv.
    apply validateForm_empty. intros key val Hk.
    destruct (decide (key = "registrationCertificateUpper"
                      /\ data !! "level" <> Some "Upper Primary (1-8)")) as [?|Hskip];
      [by left|right].
    apply validateField_None. repeat split.
    + intros Hr. by apply (R1 key val).
    + intros ->. apply test_PHONE. by apply R2.
    + intros ->. apply test_matches, matches_EMAIL. by apply R3.
    + intros ->. by apply R4.
    + intros Hr. by apply (R5 key val).
    + intros -> Hl ->. by apply R6.
Qed.

(** ** The answer of the endpoint and the end of a submission *)

Section ResponseFacts.
Import Api.
Variable JSON_parse : string -> res json.

Lemma failure_success (message : string) :
  get_prop (failure message) "success" = Ok (Some (JBool false)).
Proof. unfold failure. cbn [get_prop]. by simplify_map_eq. Qed.

Lemma set_message_success (result : json) (text : string) :
  get_prop (set_message result text) "success" = get_prop result "success".
Proof. destruct result; try done. cbn. by simplify_map_eq. Qed.

Lemma set_message_not_null (result : json) (text : string) :
  result <> JNull -> set_message result text <> JNull.
Proof. by destruct result. Qed.

(** What the inner [try] block returns: the parsed value, or that value with
    its message reworded; the second only where [success] is falsy. *)
Lemma parseResult_Ok (text : string) (r : json) :
  parseResult JSON_parse text = Ok r ->
  exists result success,
    JSON_parse text = Ok result /\ result <> JNull /\
    get_prop result "success" = Ok success /\
    (r = result \/
     (json_truthy success = false /\ exists message, r = set_message result message)).
Proof.
  unfold parseResult. destruct (JSON_parse text) as [result|e]; [|done].
  cbn [mbind res_bind].
  destruct (get_prop result "success") as [success|e] eqn:Hs; [|done].
  cbn [mbind res_bind].
  assert (result <> JNull) as Hn by (by intros ->).
  destruct (json_truthy success) eqn:Ht; cbn [negb mbind res_bind].
  - intros [= <-]. exists result, success. do 3 (split; [done|]). by left.
  - destruct (get_prop result "message") as [message|e]; [|done].
    cbn [mbind res_bind].
    destruct (if json_truthy message then _ else _) as [[]|]; [| |done];
      cbn [mbind res_bind]; intros [= <-];
      exists result, success; do 3 (split; [done|]).
    + right. split; [done|]. by eexists.
    + by left.
Qed.

Lemma submitSchoolData_Ok (url : string) (random : N) (fetched : res Response)
    (r : json) :
  submitSchoolData JSON_parse url random fetched = Ok r ->
  simulation url = true
  \/ (exists message, r = failure message)
  \/ (exists response text,
        fetched = Ok response /\ ok response = true /\ body response = Ok text /\
        parseResult JSON_parse text = Ok r).
Proof.
  unfold submitSchoolData. destruct (simulation url); [by left|].
  intros Hr. right. revert Hr.
  destruct fetched as [response|e]; cbn [mbind res_bind try_catch].
  - destruct (ok response) eqn:Hok; cbn [negb].
    + destruct (body response) as [text|e] eqn:Hb; cbn [mbind res_bind try_catch].
      * destruct (parseResult JSON_parse text) as [r'|e] eqn:Hp; cbn [try_catch].
        -- intros [= <-]. right. by exists response, text.
        -- intros [= <-]. left. by eexists.
      * destruct (String.eqb _ _); intros [= <-]; left; by eexists.
    + intros [= <-]. left. by eexists.
  - destruct (String.eqb _ _); intros [= <-]; left; by eexists.
Qed.

Lemma submitSchoolData_not_null (url : string) (random : N) (fetched : res Response)
    (r : json) :
  submitSchoolData JSON_parse url random fetched = Ok r -> r <> JNull.
Proof.
  intros Hr. pose proof Hr as Hr'. apply submitSchoolData_Ok in Hr' as [Hsim|[[m ->]|Hp]].
  - unfold submitSchoolData in Hr. rewrite Hsim in Hr. by injection Hr as <-.
  - done.
  - destruct Hp as (response & text & _ & _ & _ & Hp).
    apply parseResult_Ok in Hp as (result & success & _ & Hn & _ & [->|[_ [m ->]]]);
      [done|by apply set_message_not_null].
Qed.

End ResponseFacts.

(** X14.  Outside the simulation mode [submitSchoolData] reports success
    only with what the server said: the request was answered with a status
    from 200 to 299, the body was read, and the result is the value that
    [JSON.parse] made of it, unchanged.  Every failure the function words
    itself has [success] false, and the rewording of the sheet error applies
    only to answers without success. *)
Theorem reported_success_comes_from_server (JSON_parse : string -> res Api.json)
    (url : string) (random : N) (fetched : res Api.Response)
    (result : Api.json) (success : option Api.json) :
  Api.submitSchoolData JSON_parse url random fetched = Ok result ->
  Api.get_prop result "success" = Ok success ->
  Api.json_truthy success = true ->
  Api.simulation url = true
  \/ exists response text,
       fetched = Ok response /\ Api.ok response = true /\
       Api.body response = Ok text /\ JSON_parse text = Ok result.
Proof.
  intros Hr Hs Ht. apply submitSchoolData_Ok in Hr as [Hsim|[[m ->]|Hp]].
  - by left.
  - rewrite failure_success in Hs. injection Hs as <-. done.
  - right. destruct Hp as (response & text & Hf & Hok & Hb & Hp).
    exists response, text. repeat split; try done.
    apply parseResult_Ok in Hp as (parsed & success' & HJ & Hn & Hs' & [->|[Hf' [m ->]]]);
      [done|].
    rewrite set_message_success, Hs' in Hs. injection Hs as <-. congruence.
Qed.

Lemma reported_success_comes_from_server_witness :
  Api.simulation Api.DEFAULT_URL = true
  \/ exists response text,
       Ok (Api.mkResponse 200 (Ok example_success_text)) = Ok response /\
       Api.ok response = true /\
       Api.body response = Ok text /\
       example_parse text = Ok (Api.JObj {[ "success" := Api.JBool true ]}).
Proof.
  apply (reported_success_comes_from_server example_parse Api.DEFAULT_URL 7
           (Ok (Api.mkResponse 200 (Ok example_success_text))) _
           (Some (Api.JBool true)));
    reflexivity.
Defined.

(** X13.  Once the record has passed validation, [handleSubmit] ends with
    the answer of [submitSchoolData] as its result and with [isSubmitting]
    off; the message of its own [catch] block is never needed.  The form is
    emptied exactly when the answer reports success, and then the record is
    kept for the receipt and the errors stay as they are; otherwise the
    record stays in the form. *)
Theorem valid_form_outcome (JSON_parse : string -> res Api.json)
    (url : string) (random : N) (fetched : res Api.Response) (page : Validation.Page) :
  Validation.validateForm (Validation.formData page) = ∅ ->
  exists response success,
    Api.submitSchoolData JSON_parse url random fetched = Ok response /\
    Api.get_prop response "success" = Ok success /\
    let page' := (Validation.handleSubmit JSON_parse url random fetched page).1 in
    Validation.submitResult page' = Some response /\
    Validation.isSubmitting page' = false /\
    if Api.json_truthy success
    then Validation.formData page' = SchoolForm.INITIAL_DATA /\
         Validation.lastSubmittedData page' = Some (Validation.formData page) /\
         Validation.errors page' = Validation.errors page
    else Validation.formData page' = Validation.formData page /\
         Validation.lastSubmittedData page' = None.
Proof.
  intros Hv.
  destruct (submit_no_throw JSON_parse url random fetched) as [response Hr].
  pose proof (submitSchoolData_not_null _ _ _ _ _ Hr) as Hn.
  destruct (Api.get_prop response "success") as [success|e] eqn:Hs;
    [|by destruct response].
  exists response, success. do 2 (split; [done|]).
  unfold Validation.handleSubmit. cbn [Validation.formData]. cbv zeta.
  rewrite (bool_decide_eq_true_2 _ Hv). cbn [negb].
  rewrite Hr. cbn [mbind res_bind]. unfold Validation.afterResponse.
  cbn [Validation.formData Validation.errors Validation.lastSubmittedData
       Validation.isSubmitting].
  rewrite Hs. cbn [mbind res_bind].
  destruct (Api.json_truthy success); [done|].
  destruct (Api.get_prop response "errors") as [[serverErrors|]|e] eqn:He;
    [| |by destruct response]; cbn [mbind res_bind]; [|done].
  by destruct (Api.json_truthy (Some serverErrors)).
Qed.

Lemma valid_form_outcome_witness :
  exists response success,
    Api.submitSchoolData example_parse Api.DEFAULT_URL 7
      (Ok (Api.mkResponse 200 (Ok example_success_text))) = Ok response /\
    Api.get_prop response "success" = Ok success /\
    let page' :=
      (Validation.handleSubmit example_parse Api.DEFAULT_URL 7
         (Ok (Api.mkResponse 200 (Ok example_success_text))) example_page).1 in
    Validation.submitResult page' = Some response /\
    Validation.isSubmitting page' = false /\
    if Api.json_truthy success
    then Validation.formData page' = SchoolForm.INITIAL_DATA /\
         Validation.lastSubmittedData page' = Some (Validation.formData example_page) /\
         Validation.errors page' = Validation.errors example_page
    else Validation.formData page' = Validation.formData example_page /\
         Validation.lastSubmittedData page' = None.
Proof.
  apply (valid_form_outcome example_parse Api.DEFAULT_URL 7
           (Ok (Api.mkResponse 200 (Ok example_success_text))) example_page).
  reflexivity.
Defined.

Example complete_record_is_sent :
  (Validation.handleSubmit example_parse Api.DEFAULT_URL 7
     (Ok (Api.mkResponse 200 (Ok example_success_text))) example_page)
  = (Validation.mkPage SchoolForm.INITIAL_DATA (Validation.ClientErrors ∅)
       (Some example_complete) false
       (Some (Api.JObj {[ "success" := Api.JBool true ]})),
     Some example_complete).
Proof. reflexivity. Qed.

(** ** Editing the record: by hand and by voice *)

Section EditFacts.
Import SchoolForm.

(** Typing one field is the merge of a record with that field alone. *)
Lemma handleChange_merge (name value : string) (st : FormState) :
  formData (handleChange name value st)
  = mergeUpdates (formData st) {[ name := value ]}.
Proof.
  unfold handleChange, mergeUpdates. cbn [formData].
  rewrite <- insert_union_singleton_l.
  destruct (decide (name = "level")) as [->|Hn].
  - rewrite lookup_singleton_eq, (bool_decide_eq_true_2 ("level" = "level")) by done.
    cbn [andb]. case_bool_decide as Hv.
    + subst value. by rewrite bool_decide_eq_true_2.
    + rewrite (bool_decide_eq_false_2 (Some value = _)) by congruence.
      by rewrite andb_false_r.
  - rewrite lookup_singleton_ne by done.
    by rewrite (bool_decide_eq_false_2 _ Hn).
Qed.

Lemma mergeUpdates_twice (prev updates : obj) :
  mergeUpdates (mergeUpdates prev updates) updates = mergeUpdates prev updates.
Proof.
  unfold mergeUpdates.
  destruct (truthy (updates !! "level") && bool_decide _).
  - apply map_eq. intros k.
    destruct (decide (k = "registrationCertificateUpper")) as [->|Hk].
    + by rewrite !lookup_insert_eq.
    + rewrite !lookup_insert_ne by done. rewrite !lookup_union.
      rewrite lookup_insert_ne by done. rewrite lookup_union.
      by destruct (updates !! k), (prev !! k).
  - by rewrite (assoc_L (∪)), (idemp_L (∪)).
Qed.

End EditFacts.

(** X15.  Typing a value into a field and dictating it have the same
    effect: the update of that one field through [handleVoiceUpdate] does not
    raise and leaves the record that [handleChange] leaves, the level rule
    included, and the same fields are flagged with an error afterwards. *)
Theorem typing_equals_dictating (name value : string) (st : SchoolForm.FormState) :
  exists st',
    SchoolForm.handleVoiceUpdate (Some {[ name := value ]}) st = Ok st' /\
    SchoolForm.formData st' = SchoolForm.formData (SchoolForm.handleChange name value st) /\
    forall key,
      truthy (SchoolForm.errors st' !! key)
      = truthy (SchoolForm.errors (SchoolForm.handleChange name value st) !! key).
Proof.
  eexists. split; [reflexivity|]. split.
  - cbn [SchoolForm.formData]. symmetry. apply handleChange_merge.
  - intros key. unfold SchoolForm.handleChange. cbn [SchoolForm.errors].
    rewrite lookup_difference.
    destruct (decide (key = name)) as [->|Hk].
    + rewrite lookup_singleton_eq.
      destruct (truthy (SchoolForm.errors st !! name)) eqn:Ht; [|done].
      by rewrite lookup_delete_eq.
    + rewrite lookup_singleton_ne by done.
      destruct (truthy (SchoolForm.errors st !! name)); [|done].
      by rewrite lookup_delete_ne.
Qed.

(** X16.  An update that arrives twice changes nothing the second time:
    the record and the errors are those after the first. *)
Theorem repeated_update_changes_nothing (updates : obj) (st : SchoolForm.FormState) :
  SchoolForm.handleVoiceUpdate (Some updates) st
    ≫= SchoolForm.handleVoiceUpdate (Some updates)
  = SchoolForm.handleVoiceUpdate (Some updates) st.
Proof.
  unfold SchoolForm.handleVoiceUpdate. cbn [mbind res_bind].
  cbn [SchoolForm.formData SchoolForm.errors SchoolForm.submitCalls].
  rewrite mergeUpdates_twice. do 2 f_equal.
  apply map_eq. intros k. rewrite !lookup_difference.
  by destruct (updates !! k).
Qed.

(** ** Validation and the interview *)

Section ReadyFacts.
Import FieldOrder Validation.

Lemma trim_nonempty (value : string) : JsString.trim value <> "" -> value <> "".
Proof. intros Ht ->. by apply Ht. Qed.

(** A field of the record that passes validation has a value, and the value
    is not empty: the textual fields and the three attachments that are
    always asked for. *)
Lemma valid_field_truthy (data : obj) (key : string) :
  Types.is_SchoolData data -> validateForm data = ∅ ->
  key ∈ requiredFields
        ++ ["schoolPicture"; "principalPicture"; "registrationCertificatePrimary"] ->
  truthy (data !! key) = true.
Proof.
  intros Hd Hv Hk.
  assert (key ∈ dom data) as Hin.
  { rewrite Hd. unfold Types.SchoolDataKeySet, Types.SchoolDataKeys.
    revert Hk. unfold requiredFields. rewrite elem_of_list_to_set.
    rewrite !elem_of_app, !elem_of_cons, !elem_of_nil. tauto. }
  apply elem_of_dom in Hin as [val Hval]. rewrite Hval.
  apply truthy_Some.
  destruct (proj1 (validateForm_empty data) Hv key val Hval) as [[-> _]|Hn].
  { exfalso. revert Hk. unfold requiredFields.
    rewrite !elem_of_app, !elem_of_cons, !elem_of_nil. intros H.
    decompose [or] H; congruence. }
  apply validateField_None in Hn as (Hr & _ & _ & _ & Hf & _).
  apply elem_of_app in Hk as [Hk|Hk]; [by apply trim_nonempty, Hr | by apply Hf].
Qed.

End ReadyFacts.

(** X17.  A record with the fields of [SchoolData] that passes the
    validation of the form has no missing field for the interview: the
    assistant is told that all fields are filled. *)
Theorem valid_record_is_ready (data : obj) :
  Types.is_SchoolData data -> Validation.validateForm data = ∅ ->
  FieldOrder.getNextMissingField (Some data) = FieldOrder.READY.
Proof.
  intros Hd Hv.
  assert (Htext : Forall (fun f => truthy (data !! FieldOrder.key f) = true)
                    FieldOrder.INTERVIEW_ORDER).
  { apply Forall_forall. intros f Hf. apply (valid_field_truthy data _ Hd Hv).
    apply elem_of_app. left.
    change Validation.requiredFields
      with (map FieldOrder.key FieldOrder.INTERVIEW_ORDER).
    by apply list_elem_of_In, in_map, list_elem_of_In. }
  assert (Hfile : forall key,
            key ∈ ["schoolPicture"; "principalPicture"; "registrationCertificatePrimary"] ->
            truthy (data !! key) = true).
  { intros key Hk. apply (valid_field_truthy data _ Hd Hv).
    apply elem_of_app. by right. }
  unfold FieldOrder.getNextMissingField.
  assert (FieldOrder.first_missing data FieldOrder.INTERVIEW_ORDER = None) as ->.
  { induction Htext as [|f fields Hf _ IH]; [done|].
    cbn [FieldOrder.first_missing]. by rewrite Hf. }
  rewrite !Hfile by (rewrite !elem_of_cons; tauto). cbn [negb].
  case_bool_decide as Hl; [|done]. cbn [andb].
  assert ("registrationCertificateUpper" ∈ dom data) as Hin.
  { rewrite Hd. apply upper_is_SchoolData_key. }
  apply elem_of_dom in Hin as [val Hval]. rewrite Hval.
  destruct (proj1 (validateForm_empty data) Hv _ val Hval) as [[_ ?]|Hn]; [done|].
  apply validateField_None in Hn as (_ & _ & _ & _ & _ & Hn).
  by rewrite (proj2 (truthy_Some val) (Hn eq_refl Hl)).
Qed.

Lemma valid_record_is_ready_witness :
  FieldOrder.getNextMissingField (Some example_complete) = FieldOrder.READY.
Proof.
  apply valid_record_is_ready.
  - unfold Types.is_SchoolData. reflexivity.
  - reflexivity.
Defined.

(** ** The text chat *)

Section ChatFacts.
Import ChatBot Chat.
Context {W : Type}.
Variable onUpdateForm : option (option obj -> W -> res W).
Variable onSubmitForm : option (W -> res W).
Variable Object_keys : obj -> list string.

Abbreviation handleToolCall := (handleToolCall onUpdateForm onSubmitForm Object_keys).
Abbreviation runToolCalls := (runToolCalls onUpdateForm onSubmitForm Object_keys).

(** One call of the text chat and one call of the live session do the same
    to the owner. *)
Lemma handleToolCall_owner {T : Type} `{Clock T} (fc : FunctionCall)
    (msgs : res (list Message)) (st : State (T:=T)) (w : W) :
  match handleToolCall fc msgs w, handleFunctionCall onUpdateForm onSubmitForm fc st w with
  | (_, w1, None), Ok (_, w2, _) => w1 = w2
  | (_, w1, Some e1), Throw e2 => w1 = w /\ e1 = e2
  | _, _ => False
  end.
Proof.
  unfold Chat.handleToolCall, handleFunctionCall.
  case_bool_decide.
  { destruct onUpdateForm as [update|]; [|done].
    by destruct (update (fc_args fc) w). }
  case_bool_decide; [|done].
  destruct onSubmitForm as [submit|]; [|done].
  by destruct (submit w).
Qed.

Lemma handleToolCall_Throw (fc : FunctionCall) (e : exn) (w : W) :
  (handleToolCall fc (Throw e) w).1.1 = Throw e.
Proof.
  unfold Chat.handleToolCall.
  case_bool_decide.
  { destruct onUpdateForm as [update|]; [|done].
    by destruct (update (fc_args fc) w). }
  case_bool_decide; [|done].
  destruct onSubmitForm as [submit|]; [|done].
  by destruct (submit w).
Qed.

Lemma runToolCalls_Throw (calls : list FunctionCall) (e : exn) (w : W) :
  (runToolCalls calls (Throw e) w).1.1 = Throw e.
Proof.
  revert w. induction calls as [|fc calls IH]; intros w; [done|].
  cbn [Chat.runToolCalls].
  pose proof (handleToolCall_Throw fc e w) as Hfc.
  destruct (handleToolCall fc (Throw e) w) as [[msgs1 w1] [e1|]]; cbn in Hfc; subst msgs1;
    [done|apply IH].
Qed.

(** What one call does to the messages: it adds at most one, of the model;
    or its updater raises, and then the call had no arguments. *)
Lemma handleToolCall_messages (fc : FunctionCall) (prev : list Message) (w : W) :
  (exists notes, (handleToolCall fc (Ok prev) w).1.1 = Ok (prev ++ notes) /\
                 Forall (fun m => role m = model) notes)
  \/ ((exists e, (handleToolCall fc (Ok prev) w).1.1 = Throw e) /\ fc_args fc = None).
Proof.
  unfold Chat.handleToolCall.
  assert (Hsame : exists notes : list Message,
            Ok (A:=list Message) prev = Ok (prev ++ notes) /\
            Forall (fun m => role m = model) notes).
  { exists []. by rewrite app_nil_r. }
  case_bool_decide.
  { destruct onUpdateForm as [update|]; [|by left].
    destruct (update (fc_args fc) w); [|by left].
    cbn [fst snd]. destruct (fc_args fc) as [args|]; cbn.
    - left. eexists [_]. split; [done|]. by repeat constructor.
    - right. split; [by eexists|done]. }
  case_bool_decide; [|by left].
  destruct onSubmitForm as [submit|]; [|by left].
  destruct (submit w); [|by left].
  left. eexists [_]. split; [done|]. by repeat constructor.
Qed.

Lemma runToolCalls_messages (calls : list FunctionCall) (prev : list Message) (w : W) :
  (exists notes, (runToolCalls calls (Ok prev) w).1.1 = Ok (prev ++ notes) /\
                 Forall (fun m => role m = model) notes)
  \/ ((exists e, (runToolCalls calls (Ok prev) w).1.1 = Throw e) /\
      Exists (fun fc => fc_args fc = None) calls).
Proof.
  revert prev w. induction calls as [|fc calls IH]; intros prev w.
  { left. exists []. by rewrite app_nil_r. }
  cbn [Chat.runToolCalls].
  pose proof (handleToolCall_messages fc prev w) as Hfc.
  destruct (handleToolCall fc (Ok prev) w) as [[msgs1 w1] thrown]. cbn [fst snd] in Hfc.
  destruct Hfc as [(notes & -> & Hn)|[[e ->] Hargs]].
  - destruct thrown as [e1|]; [left; by exists notes|].
    destruct (IH (prev ++ notes) w1) as [(more & Hm & Hmore)|[He Hex]].
    + left. exists (notes ++ more). rewrite Hm, (assoc_L (++)). split; [done|].
      by apply Forall_app.
    + right. split; [done|]. by right.
  - right. split; [|by left].
    destruct thrown as [e1|]; [by exists e|].
    exists e. apply runToolCalls_Throw.
Qed.

End ChatFacts.

(** X18.  The tool calls of a response in the text chat and those of a
    message in the live session reach the owner alike: for the same calls
    the owner's state ends the same, and the same exception, if any, ends
    the loop.  (The text chat sends no response for a call, and notes each
    call in the conversation.) *)
Theorem text_and_voice_calls_reach_owner_alike {T : Type} `{Clock T} {W : Type}
    (onUpdateForm : option (option obj -> W -> res W))
    (onSubmitForm : option (W -> res W)) (Object_keys : obj -> list string)
    (calls : list ChatBot.FunctionCall) (msgs : res (list ChatBot.Message))
    (st : ChatBot.State (T:=T)) (w : W) :
  (Chat.runToolCalls onUpdateForm onSubmitForm Object_keys calls msgs w).1.2
  = (ChatBot.dispatchToolCalls onUpdateForm onSubmitForm calls st w).1.1.2
  /\ (Chat.runToolCalls onUpdateForm onSubmitForm Object_keys calls msgs w).2
     = (ChatBot.dispatchToolCalls onUpdateForm onSubmitForm calls st w).2.
Proof.
  revert msgs st w. induction calls as [|fc calls IH]; intros msgs st w; [done|].
  cbn [Chat.runToolCalls ChatBot.dispatchToolCalls].
  pose proof (handleToolCall_owner onUpdateForm onSubmitForm Object_keys fc msgs st w)
    as Hfc.
  destruct (Chat.handleToolCall _ _ _ fc msgs w) as [[msgs1 w1] [e1|]],
           (ChatBot.handleFunctionCall onUpdateForm onSubmitForm fc st w)
             as [[[st2 w2] eff]|e2];
    try done.
  - by destruct Hfc as [-> ->].
  - subst w2. specialize (IH msgs1 st2 w1).
    by destruct (ChatBot.dispatchToolCalls onUpdateForm onSubmitForm calls st2 w1)
      as [[[st3 w3] effs] thrown].
Qed.

Lemma replyMessages_spec (responseText : option string) :
  Chat.replyMessages responseText <> [] /\
  Forall (fun m => ChatBot.role m = ChatBot.model) (Chat.replyMessages responseText).
Proof.
  unfold Chat.replyMessages. cbv zeta. split; [done|].
  constructor; [done|]. destruct (includes _ _); by repeat constructor.
Qed.

Lemma errorMessages_spec (error : exn) :
  Chat.errorMessages error <> [] /\
  Forall (fun m => ChatBot.role m = ChatBot.model) (Chat.errorMessages error).
Proof. unfold Chat.errorMessages. cbv zeta. split; [done|]. by repeat constructor. Qed.

(** X19.  What a send does to the conversation.  A send with nothing to
    send (no text but blanks, and no image), or while a request is under way,
    changes nothing, in the chat and at the owner; and only such a send
    leaves the chat as it was.  Every other send that is rendered keeps the
    messages there were, adds the user's message with the trimmed text, and
    after it one or more messages of the model; the input and the image are
    cleared and the loading flag is off.  A render fails only when a call of
    the response came without arguments. *)
Theorem send_grows_conversation {W : Type}
    (onUpdateForm : option (option obj -> W -> res W))
    (onSubmitForm : option (W -> res W)) (Object_keys : obj -> list string)
    (env : Chat.SendEnv) (st : Chat.ChatState) (w : W) :
  let result := Chat.handleSendMessage onUpdateForm onSubmitForm Object_keys env st w in
  let nothing_to_send :=
    negb (truthy (Some (JsString.trim (Chat.inputValue st))))
    && negb (truthy (Chat.selectedImage st)) in
  (nothing_to_send || Chat.isLoading st = true -> result = (Chat.Rendered st, w)) /\
  (nothing_to_send || Chat.isLoading st = false ->
   match result.1 with
   | Chat.RenderError _ =>
       exists response,
         Chat.generated env = Ok response /\
         Exists (fun fc => ChatBot.fc_args fc = None)
           (default [] (Chat.functionCalls response))
   | Chat.Rendered st' =>
       st' <> st /\
       exists replies,
         Chat.messages st'
         = Chat.messages st
           ++ ChatBot.mkMessage ChatBot.user (JsString.trim (Chat.inputValue st))
                (if truthy (Chat.selectedImage st) then Chat.selectedImage st else None)
              :: replies /\
         replies <> [] /\
         Forall (fun m => ChatBot.role m = ChatBot.model) replies /\
         Chat.inputValue st' = "" /\ Chat.selectedImage st' = None /\
         Chat.isLoading st' = false
   end).
Proof.
  cbv zeta. unfold Chat.handleSendMessage.
  destruct (_ || _); [by split|]. split; [done|]. intros _.
  cbv zeta.
  set (sent := ChatBot.mkMessage _ _ _).
  assert (Hgrown : forall (st' : Chat.ChatState),
            (exists replies,
               Chat.messages st' = Chat.messages st ++ sent :: replies /\
               replies <> [] /\
               Forall (fun m => ChatBot.role m = ChatBot.model) replies /\
               Chat.inputValue st' = "" /\ Chat.selectedImage st' = None /\
               Chat.isLoading st' = false) ->
            st' <> st /\
            exists replies,
              Chat.messages st' = Chat.messages st ++ sent :: replies /\
              replies <> [] /\
              Forall (fun m => ChatBot.role m = ChatBot.model) replies /\
              Chat.inputValue st' = "" /\ Chat.selectedImage st' = None /\
              Chat.isLoading st' = false).
  { intros st' Hst'. split; [|done]. intros ->.
    destruct Hst' as (replies & Hm & _).
    apply (f_equal length) in Hm. rewrite length_app in Hm. cbn in Hm. lia. }
  assert (Hfail : forall e,
            exists replies,
              Chat.messages st ++ [sent] ++ Chat.errorMessages e
              = Chat.messages st ++ sent :: replies /\
              replies <> [] /\ Forall (fun m => ChatBot.role m = ChatBot.model) replies).
  { intros e. exists (Chat.errorMessages e). split; [done|]. apply errorMessages_spec. }
  destruct (negb (Chat.apiKey env)).
  { cbn [mbind res_bind fst]. apply Hgrown.
    destruct (Hfail (Exn "Error" "API Key is missing.")) as (replies & Hr & Hne & Hm).
    exists replies. cbn [Chat.messages]. rewrite <- (assoc_L (++)). by rewrite Hr. }
  destruct (Chat.generated env) as [response|e].
  2:{ cbn [mbind res_bind fst]. apply Hgrown.
      destruct (Hfail e) as (replies & Hr & Hne & Hm).
      exists replies. cbn [Chat.messages]. rewrite <- (assoc_L (++)). by rewrite Hr. }
  pose proof (runToolCalls_messages onUpdateForm onSubmitForm Object_keys
                (default [] (Chat.functionCalls response))
                (Chat.messages st ++ [sent]) w) as Hrun.
  destruct (Chat.runToolCalls _ _ _ _ _ _) as [[msgs w1] thrown]. cbn [fst snd] in Hrun.
  destruct Hrun as [(notes & -> & Hn)|[[e ->] Hex]].
  - destruct thrown as [e|]; cbn [mbind res_bind fst]; apply Hgrown.
    + exists (notes ++ Chat.errorMessages e). cbn [Chat.messages].
      rewrite <- !(assoc_L (++)).
      split; [done|]. split.
      * intros Happ. apply app_eq_nil in Happ as [_ Happ].
        by apply errorMessages_spec in Happ.
      * split; [|done]. apply Forall_app. split; [done|]. apply errorMessages_spec.
    + exists (notes ++ Chat.replyMessages (Chat.text response)). cbn [Chat.messages].
      rewrite <- !(assoc_L (++)). split; [done|]. split.
      * intros Happ. apply app_eq_nil in Happ as [_ Happ].
        by apply replyMessages_spec in Happ.
      * split; [|done]. apply Forall_app. split; [done|]. apply replyMessages_spec.
  - destruct thrown as [e'|]; cbn [mbind res_bind fst]; by exists response.
Qed.

(** A send of blanks on the sample chat, and the same send while a request
    is under way: nothing changes. *)
Lemma send_grows_conversation_witness :
  Chat.handleSendMessage (W:=SchoolForm.FormState)
    (Some SchoolForm.handleVoiceUpdate) (Some SchoolForm.onSubmitForm)
    example_keys example_send_env
    (Chat.mkChatState "   " None false (Chat.messages example_chat))
    SchoolForm.initialFormState
  = (Chat.Rendered (Chat.mkChatState "   " None false (Chat.messages example_chat)),
     SchoolForm.initialFormState).
Proof.
  apply (send_grows_conversation (Some SchoolForm.handleVoiceUpdate)
           (Some SchoolForm.onSubmitForm) example_keys example_send_env
           (Chat.mkChatState "   " None false (Chat.messages example_chat))
           SchoolForm.initialFormState).
  reflexivity.
Defined.

Example send_scenario :
  Chat.handleSendMessage (Some SchoolForm.handleVoiceUpdate) (Some SchoolForm.onSubmitForm)
    example_keys example_send_env example_chat SchoolForm.initialFormState
  = (Chat.Rendered
       (Chat.mkChatState "" None false
          [ ChatBot.mkMessage ChatBot.user "Our school is Khowai Model School" None;
            ChatBot.mkMessage ChatBot.model "Updated fields: schoolName" None;
            ChatBot.mkMessage ChatBot.model "Noted." None;
            ChatBot.mkMessage ChatBot.model ChatBot.SUPPORT_MSG None ]),
     SchoolForm.mkFormState
       (<["schoolName" := "Khowai Model School"]> SchoolForm.INITIAL_DATA) ∅ 0).
Proof. reflexivity. Qed.

(** ** The support tag of a response *)

Section ReplaceFacts.
Import Chat.

Lemma prefix_cons (x y : ascii) (p t : string) :
  String.prefix (String x p) (String y t) = bool_decide (x = y) && String.prefix p t.
Proof.
  cbn [String.prefix]. destruct (ascii_dec x y) as [->|Hn].
  - by rewrite bool_decide_eq_true_2.
  - by rewrite bool_decide_eq_false_2.
Qed.

Lemma strip_prefix_cons (x y : ascii) (p t : string) :
  strip_prefix (String x p) (String y t)
  = if bool_decide (x = y) then strip_prefix p t else None.
Proof.
  cbn [strip_prefix]. destruct (Ascii.eqb x y) eqn:E.
  - apply Ascii.eqb_eq in E. by rewrite bool_decide_eq_true_2.
  - apply Ascii.eqb_neq in E. by rewrite bool_decide_eq_false_2.
Qed.

Lemma prefix_strip (p t : string) :
  String.prefix p t = true <-> is_Some (strip_prefix p t).
Proof.
  revert t. induction p as [|x p IH]; intros t.
  - split; [by eexists|by destruct t].
  - destruct t as [|y t]; [cbn; split; [done|by intros [? ?]]|].
    rewrite prefix_cons, strip_prefix_cons.
    case_bool_decide; cbn [andb]; [apply IH|]. split; [done|by intros [? ?]].
Qed.

Lemma prefix_refl (p : string) : String.prefix p p = true.
Proof.
  induction p as [|x p IH]; [done|].
  by rewrite prefix_cons, bool_decide_eq_true_2.
Qed.

Lemma strip_prefix_refl (p : string) : strip_prefix p p = Some "".
Proof.
  induction p as [|x p IH]; [done|].
  by rewrite strip_prefix_cons, bool_decide_eq_true_2.
Qed.

(** Without an occurrence nothing is replaced. *)
Lemma replace_absent (t p r : string) :
  includes t p = false -> replace t p r = t.
Proof.
  induction t as [|c t IH]; cbn [includes replace]; intros Hi;
    apply orb_false_iff in Hi as [Hp Hi].
  - destruct (strip_prefix p "") eqn:Hs; [|done].
    assert (is_Some (strip_prefix p "")) as Hsome by (by eexists).
    apply prefix_strip in Hsome. congruence.
  - destruct (strip_prefix p (String c t)) eqn:Hs.
    + assert (is_Some (strip_prefix p (String c t))) as Hsome by (by eexists).
      apply prefix_strip in Hsome. congruence.
    + by rewrite IH.
Qed.

Lemma includes_app (a p : string) : includes (a +:+ p) p = true.
Proof.
  induction a as [|c a IH].
  - change ("" +:+ p) with p. destruct p; cbn [includes]; by rewrite prefix_refl.
  - rewrite append_cons. cbn [includes]. rewrite IH. apply orb_true_r.
Qed.

(** A pattern that starts in [a +:+ q] starts in [a], or [a] is its
    beginning and the rest of it starts [q]. *)
Lemma strip_prefix_app (p a q r : string) :
  strip_prefix p (a +:+ q) = Some r ->
  String.prefix p a = true \/ exists rest, p = a +:+ rest /\ strip_prefix rest q = Some r.
Proof.
  revert a. induction p as [|x p IH]; intros a; [left; by destruct a|].
  destruct a as [|y a].
  - change ("" +:+ q) with q. intros Hs. right. by exists (String x p).
  - rewrite append_cons, strip_prefix_cons, prefix_cons.
    case_bool_decide as Hxy; [|done]. subst y. intros Hs.
    destruct (IH a Hs) as [Hp|(rest & -> & Hr)]; [by left|].
    right. exists rest. by rewrite append_cons.
Qed.

Lemma In_append (c : ascii) (a b : string) :
  In c (list_ascii_of_string b) -> In c (list_ascii_of_string (a +:+ b)).
Proof.
  intros Hc. induction a as [|x a IH]; [done|].
  rewrite append_cons. by right.
Qed.

(** The pattern at the end is the one that is removed, when it does not
    occur before and its first character does not occur in it again. *)
Lemma replace_last (a : string) (h : ascii) (t : string) :
  ~ In h (list_ascii_of_string t) ->
  includes a (String h t) = false ->
  replace (a +:+ String h t) (String h t) "" = a.
Proof.
  intros Hh. induction a as [|c a IH]; intros Hi.
  - change ("" +:+ String h t) with (String h t).
    cbn [replace]. by rewrite strip_prefix_refl.
  - cbn [includes] in Hi. apply orb_false_iff in Hi as [Hp Hi].
    rewrite append_cons. cbn [replace].
    destruct (strip_prefix (String h t) (String c (a +:+ String h t))) as [r|] eqn:Hs;
      [exfalso|by rewrite IH].
    rewrite <- append_cons in Hs.
    apply strip_prefix_app in Hs as [Hs|(rest & Hrest & Hs)]; [congruence|].
    rewrite append_cons in Hrest. injection Hrest as -> ->.
    destruct rest as [|z rest].
    + assert (String c a +:+ "" = String c a) as Heq.
      { clear. induction (String c a) as [|x s IHs]; [done|].
        by rewrite append_cons, IHs. }
      rewrite <- Heq in Hp at 1. rewrite append_cons in Hp.
      rewrite prefix_refl in Hp. done.
    + rewrite strip_prefix_cons in Hs. case_bool_decide as Hz; [|done]. subst z.
      apply Hh. apply In_append. by left.
Qed.

End ReplaceFacts.

(** X20.  The support tag.  A response text that ends with
    "[CONTACT_SUPPORT]" and has no such tag before is shown without the tag,
    trimmed, and the support line follows it; a text without the tag is
    shown trimmed and alone ("Processed." stands for an empty text). *)
Theorem reply_with_support_tag (body : string) :
  includes body "[CONTACT_SUPPORT]" = false ->
  Chat.replyMessages (Some (body +:+ "[CONTACT_SUPPORT]"))
  = [ChatBot.mkMessage ChatBot.model (JsString.trim body) None;
     ChatBot.mkMessage ChatBot.model ChatBot.SUPPORT_MSG None] /\
  Chat.replyMessages (Some body)
  = [ChatBot.mkMessage ChatBot.model
       (JsString.trim (if truthy (Some body) then body else "Processed.")) None].
Proof.
  intros Hbody. unfold Chat.replyMessages. cbv zeta. split.
  - assert (truthy (Some (body +:+ "[CONTACT_SUPPORT]")) = true) as ->.
    { apply truthy_Some. by destruct body. }
    cbn [default from_option id]. rewrite includes_app.
    rewrite (replace_last body "[" "CONTACT_SUPPORT]"); [done| |done].
    cbn. intros Hin. repeat (destruct Hin as [Hin|Hin]; [discriminate Hin|]). done.
  - destruct (truthy (Some body)) eqn:Ht; cbn [default from_option id].
    + by rewrite Hbody, replace_absent.
    + reflexivity.
Qed.

Lemma reply_with_support_tag_witness :
  Chat.replyMessages (Some ("Please restart the router. " +:+ "[CONTACT_SUPPORT]"))
  = [ChatBot.mkMessage ChatBot.model (JsString.trim "Please restart the router. ") None;
     ChatBot.mkMessage ChatBot.model ChatBot.SUPPORT_MSG None] /\
  Chat.replyMessages (Some "Please restart the router. ")
  = [ChatBot.mkMessage ChatBot.model
       (JsString.trim (if truthy (Some "Please restart the router. ")
                       then "Please restart the router. " else "Processed.")) None].
Proof. apply (reply_with_support_tag "Please restart the router. "). reflexivity. Defined.

(** ** The receipt *)

Section ReceiptFacts.
Import Receipt.

Lemma append_inv_head (s a b : string) : s +:+ a = s +:+ b -> a = b.
Proof.
  induction s as [|c s IH]; [done|].
  rewrite !append_cons. intros [= Hs]. by apply IH.
Qed.

Lemma append_assoc (a b c : string) : (a +:+ b) +:+ c = a +:+ (b +:+ c).
Proof.
  induction a as [|x a IH]; [done|].
  by rewrite !append_cons, IH.
Qed.

Lemma escapeQuotes_cons (c : ascii) (rest : string) :
  escapeQuotes (String c rest)
  = if Ascii.eqb c quote then String quote (String quote (escapeQuotes rest))
    else String c (escapeQuotes rest).
Proof. reflexivity. Qed.

(** An escaped value is read back from its cell: the quote that ends the
    cell is the first one that is not doubled. *)
Lemma cell_inj (v w r1 r2 : string) :
  escapeQuotes v +:+ String quote r1 = escapeQuotes w +:+ String quote r2 ->
  (forall rest, r1 <> String quote rest) ->
  (forall rest, r2 <> String quote rest) ->
  v = w /\ r1 = r2.
Proof.
  intros Heq H1 H2. revert w Heq.
  induction v as [|c v IH]; intros [|d w].
  - cbn. by intros [= ->].
  - rewrite escapeQuotes_cons. change (escapeQuotes "" +:+ ?x) with x.
    destruct (Ascii.eqb d quote) eqn:Hd; rewrite !append_cons.
    + intros [= Hr]. by destruct (H1 _ Hr).
    + intros [= Hq]. apply Ascii.eqb_neq in Hd. congruence.
  - rewrite escapeQuotes_cons. change (escapeQuotes "" +:+ ?x) with x.
    destruct (Ascii.eqb c quote) eqn:Hc; rewrite !append_cons.
    + intros [= Hr]. symmetry in Hr. by destruct (H2 _ Hr).
    + intros [= Hq]. apply Ascii.eqb_neq in Hc. congruence.
  - rewrite !escapeQuotes_cons.
    destruct (Ascii.eqb c quote) eqn:Hc, (Ascii.eqb d quote) eqn:Hd;
      rewrite !append_cons.
    + apply Ascii.eqb_eq in Hc, Hd. subst c d. intros [= Heq].
      destruct (IH w Heq) as [-> ->]. done.
    + intros [= Hq]. apply Ascii.eqb_neq in Hd. congruence.
    + intros [= Hq]. apply Ascii.eqb_neq in Hc. congruence.
    + intros [= -> Heq]. destruct (IH w Heq) as [-> ->]. done.
Qed.

Local Abbreviation enc val := (dquote +:+ escapeQuotes val +:+ dquote).

Lemma enc_app (val rest : string) :
  enc val +:+ rest = String quote (escapeQuotes val +:+ String quote rest).
Proof.
  unfold dquote. fold quote. rewrite append_cons. change ("" +:+ ?x) with x.
  rewrite append_cons, append_assoc. rewrite append_cons. by change ("" +:+ ?x) with x.
Qed.

Lemma enc_alone (val : string) :
  enc val = String quote (escapeQuotes val +:+ String quote "").
Proof. unfold dquote. fold quote. rewrite append_cons. by change ("" +:+ ?x) with x. Qed.

Lemma join_cons (separator item next : string) (rest : list string) :
  Chat.join separator (item :: next :: rest)
  = item +:+ separator +:+ Chat.join separator (next :: rest).
Proof. reflexivity. Qed.

(** A row of cells is read back: the values of two rows of the same length
    with the same text are the same. *)
Lemma row_inj (vs ws : list string) :
  length vs = length ws ->
  Chat.join "," (map (fun val => enc val) vs) = Chat.join "," (map (fun val => enc val) ws) ->
  vs = ws.
Proof.
  revert ws. induction vs as [|v vs IH]; intros [|w ws] Hlen Heq; try done.
  destruct vs as [|v2 vs], ws as [|w2 ws]; try done.
  - cbn [map Chat.join] in Heq. rewrite !enc_alone in Heq. injection Heq as Heq.
    by apply cell_inj in Heq as [-> _].
  - cbn [map] in Heq. rewrite !join_cons in Heq.
    rewrite !enc_app in Heq. injection Heq as Heq.
    apply cell_inj in Heq as [-> Heq];
      [|intros rest Hr; injection Hr as Hq _; vm_compute in Hq; discriminate Hq..].
    injection Heq as Heq. f_equal. apply IH; [cbn in Hlen |- *; lia|exact Heq].
Qed.

(** The cells of the columns after the time stamp. *)
Lemma csvCells_values (now : string) (data : obj) (headers cells : list string) :
  "Timestamp" ∉ headers ->
  csvCells now data headers = Ok cells ->
  cells = map (fun header => enc (default "" (columnValue data header))) headers /\
  Forall (fun header => is_Some (columnValue data header)) headers.
Proof.
  revert cells. induction headers as [|header headers IH]; intros cells Hts.
  - cbn. by intros [= <-].
  - apply not_elem_of_cons in Hts as [Hh Hts]. cbn [csvCells]. unfold csvCell.
    rewrite (proj2 (String.eqb_neq header "Timestamp")) by done.
    destruct (columnValue data header) as [val|] eqn:Hv; [|done].
    cbn [mbind res_bind].
    destruct (csvCells now data headers) as [rest|e]; [|done].
    cbn [mbind res_bind]. intros [= <-].
    destruct (IH rest Hts eq_refl) as [-> Hall].
    split; [cbn [map]; by rewrite Hv|]. constructor; [by eexists|done].
Qed.

Lemma csvCells_Timestamp (now : string) (data : obj) (headers : list string) :
  csvCells now data ("Timestamp" :: headers)
  = cells ← csvCells now data headers; Ok ((dquote +:+ now +:+ dquote) :: cells).
Proof. reflexivity. Qed.

(** Two rows with the same text have the same values in every column after
    the time stamp. *)
Lemma rows_agree (now : string) (d1 d2 : obj) (headers cells1 cells2 : list string) :
  "Timestamp" ∉ headers ->
  csvCells now d1 headers = Ok cells1 ->
  csvCells now d2 headers = Ok cells2 ->
  Chat.join "," ((dquote +:+ now +:+ dquote) :: cells1)
  = Chat.join "," ((dquote +:+ now +:+ dquote) :: cells2) ->
  forall header, header ∈ headers -> columnValue d1 header = columnValue d2 header.
Proof.
  intros Hts H1 H2 Heq header Hin.
  apply (csvCells_values _ _ _ _ Hts) in H1 as [-> Hall1].
  apply (csvCells_values _ _ _ _ Hts) in H2 as [-> Hall2].
  destruct headers as [|first headers]; [by apply elem_of_nil in Hin|].
  cbn [map] in Heq. rewrite !join_cons in Heq.
  do 2 apply append_inv_head in Heq.
  change (enc (default "" (columnValue d1 first))
          :: map (fun h => enc (default "" (columnValue d1 h))) headers)
    with (map (fun h => enc (default "" (columnValue d1 h))) (first :: headers)) in Heq.
  change (enc (default "" (columnValue d2 first))
          :: map (fun h => enc (default "" (columnValue d2 h))) headers)
    with (map (fun h => enc (default "" (columnValue d2 h))) (first :: headers)) in Heq.
  rewrite <- !(map_map (fun h => default "" (columnValue _ h)) (fun val => enc val)) in Heq.
  apply row_inj in Heq; [|by rewrite !length_map].
  rewrite Forall_forall in Hall1, Hall2.
  destruct (Hall1 _ Hin) as [v1 Hv1], (Hall2 _ Hin) as [v2 Hv2].
  apply list_elem_of_In in Hin.
  pose proof (proj1 map_ext_in_iff Heq header Hin) as Hd.
  cbn beta in Hd. rewrite Hv1, Hv2 in Hd |- *. cbn in Hd. by rewrite Hd.
Qed.

End ReceiptFacts.

(** X21.  The receipt keeps the text of the record apart: two records whose
    receipts, made at the same time, have the same text agree on all nine
    textual fields, whatever commas and double quotes the values hold; of
    an attachment the receipt tells only whether it is there. *)
Theorem receipt_determines_text (now : string) (d1 d2 : obj)
    (r1 r2 : Receipt.Download) :
  Receipt.downloadReceipt now (Some d1) = Ok (Some r1) ->
  Receipt.downloadReceipt now (Some d2) = Ok (Some r2) ->
  Receipt.content r1 = Receipt.content r2 ->
  (forall key, key ∈ Validation.requiredFields -> d1 !! key = d2 !! key) /\
  (forall key,
     key ∈ ["schoolPicture"; "principalPicture"; "registrationCertificatePrimary";
            "registrationCertificateUpper"] ->
     truthy (d1 !! key) = truthy (d2 !! key)).
Proof.
  unfold Receipt.downloadReceipt, Receipt.csvContent.
  change Receipt.SHEET_HEADERS with ("Timestamp" :: tail Receipt.SHEET_HEADERS) at 2 4.
  rewrite !csvCells_Timestamp.
  assert ("Timestamp" ∉ tail Receipt.SHEET_HEADERS) as Hts.
  { intros Hin. apply list_elem_of_In in Hin. cbn in Hin.
    repeat (destruct Hin as [Hin|Hin]; [discriminate Hin|]). done. }
  destruct (Receipt.csvCells now d1 _) as [cells1|e] eqn:H1; [|done].
  destruct (Receipt.csvCells now d2 _) as [cells2|e] eqn:H2; [|done].
  cbn [mbind res_bind]. intros [= <-] [= <-]. cbn [Receipt.content]. intros Heq.
  do 2 apply append_inv_head in Heq.
  pose proof (rows_agree now d1 d2 _ _ _ Hts H1 H2 Heq) as Hcol.
  assert (Hfile : forall (a b : bool) (yes : string),
            yes <> "No" ->
            Some (if a then yes else "No") = Some (if b then yes else "No") -> a = b).
  { intros [] [] yes Hyes Hy; try done; injection Hy; congruence. }
  split; intros key Hkey.
  - unfold Validation.requiredFields in Hkey.
    rewrite !elem_of_cons, elem_of_nil in Hkey.
    destruct Hkey as [->|[->|[->|[->|[->|[->|[->|[->|[->|[]]]]]]]]]].
    + apply (Hcol "School Name"). by apply list_elem_of_In; vm_compute; tauto.
    + apply (Hcol "UDISE Code"). by apply list_elem_of_In; vm_compute; tauto.
    + apply (Hcol "Block"). by apply list_elem_of_In; vm_compute; tauto.
    + apply (Hcol "District"). by apply list_elem_of_In; vm_compute; tauto.
    + apply (Hcol "Level"). by apply list_elem_of_In; vm_compute; tauto.
    + apply (Hcol "Principal Name"). by apply list_elem_of_In; vm_compute; tauto.
    + apply (Hcol "Name of Society/Trust"). by apply list_elem_of_In; vm_compute; tauto.
    + apply (Hcol "Phone"). by apply list_elem_of_In; vm_compute; tauto.
    + apply (Hcol "Email"). by apply list_elem_of_In; vm_compute; tauto.
  - rewrite !elem_of_cons, elem_of_nil in Hkey.
    destruct Hkey as [->|[->|[->|[->|[]]]]].
    + apply (Hfile _ _ "[Image Data]"); [done|].
      apply (Hcol "School Picture"). by apply list_elem_of_In; vm_compute; tauto.
    + apply (Hfile _ _ "[Image Data]"); [done|].
      apply (Hcol "Principal Picture"). by apply list_elem_of_In; vm_compute; tauto.
    + apply (Hfile _ _ "[PDF Data]"); [done|].
      apply (Hcol "Registration Certificate Primary"). by apply list_elem_of_In; vm_compute; tauto.
    + apply (Hfile _ _ "[PDF Data]"); [done|].
      apply (Hcol "Registration Certificate Upper Primary"). by apply list_elem_of_In; vm_compute; tauto.
Qed.

Lemma receipt_determines_text_witness :
  (forall key, key ∈ Validation.requiredFields ->
     example_complete !! key = example_other_picture !! key) /\
  (forall key,
     key ∈ ["schoolPicture"; "principalPicture"; "registrationCertificatePrimary";
            "registrationCertificateUpper"] ->
     truthy (example_complete !! key) = truthy (example_other_picture !! key)).
Proof.
  eapply (receipt_determines_text "3/11/2026, 10:15:00"
            example_complete example_other_picture); reflexivity.
Defined.

(** A value with double quotes and a comma, in its cell. *)
Example cell_with_quotes :
  Receipt.csvCell "3/11/2026, 10:15:00"
    {[ "schoolName" := "The " +:+ dquote +:+ "Model" +:+ dquote +:+ " School, Khowai" ]}
    "School Name"
  = Ok (dquote +:+ "The " +:+ dquote +:+ dquote +:+ "Model" +:+ dquote +:+ dquote
        +:+ " School, Khowai" +:+ dquote).
Proof. reflexivity. Qed.

Section ReceiptOutcome.
Import Receipt.

Lemma csvCells_Ok (now : string) (data : obj) (headers : list string) :
  is_Some (match csvCells now data headers with Ok cells => Some cells | Throw _ => None end)
  <-> Forall (fun header => header = "Timestamp" \/ is_Some (columnValue data header))
        headers.
Proof.
  induction headers as [|header headers IH]; [by split; [constructor|eexists]|].
  rewrite Forall_cons, <- IH. cbn [csvCells]. unfold csvCell.
  destruct (String.eqb header "Timestamp") eqn:Hh.
  - apply String.eqb_eq in Hh. cbn [mbind res_bind].
    destruct (csvCells now data headers); cbn [mbind res_bind].
    + split; [intros _; split; [by left|by eexists]|by eexists].
    + split; [by intros [? ?]|by intros [_ [? ?]]].
  - apply String.eqb_neq in Hh.
    destruct (columnValue data header) as [val|]; cbn [mbind res_bind].
    + destruct (csvCells now data headers); cbn [mbind res_bind].
      * split; [intros _; split; [right|]; by eexists|by eexists].
      * split; [by intros [? ?]|by intros [_ [? ?]]].
    + split; [by intros [? ?]|]. intros [[?|[? ?]] _]; done.
Qed.

Lemma downloadReceipt_Ok (now : string) (data : obj) :
  (exists download, downloadReceipt now (Some data) = Ok (Some download))
  <-> (forall key, key ∈ Validation.requiredFields -> is_Some (data !! key)).
Proof.
  unfold downloadReceipt, csvContent.
  pose proof (csvCells_Ok now data SHEET_HEADERS) as Hok.
  destruct (csvCells now data SHEET_HEADERS) as [cells|e];
    cbn [mbind res_bind].
  - split; [intros _|by eexists].
    assert (is_Some (Some cells)) as Hsome by (by eexists).
    apply Hok in Hsome. rewrite Forall_forall in Hsome.
    intros key Hkey. unfold Validation.requiredFields in Hkey.
    rewrite !elem_of_cons, elem_of_nil in Hkey.
    destruct Hkey as [->|[->|[->|[->|[->|[->|[->|[->|[->|[]]]]]]]]]].
    + by destruct (Hsome "School Name"
                     ltac:(by apply list_elem_of_In; vm_compute; tauto)).
    + by destruct (Hsome "UDISE Code"
                     ltac:(by apply list_elem_of_In; vm_compute; tauto)).
    + by destruct (Hsome "Block" ltac:(by apply list_elem_of_In; vm_compute; tauto)).
    + by destruct (Hsome "District" ltac:(by apply list_elem_of_In; vm_compute; tauto)).
    + by destruct (Hsome "Level" ltac:(by apply list_elem_of_In; vm_compute; tauto)).
    + by destruct (Hsome "Principal Name"
                     ltac:(by apply list_elem_of_In; vm_compute; tauto)).
    + by destruct (Hsome "Name of Society/Trust"
                     ltac:(by apply list_elem_of_In; vm_compute; tauto)).
    + by destruct (Hsome "Phone" ltac:(by apply list_elem_of_In; vm_compute; tauto)).
    + by destruct (Hsome "Email" ltac:(by apply list_elem_of_In; vm_compute; tauto)).
  - split; [by intros [? ?]|]. intros Hkeys. exfalso.
    assert (is_Some (@None (list string))) as [? ?]; [|done].
    apply Hok. unfold SHEET_HEADERS.
    repeat (constructor; [first [by left | right; cbn; first [by eexists | apply Hkeys; unfold Validation.requiredFields; rewrite !elem_of_cons; tauto]]|]).
    constructor.
Qed.

End ReceiptOutcome.

(** X22.  The receipt of a submitted record is made exactly when the record
    has its nine textual fields: a missing one makes [downloadReceipt]
    raise.  The name of the file then carries the UDISE code of the
    record. *)
Theorem receipt_needs_textual_fields (now : string) (data : obj) :
  ((exists download, Receipt.downloadReceipt now (Some data) = Ok (Some download))
   <-> (forall key, key ∈ Validation.requiredFields -> is_Some (data !! key))) /\
  (forall download,
     Receipt.downloadReceipt now (Some data) = Ok (Some download) ->
     exists udiseCode,
       data !! "udiseCode" = Some udiseCode /\
       Receipt.filename download = "school_registration_" +:+ udiseCode +:+ ".csv").
Proof.
  split; [apply downloadReceipt_Ok|].
  intros download Hd.
  destruct (proj1 (downloadReceipt_Ok now data) (ex_intro _ download Hd) "udiseCode")
    as [udiseCode Hu].
  { unfold Validation.requiredFields. rewrite !elem_of_cons. tauto. }
  exists udiseCode. split; [done|].
  unfold Receipt.downloadReceipt in Hd. rewrite Hu in Hd.
  destruct (Receipt.csvContent now data); [|done].
  cbn [mbind res_bind default from_option id] in Hd. by injection Hd as <-.
Qed.

(** ** Audio samples *)

Section PcmFacts.
Import Pcm.
Open Scope Z_scope.

(** Truncation toward zero, for a positive denominator. *)
Lemma quot_rem_bounds (n d : Z) :
  0 < d ->
  exists r, n = d * (n `quot` d) + r /\ - d < r < d /\ 0 <= r * n.
Proof.
  intros Hd. exists (n `rem` d). split; [apply Z.quot_rem'|].
  destruct (Z.le_gt_cases 0 n) as [Hpos|Hneg].
  - pose proof (Z.rem_bound_pos_pos n d Hd Hpos). nia.
  - pose proof (Z.rem_bound_pos_neg n d Hd ltac:(lia)). nia.
Qed.

Lemma quot_range (n d lo hi : Z) :
  0 < d -> lo <= 0 <= hi -> d * lo <= n < d * (hi + 1) ->
  lo <= n `quot` d <= hi.
Proof.
  intros Hd Hlh Hn.
  destruct (quot_rem_bounds n d Hd) as (r & Hq & Hr & Hs).
  set (q := n `quot` d) in *. split.
  - destruct (Z.le_gt_cases lo q) as [|Hlt]; [done|exfalso].
    assert (0 <= d * (lo - 1 - q)) by (apply Z.mul_nonneg_nonneg; lia). lia.
  - destruct (Z.le_gt_cases q hi) as [|Hgt]; [done|exfalso].
    assert (0 <= d * (q - hi - 1)) by (apply Z.mul_nonneg_nonneg; lia).
    assert (0 <= d * hi) by (apply Z.mul_nonneg_nonneg; lia).
    assert (0 < n) by lia. assert (0 <= r) by nia. lia.
Qed.

(** The remainder of a truncation has the sign of what is divided. *)
Lemma quot_rem_sign (n d : Z) :
  0 < d ->
  exists r, n = d * (n `quot` d) + r /\ (0 <= n -> 0 <= r < d) /\ (n <= 0 -> - d < r <= 0).
Proof.
  intros Hd. exists (n `rem` d). split; [apply Z.quot_rem'|]. split; intros Hn.
  - apply Z.rem_bound_pos_pos; lia.
  - destruct (Z.eq_dec n 0) as [->|Hne]; [rewrite Z.rem_0_l; lia|].
    pose proof (Z.rem_bound_pos_neg n d Hd ltac:(lia)). lia.
Qed.

(** A truncated value in the range of 16 bits is stored as it is. *)
Lemma toInt16_small (q : Q) :
  -32768 <= Qnum q `quot` Z.pos (Qden q) < 32768 ->
  toInt16 (Finite q) = Qnum q `quot` Z.pos (Qden q).
Proof.
  intros Hq. unfold toInt16. cbv zeta.
  set (int := Qnum q `quot` Z.pos (Qden q)) in *.
  destruct (Z.leb_spec 32768 (int mod 65536)); Z.div_mod_to_equations; lia.
Qed.

(** A truncated value from 32768 to 65535 is stored as a negative one. *)
Lemma toInt16_wraps (q : Q) :
  32768 <= Qnum q `quot` Z.pos (Qden q) < 65536 ->
  toInt16 (Finite q) = Qnum q `quot` Z.pos (Qden q) - 65536.
Proof.
  intros Hq. unfold toInt16. cbv zeta.
  set (int := Qnum q `quot` Z.pos (Qden q)) in *.
  destruct (Z.leb_spec 32768 (int mod 65536)); Z.div_mod_to_equations; lia.
Qed.

Lemma times32768_Finite (n : Z) (d : positive) :
  times32768 (Finite (n # d)) = Finite (n * 32768 # d).
Proof. cbn [times32768]. unfold Qmult. cbn [Qnum Qden]. by rewrite Pos.mul_1_r. Qed.

End PcmFacts.

(** X23.  The microphone samples.  A sample from -1 up to, but not
    including, 1 is sent as the 16-bit integer that [sample * 32768] gives
    when it is truncated toward zero: for a sample that is not negative the
    greatest integer that is not above the product, for a sample that is not
    positive the least integer that is not below it.  A sample from 1 up to
    2 does not fit: the truncated product less 65536 is sent, a negative
    value; full scale, the sample 1, is sent as -32768. *)
Theorem sample_to_int16 (q : Q) :
  let z := Pcm.toInt16 (Pcm.times32768 (Pcm.Finite q)) in
  ((-1 <= q < 1)%Q ->
   (-32768 <= z <= 32767)%Z /\
   ((0 <= q)%Q -> (inject_Z z <= q * 32768 < inject_Z z + 1)%Q) /\
   ((q <= 0)%Q -> (inject_Z z - 1 < q * 32768 <= inject_Z z)%Q)) /\
  ((1 <= q < 2)%Q ->
   (-32768 <= z < 0)%Z /\
   (inject_Z (z + 65536) <= q * 32768 < inject_Z (z + 65536) + 1)%Q) /\
  ((q == 1)%Q -> z = (-32768)%Z).
Proof.
  cbv zeta. destruct q as [n d]. rewrite times32768_Finite.
  unfold Qeq, Qle, Qlt, Qplus, Qminus, Qopp, Qmult, inject_Z. cbn [Qnum Qden].
  rewrite ?Pos.mul_1_r, ?Z.mul_1_r.
  assert (0 < Z.pos d)%Z as Hd by lia.
  destruct (quot_rem_sign (n * 32768) (Z.pos d) Hd) as (r & Hq & Hpos & Hneg).
  assert (Hwrap : (Z.pos d <= n < 2 * Z.pos d)%Z ->
                  (32768 <= (n * 32768) `quot` Z.pos d <= 65535)%Z).
  { intros [Hlo Hhi].
    assert (0 <= (n * 32768) `quot` Z.pos d <= 65535)%Z as [_ Hupper]
      by (apply quot_range; lia).
    split; [|done].
    destruct (Z.le_gt_cases 32768 ((n * 32768) `quot` Z.pos d)) as [|Hlt];
      [done|exfalso].
    assert (0 <= Z.pos d * (32767 - (n * 32768) `quot` Z.pos d))%Z
      by (apply Z.mul_nonneg_nonneg; lia).
    lia. }
  split; [|split].
  - intros [Hlo Hhi].
    assert (-32768 <= (n * 32768) `quot` Z.pos d <= 32767)%Z as Hrange.
    { apply quot_range; lia. }
    rewrite toInt16_small by (cbn [Qnum Qden]; lia). cbn [Qnum Qden].
    split; [done|]. unfold Qplus. cbn [Qnum Qden].
    rewrite ?Pos.mul_1_r, ?Z.mul_1_r. split; intros; lia.
  - intros [Hlo Hhi]. specialize (Hwrap ltac:(lia)).
    rewrite toInt16_wraps by (cbn [Qnum Qden]; lia). cbn [Qnum Qden].
    split; [lia|]. unfold Qplus. cbn [Qnum Qden].
    rewrite ?Pos.mul_1_r, ?Z.mul_1_r. lia.
  - intros Hone. specialize (Hwrap ltac:(lia)).
    rewrite toInt16_wraps by (cbn [Qnum Qden]; lia). cbn [Qnum Qden].
    assert (0 <= Z.pos d * ((n * 32768) `quot` Z.pos d - 32768))%Z
      by (apply Z.mul_nonneg_nonneg; lia).
    assert (0 <= Z.pos d * (32768 - (n * 32768) `quot` Z.pos d) \/
            (n * 32768) `quot` Z.pos d >= 32769)%Z as [|Hmore] by nia; [nia|].
    assert (0 <= Z.pos d * ((n * 32768) `quot` Z.pos d - 32769))%Z
      by (apply Z.mul_nonneg_nonneg; lia).
    lia.
Qed.

(** A small negative sample is truncated toward zero, not rounded down;
    full scale wraps around. *)
Lemma sample_to_int16_witness :
  Pcm.toInt16 (Pcm.times32768 (Pcm.Finite (-1 # 25000))) = (-1)%Z /\
  Pcm.toInt16 (Pcm.times32768 (Pcm.Finite (1 # 25000))) = 1%Z /\
  Pcm.toInt16 (Pcm.times32768 (Pcm.Finite 1)) = (-32768)%Z.
Proof.
  split; [reflexivity|]. split; [reflexivity|].
  apply (sample_to_int16 1). reflexivity.
Defined.

Section PcmRoundTrip.
Import Pcm.
Open Scope Z_scope.

Lemma byte_of_Z_to_N (b : byte) : byte_of_Z (Z.of_N (Byte.to_N b)) = b.
Proof. unfold byte_of_Z. by rewrite N2Z.id, Byte.of_to_N. Qed.

Lemma byte_range (b : byte) : 0 <= Z.of_N (Byte.to_N b) < 256.
Proof. pose proof (Byte.to_N_bounded b). lia. Qed.

(** One element: the sample that the playback reads from two bytes is
    written back as these two bytes. *)
Lemma int16_roundtrip (lo hi : byte) (rest : list byte) :
  match int16Array (lo :: hi :: rest) with
  | v :: _ => int16Bytes (toInt16 (times32768 (Finite (inject_Z v / 32768)))) = [lo; hi]
  | [] => False
  end.
Proof.
  cbn [int16Array].
  pose proof (byte_range lo) as Hlo. pose proof (byte_range hi) as Hhi.
  set (u := Z.of_N (Byte.to_N lo) + 256 * Z.of_N (Byte.to_N hi)).
  set (v := if 32768 <=? u then u - 65536 else u).
  assert (-32768 <= v < 32768 /\ v mod 65536 = u) as [Hv Hu].
  { subst v. destruct (Z.leb_spec 32768 u); Z.div_mod_to_equations; lia. }
  unfold Qdiv, Qinv, inject_Z. cbn [Qnum]. unfold Qmult at 1. cbn [Qnum Qden].
  rewrite times32768_Finite, Z.mul_1_r.
  rewrite toInt16_small; cbn [Qnum Qden]; rewrite Z.quot_mul by done; [|done].
  unfold int16Bytes. cbv zeta. rewrite Hu.
  assert (u mod 256 = Z.of_N (Byte.to_N lo)) as -> by (Z.div_mod_to_equations; lia).
  assert (u / 256 = Z.of_N (Byte.to_N hi)) as -> by (Z.div_mod_to_equations; lia).
  by rewrite !byte_of_Z_to_N.
Qed.

Lemma channelData_roundtrip (n : nat) (bytes : list byte) :
  length bytes = (2 * n)%nat ->
  length (channelData bytes) = n /\
  concat (map int16Bytes
            (map (fun x => toInt16 (times32768 x)) (channelData bytes)))
  = bytes.
Proof.
  revert bytes. induction n as [|n IH]; intros bytes Hlen.
  { by destruct bytes. }
  destruct bytes as [|lo [|hi rest]]; try (cbn in Hlen; lia).
  destruct (IH rest) as [IHlen IHbytes]; [cbn in Hlen; lia|].
  pose proof (int16_roundtrip lo hi rest) as Hpair.
  unfold channelData in *. cbn [int16Array] in Hpair |- *.
  cbn [map concat length]. rewrite Hpair, IHbytes, IHlen. done.
Qed.

End PcmRoundTrip.

(** X24.  The microphone format is the playback format: for bytes that
    [decodeAudioData] accepts it reads one sample for each frame, and
    [createBlob] of these samples gives the [encode]-d text of the very same
    bytes. *)
Theorem played_samples_encode_back (bytes : list byte) (frameCount : nat) :
  ChatBot.decodeAudioData bytes = Ok frameCount ->
  length (Pcm.channelData bytes) = frameCount /\
  Pcm.data (Pcm.createBlob (Pcm.channelData bytes)) = AudioCodec.encode bytes.
Proof.
  unfold ChatBot.decodeAudioData.
  destruct (length bytes mod 2 =? 0)%nat eqn:Heven; [|done]. cbn [negb].
  destruct (length bytes / 2 =? 0)%nat; [done|]. intros [= <-].
  apply Nat.eqb_eq in Heven.
  destruct (channelData_roundtrip (length bytes / 2) bytes) as [Hlen Hbytes].
  { pose proof (Nat.div_mod_eq (length bytes) 2). lia. }
  split; [done|]. unfold Pcm.createBlob. cbv zeta. cbn [Pcm.data].
  by rewrite Hbytes.
Qed.

Lemma played_samples_encode_back_witness :
  length (Pcm.channelData [x00; x80; xff; x7f]) = 2%nat /\
  Pcm.data (Pcm.createBlob (Pcm.channelData [x00; x80; xff; x7f]))
  = AudioCodec.encode [x00; x80; xff; x7f].
Proof. apply played_samples_encode_back. reflexivity. Defined.

(** Half scale, full scale either way, and the largest value below full
    scale. *)
Example sample_scenario :
  map (fun x => Pcm.toInt16 (Pcm.times32768 x))
    [Pcm.Finite (1 # 2); Pcm.Finite 1; Pcm.Finite (-1); Pcm.Finite (32767 # 32768);
     Pcm.NotFinite]
  = [16384; -32768; -32768; 32767; 0]%Z.
Proof. reflexivity. Qed.
